(** * scm_prototype: the Yahoo Finance normalisation and derivation engine

    A shallow embedding of [run_yahoo.py]: the decimal coercion and formatting
    primitives, the field resolver, the period aligner, the metric row
    builder, the growth calculator and the orchestrator, followed by the
    properties the specification states about them.

    Numbers are modelled as the interpreter has them:
    - a [Decimal] is identified with its exact rational value; every
      arithmetic result is rounded to the 28 significant digits of the
      default decimal context (round half even), and [round(x, nd)] is
      [quantize], which signals [InvalidOperation] when the result needs more
      than 28 digits.  Only finite decimals are modelled, the exponent is
      unbounded and a decimal zero carries no sign; the sign of a value
      that rounds to zero is kept where it shows, in [float(round(x, nd))];
    - a [float] is a binary64 value (the kernel's primitive floats, the same
      IEEE 754 arithmetic), with [float(Decimal)] and [round(float, nd)]
      correctly rounded. *)

From Stdlib Require Import ZArith QArith Qabs Qpower Qfield Lqa Ascii String.
From Stdlib Require Import PrimFloat FloatOps SpecFloat.
From stdpp Require Import base option list gmap strings pretty sorting lexico.

(** ** Exceptions and fallible computations *)

(** The exception classes that occur; every one is a subclass of Python's
    [Exception]. *)
Inductive exn : Type :=
| InvalidOperation
| ValueError
| DivisionByZero
| ZeroDivisionError
| TypeError
| OtherError (cls : string).

Definition exn_name (e : exn) : string :=
  match e with
  | InvalidOperation => "InvalidOperation"
  | ValueError => "ValueError"
  | DivisionByZero => "DivisionByZero"
  | ZeroDivisionError => "ZeroDivisionError"
  | TypeError => "TypeError"
  | OtherError cls => cls
  end.

Inductive outcome (A : Type) : Type :=
| Ret (a : A)
| Raise (e : exn).
Arguments Ret {A} a.
Arguments Raise {A} e.

#[global] Instance outcome_ret : MRet outcome := fun A a => Ret a.
#[global] Instance outcome_bind : MBind outcome := fun A B f m =>
  match m with
  | Ret a => f a
  | Raise e => Raise e
  end.

Definition returns {A} (m : outcome A) : Prop := exists a, m = Ret a.

(** [try: body except (classes): handler]. *)
Definition try_except {A} (body : outcome A) (classes : exn -> bool)
    (handler : exn -> outcome A) : outcome A :=
  match body with
  | Ret a => Ret a
  | Raise e => if classes e then handler e else Raise e
  end.

(** Monadic map over a list, left to right; the first exception ends it. *)
Fixpoint mapM {A B} (f : A -> outcome B) (l : list A) : outcome (list B) :=
  match l with
  | [] => Ret []
  | x :: l' => y ← f x; ys ← mapM f l'; Ret (y :: ys)
  end.

(** ** Decimals *)

Module Dec.

Definition Decimal : Type := Q.

(** The default context: [prec = 28], [rounding = ROUND_HALF_EVEN]. *)
Definition prec : Z := 28.

Definition pow10 (k : Z) : Q := (10 ^ k)%Q.

(** Nearest integer, ties to the even one. *)
Definition round_half_even (q : Q) : Z :=
  let n := Qnum q in
  let d := Z.pos (Qden q) in
  let f := (n / d)%Z in
  let r2 := (2 * (n mod d))%Z in
  if (r2 <? d)%Z then f
  else if (d <? r2)%Z then (f + 1)%Z
  else if Z.even f then f else (f + 1)%Z.

Fixpoint ndigits_aux (fuel : nat) (n : Z) : Z :=
  match fuel with
  | O => 0
  | S k => if (n <? 10)%Z then 1 else (1 + ndigits_aux k (n / 10))%Z
  end.

(** Number of decimal digits of a positive integer. *)
Definition ndigits (n : Z) : Z := ndigits_aux (S (Z.to_nat (Z.log2 n))) n.

(** The adjusted exponent of a non-zero value: [10^a <= |q| < 10^(a+1)]. *)
Definition adjusted (q : Q) : Z :=
  let a0 := (ndigits (Z.abs (Qnum q)) - ndigits (Z.pos (Qden q)))%Z in
  if Qle_bool (pow10 a0) (Qabs q) then a0 else (a0 - 1)%Z.

Definition is_zero (q : Q) : bool := (Qnum q =? 0)%Z.

(** [Decimal._fix]: round a result to [prec] significant digits. *)
Definition fix_prec (q : Q) : Decimal :=
  let q := Qred q in
  if is_zero q then 0%Q
  else
    let s := (adjusted q - (prec - 1))%Z in
    Qred (inject_Z (round_half_even (Qred (q / pow10 s))) * pow10 s).

Definition add (a b : Decimal) : Decimal := fix_prec (a + b).
Definition sub (a b : Decimal) : Decimal := fix_prec (a - b).
Definition mul (a b : Decimal) : Decimal := fix_prec (a * b).

(** [Decimal(0)], [Decimal(100)]. *)
Definition zero : Decimal := 0%Q.
Definition hundred : Decimal := 100%Q.

(** [x == 0] and [bool(x)]. *)
Definition eq_zero (x : Decimal) : bool := is_zero (Qred x).
Definition truthy (x : Decimal) : bool := negb (eq_zero x).

(** The sign of a value. *)
Definition is_neg (x : Decimal) : bool := (Qnum x <? 0)%Z.

(** [a / b]: the quotient rounded to the context precision; a zero divisor
    signals [DivisionByZero], or [InvalidOperation] for [0 / 0] (both are
    trapped by the default context). *)
Definition truediv (a b : Decimal) : outcome Decimal :=
  if eq_zero b then Raise (if eq_zero a then InvalidOperation else DivisionByZero)
  else Ret (fix_prec (a / b)).

(** [round(x, nd)], that is [x.quantize(Decimal((0, (1,), -nd)))]: the value
    at exponent [-nd]; [InvalidOperation] when its coefficient has more than
    [prec] digits. *)
Definition quantize (x : Decimal) (nd : Z) : outcome Decimal :=
  let k := round_half_even (Qred (x * pow10 nd)) in
  if (10 ^ prec <=? Z.abs k)%Z then Raise InvalidOperation
  else Ret (Qred (inject_Z k / pow10 nd)).

End Dec.

(** ** Floats *)

Module Flt.

Definition pow2 (k : Z) : Q := (2 ^ k)%Q.

(** [float(d)] for a decimal [d], and the conversion of any rational to the
    nearest binary64 value, ties to even; subnormals below [2^-1022],
    infinity past the largest finite value. *)
Definition of_Q (q : Q) : float :=
  let q := Qred q in
  let n := Qnum q in
  if (n =? 0)%Z then 0%float
  else
    let a := Qabs q in
    let e1 := (Z.log2 (Z.abs n) - Z.log2 (Z.pos (Qden q)) - 52)%Z in
    let e2 := if Qle_bool (pow2 (e1 + 52)) a then e1 else (e1 - 1)%Z in
    let e := Z.max e2 (-1074) in
    let m := Dec.round_half_even (Qred (a / pow2 e)) in
    let neg := (n <? 0)%Z in
    match m with
    | Z.pos p => SF2Prim (S754_finite neg p e)
    | _ => SF2Prim (S754_zero neg)
    end.

(** [float(r)] where [r] is the decimal [round(x, nd)] and [neg] the sign of
    [x]: rounding keeps the sign, so a negative [x] that rounds to zero gives
    [Decimal('-0.00')] and the float [-0.0]. *)
Definition of_rounded (neg : bool) (r : Q) : float :=
  if Dec.is_zero (Qred r) then SF2Prim (S754_zero neg) else of_Q r.

(** The exact value of a finite float; [None] for an infinity or a NaN. *)
Definition to_Q (x : float) : option Q :=
  match Prim2SF x with
  | S754_zero _ => Some 0%Q
  | S754_finite neg m e =>
      let v := (inject_Z (Z.pos m) * pow2 e)%Q in
      Some (Qred (if neg then - v else v))
  | _ => None
  end.

Definition is_neg (x : float) : bool :=
  match Prim2SF x with
  | S754_zero s | S754_infinity s | S754_finite s _ _ => s
  | S754_nan => false
  end.

(** [round(x, nd)] on a float: the exact value rounded half even at [nd]
    decimals, then the nearest float; an infinity or NaN is returned as is
    and a zero result keeps the sign of [x]. *)
Definition round (x : float) (nd : Z) : float :=
  match to_Q x with
  | None => x
  | Some q =>
      let k := Dec.round_half_even (Qred (q * Dec.pow10 nd)) in
      if (k =? 0)%Z then SF2Prim (S754_zero (is_neg x))
      else of_Q (inject_Z k / Dec.pow10 nd)
  end.

(** [bool(x)]: a float is falsy exactly when it equals zero. *)
Definition truthy (x : float) : bool := negb (PrimFloat.eqb x 0%float).

(** [a / b] on floats: a zero divisor raises [ZeroDivisionError]. *)
Definition truediv (a b : float) : outcome float :=
  if PrimFloat.eqb b 0%float then Raise ZeroDivisionError
  else Ret (PrimFloat.div a b).

End Flt.

(** ** Strings as Python slices and integers read them *)

(** [s[:n]] and [s[n:]]. *)
Fixpoint str_take (n : nat) (s : string) : string :=
  match n, s with
  | S n', String c s' => String c (str_take n' s')
  | _, _ => EmptyString
  end.

Fixpoint str_drop (n : nat) (s : string) : string :=
  match n, s with
  | S n', String _ s' => str_drop n' s'
  | _, _ => s
  end.

Definition is_space (c : ascii) : bool :=
  let n := N_of_ascii c in
  ((9 <=? n) && (n <=? 13) || (28 <=? n) && (n <=? 32))%N.

Definition digit_of (c : ascii) : option Z :=
  let n := N_of_ascii c in
  if ((48 <=? n) && (n <=? 57))%N then Some (Z.of_N n - 48)%Z else None.

Fixpoint lstrip (s : list ascii) : list ascii :=
  match s with
  | c :: s' => if is_space c then lstrip s' else s
  | [] => []
  end.

Definition strip (s : list ascii) : list ascii :=
  reverse (lstrip (reverse (lstrip s))).

(** The digits of an integer literal: at least one digit, single underscores
    allowed between digits.  [after_digit] says whether the previous
    character was a digit. *)
Fixpoint read_digits (acc : Z) (after_digit : bool) (s : list ascii) : option Z :=
  match s with
  | [] => if after_digit then Some acc else None
  | c :: s' =>
      match digit_of c with
      | Some d => read_digits (10 * acc + d)%Z true s'
      | None =>
          if (N_of_ascii c =? 95)%N && after_digit then read_digits acc false s'
          else None
      end
  end.

(** [int(s)] for a string: surrounding whitespace, an optional sign, decimal
    digits; [ValueError] otherwise. *)
Definition py_int (s : string) : outcome Z :=
  let body := strip (list_ascii_of_string s) in
  let '(neg, ds) :=
    match body with
    | c :: r =>
        if (N_of_ascii c =? 45)%N then (true, r)
        else if (N_of_ascii c =? 43)%N then (false, r)
        else (false, body)
    | [] => (false, body)
    end in
  match read_digits 0 false ds with
  | Some n => Ret (if neg then (- n)%Z else n)
  | None => Raise ValueError
  end.

(** [str(n)] for an integer. *)
Definition py_str_int (n : Z) : string := pretty n.

(** ** Cells, series and statement tables *)

(** What a cell of a statement table holds: nothing ([None], [NaN], [NaT]:
    [pd.isna] answers true), a finite number (identified with the decimal
    that [str] prints and [Decimal] reads back), or text. *)
Inductive cell : Type :=
| Missing
| Num (q : Dec.Decimal)
| Text (s : string).

(** Values stored in a row's metrics mapping. *)
Inductive pyval : Type :=
| VNone
| VFloat (f : float)
| VStr (s : string)
| VList (l : list string).

(** A fiscal period label: the column labels of one table are comparable with
    each other and have a text, [str(d.date())] for a timestamp and [str(d)]
    for anything else. *)
Class Period (P : Type) `{Countable P} : Type := {
  period_lt : relation P;
  period_lt_dec :: RelDecision period_lt;
  period_lt_strict :: StrictOrder period_lt;
  period_lt_trichotomy :: Trichotomy period_lt;
  period_str : P -> string
}.

Record Row : Type := {
  company : string;
  symbol : string;
  freq : string;
  fiscalDate : string;
  metrics : gmap string pyval;
  summary : string;
  source : string
}.

Definition set_metrics (r : Row) (m : gmap string pyval) : Row :=
  {| company := company r; symbol := symbol r; freq := freq r;
     fiscalDate := fiscalDate r; metrics := m; summary := summary r;
     source := source r |}.

(** [m.get(k)]. *)
Definition py_get (m : gmap string pyval) (k : string) : pyval :=
  default VNone (m !! k).

(** Yahoo field aliases (they vary by ticker). *)
Definition INC_FIELDS : gmap string (list string) :=
  list_to_map [
    ("revenue", ["Total Revenue"; "TotalRevenue"; "Revenue"]);
    ("grossProfit", ["Gross Profit"; "GrossProfit"]);
    ("netIncome", ["Net Income"; "NetIncome"]);
    ("rd", ["Research Development"; "Research And Development"; "R&D";
            "ResearchDevelopment"])
  ].

Definition BAL_FIELDS : gmap string (list string) :=
  list_to_map [
    ("cash", ["Cash And Cash Equivalents"; "CashAndCashEquivalents"; "Cash"]);
    ("shortDebt", ["Short/Current Long Term Debt"; "Short Term Debt";
                   "Short Long Term Debt"; "CurrentDebtAndCapitalLeaseObligation";
                   "Current Debt And Capital Lease Obligation"]);
    ("longDebt", ["Long Term Debt"; "LongTermDebt";
                  "LongTermDebtAndCapitalLeaseObligation";
                  "Long Term Debt And Capital Lease Obligation"]);
    ("totalLiab", ["Total Liab"; "Total Liabilities";
                   "TotalLiabilitiesNetMinorityInterest";
                   "Total Liabilities Net Minority Interest"]);
    ("equity", ["StockholdersEquity"; "Total Stockholder Equity";
                "Total Stockholders Equity"; "Total Shareholder Equity";
                "Total Equity Gross Minority Interest"; "Total Equity"]);
    ("currAssets", ["Total Current Assets"; "CurrentAssets"; "Current Assets"]);
    ("currLiab", ["CurrentLiabilities"; "Total Current Liabilities";
                  "Current Liabilities"])
  ].

Definition CF_FIELDS : gmap string (list string) :=
  list_to_map [
    ("opCF", ["Operating Cash Flow"; "OperatingCashFlow";
              "Total Cash From Operating Activities";
              "Net Cash Provided By Operating Activities"]);
    ("capex", ["CapitalExpenditure"; "Capital Expenditures"; "Capital Expenditure"])
  ].

Definition SYMBOL_MAP : list (string * string) := [
  ("AIXTRON", "AIXA.DE");
  ("Applied Materials", "AMAT");
  ("AJ", "2802.T");
  ("ASML", "ASML");
  ("Naura", "002371.SZ");
  ("TEL (Tokyo Electron)", "8035.T");
  ("KLA", "KLAC");
  ("CAMECA (AMTEK)", "AME");
  ("OSI Systems", "OSIS");
  ("Genes Tech", "8257.HK");
  ("Scientech", "3583.TW")
].

(** Left fold in the exception monad. *)
Fixpoint foldM {A B} (f : A -> B -> outcome A) (a : A) (l : list B) : outcome A :=
  match l with
  | [] => Ret a
  | x :: l' => a' ← f a x; foldM f a' l'
  end.

(** ** Decimal coercion and formatting *)

Section Primitives.

(** [decimal.Decimal] applied to a text: the finite value it denotes, or
    [None] where the constructor signals [InvalidOperation]. *)
Variable Decimal_of_str : string -> option Dec.Decimal.

(** [x in (None, "", "None")]. *)
Definition in_sentinels (x : cell) : bool :=
  match x with
  | Missing => true
  | Text s => bool_decide (s = "") || bool_decide (s = "None")
  | Num _ => false
  end.

(** [Decimal(str(x))]. *)
Definition Decimal_of (x : cell) : outcome Dec.Decimal :=
  match x with
  | Num q => Ret q
  | Text s =>
      match Decimal_of_str s with
      | Some q => Ret q
      | None => Raise InvalidOperation
      end
  | Missing => Raise InvalidOperation
  end.

Definition conversion_error (e : exn) : bool :=
  match e with
  | InvalidOperation | ValueError => true
  | _ => false
  end.

Definition _to_dec_safe (x : cell) : outcome (option Dec.Decimal) :=
  try_except
    (if in_sentinels x then Ret None
     else d ← Decimal_of x; Ret (Some d))
    conversion_error
    (fun _ => Ret None).

Definition _fmt (x : option Dec.Decimal) (nd : Z) : outcome (option float) :=
  match x with
  | None => Ret None
  | Some d => r ← Dec.quantize d nd; Ret (Some (Flt.of_rounded (Dec.is_neg d) r))
  end.

Definition _pct (x : option Dec.Decimal) : option Dec.Decimal :=
  match x with
  | None => None
  | Some d => Some (Dec.mul d Dec.hundred)
  end.

Definition _div (a b : option Dec.Decimal) : outcome (option Dec.Decimal) :=
  match a, b with
  | None, _ => Ret None
  | Some _, None => Ret None
  | Some x, Some y =>
      if Dec.eq_zero y then Ret None
      else q ← Dec.truediv x y; Ret (Some q)
  end.

End Primitives.

(** A stored metric: [None] or a float. *)
Definition stored (x : option float) : pyval :=
  match x with
  | None => VNone
  | Some f => VFloat f
  end.

(** ** Field resolver, period aligner and metric row builder *)

Section Builder.

Context {P : Type} `{Period P}.
Variable Decimal_of_str : string -> option Dec.Decimal.
(** [str(x)] of a float, used by the summary line only. *)
Variable float_repr : float -> string.

(** The series captured by the row loop, one per canonical metric. *)
Record Resolved : Type := {
  rev_s : option (gmap P cell);
  gp_s : option (gmap P cell);
  ni_s : option (gmap P cell);
  rd_s : option (gmap P cell);
  cash_s : option (gmap P cell);
  sdebt_s : option (gmap P cell);
  ldebt_s : option (gmap P cell);
  tliab_s : option (gmap P cell);
  equity_s : option (gmap P cell);
  ca_s : option (gmap P cell);
  cl_s : option (gmap P cell);
  ocf_s : option (gmap P cell);
  capex_s : option (gmap P cell)
}.

(** The raw decimals of one period. *)
Record Raw : Type := {
  totalRevenue : option Dec.Decimal;
  grossProfit : option Dec.Decimal;
  netIncome : option Dec.Decimal;
  rd_expense : option Dec.Decimal;
  cash : option Dec.Decimal;
  shortDebt : option Dec.Decimal;
  longDebt : option Dec.Decimal;
  totalLiab : option Dec.Decimal;
  equity : option Dec.Decimal;
  currAssets : option Dec.Decimal;
  currLiab : option Dec.Decimal;
  opCF : option Dec.Decimal;
  capex : option Dec.Decimal
}.

Fixpoint get_first (df : gmap string (gmap P cell)) (name_list : list string)
    : option (gmap P cell) :=
  match name_list with
  | [] => None
  | n :: rest =>
      match df !! n with
      | Some s => Some s
      | None => get_first df rest
      end
  end.

Definition resolve (inc_df bal_df cf_df : gmap string (gmap P cell)) : Resolved :=
  {| rev_s := get_first inc_df (INC_FIELDS !!! "revenue");
     gp_s := get_first inc_df (INC_FIELDS !!! "grossProfit");
     ni_s := get_first inc_df (INC_FIELDS !!! "netIncome");
     rd_s := get_first inc_df (INC_FIELDS !!! "rd");
     cash_s := get_first bal_df (BAL_FIELDS !!! "cash");
     sdebt_s := get_first bal_df (BAL_FIELDS !!! "shortDebt");
     ldebt_s := get_first bal_df (BAL_FIELDS !!! "longDebt");
     tliab_s := get_first bal_df (BAL_FIELDS !!! "totalLiab");
     equity_s := get_first bal_df (BAL_FIELDS !!! "equity");
     ca_s := get_first bal_df (BAL_FIELDS !!! "currAssets");
     cl_s := get_first bal_df (BAL_FIELDS !!! "currLiab");
     ocf_s := get_first cf_df (CF_FIELDS !!! "opCF");
     capex_s := get_first cf_df (CF_FIELDS !!! "capex") |}.

(** [cols]: the period labels a series is indexed by. *)
Definition cols (s : option (gmap P cell)) : list P :=
  match s with
  | Some s => elements (dom s)
  | None => []
  end.

Definition all_series (rs : Resolved) : list (option (gmap P cell)) :=
  [rev_s rs; gp_s rs; ni_s rs; rd_s rs;
   cash_s rs; sdebt_s rs; ldebt_s rs; tliab_s rs;
   equity_s rs; ca_s rs; cl_s rs;
   ocf_s rs; capex_s rs].

(** The order [sorted(..., reverse=True)] puts the labels in. *)
Definition period_ge : relation P := fun a b => ~ period_lt a b.

#[local] Instance period_ge_dec : RelDecision period_ge.
Proof. intros a b. unfold period_ge. apply _. Defined.

(** [sorted(set(itertools.chain(cols(...), ...)), reverse=True)]. *)
Definition aligned_dates (rs : Resolved) : list P :=
  merge_sort period_ge
    (elements (list_to_set (mjoin (cols <$> all_series rs)) : gset P)).

(** [val]: the value of a series at period [d]; missing and NaN give
    [None]. *)
Definition val (s : option (gmap P cell)) (d : P) : outcome (option Dec.Decimal) :=
  match s with
  | None => Ret None
  | Some s =>
      match s !! d with
      | None | Some Missing => Ret None
      | Some v => _to_dec_safe Decimal_of_str v
      end
  end.

Definition raw_values (rs : Resolved) (d : P) : outcome Raw :=
  totalRevenue ← val (rev_s rs) d;
  grossProfit ← val (gp_s rs) d;
  netIncome ← val (ni_s rs) d;
  rd_expense ← val (rd_s rs) d;
  cash ← val (cash_s rs) d;
  shortDebt ← val (sdebt_s rs) d;
  longDebt ← val (ldebt_s rs) d;
  totalLiab ← val (tliab_s rs) d;
  equity ← val (equity_s rs) d;
  currAssets ← val (ca_s rs) d;
  currLiab ← val (cl_s rs) d;
  opCF ← val (ocf_s rs) d;
  capex ← val (capex_s rs) d;
  Ret {| totalRevenue := totalRevenue; grossProfit := grossProfit;
         netIncome := netIncome; rd_expense := rd_expense; cash := cash;
         shortDebt := shortDebt; longDebt := longDebt; totalLiab := totalLiab;
         equity := equity; currAssets := currAssets; currLiab := currLiab;
         opCF := opCF; capex := capex |}.

(** [fcf = (opCF - capex) if None not in (opCF, capex) else None]. *)
Definition fcf (r : Raw) : option Dec.Decimal :=
  match opCF r, capex r with
  | Some o, Some c => Some (Dec.sub o c)
  | _, _ => None
  end.

(** [x or Decimal(0)]. *)
Definition or_zero (x : option Dec.Decimal) : Dec.Decimal :=
  match x with
  | Some q => if Dec.truthy q then q else Dec.zero
  | None => Dec.zero
  end.

Definition is_not_None {A} (x : option A) : bool :=
  match x with
  | Some _ => true
  | None => false
  end.

Definition totalDebt (r : Raw) : option Dec.Decimal :=
  if is_not_None (shortDebt r) || is_not_None (longDebt r)
  then Some (Dec.add (or_zero (shortDebt r)) (or_zero (longDebt r)))
  else None.

(** The [metrics] dictionary literal; its values are computed in the order
    written, so the first failing [_fmt] decides the exception. *)
Definition base_metrics (r : Raw) (ds : string) : outcome (gmap string pyval) :=
  v_totalRevenue ← _fmt (totalRevenue r) 2;
  v_grossProfit ← _fmt (grossProfit r) 2;
  v_netIncome ← _fmt (netIncome r) 2;
  q1 ← _div (grossProfit r) (totalRevenue r);
  v_grossMargin ← _fmt (_pct q1) 2;
  q2 ← _div (netIncome r) (totalRevenue r);
  v_netMargin ← _fmt (_pct q2) 2;
  v_opCF ← _fmt (opCF r) 2;
  v_capex ← _fmt (capex r) 2;
  v_fcf ← _fmt (fcf r) 2;
  v_cash ← _fmt (cash r) 2;
  v_shortDebt ← _fmt (shortDebt r) 2;
  v_longDebt ← _fmt (longDebt r) 2;
  v_totalDebt ←
    (if is_not_None (totalDebt r) then _fmt (totalDebt r) 2 else Ret None);
  v_totalLiab ← _fmt (totalLiab r) 2;
  v_equity ← _fmt (equity r) 2;
  v_currAssets ← _fmt (currAssets r) 2;
  v_currLiab ← _fmt (currLiab r) 2;
  q3 ← _div (totalLiab r) (equity r);
  v_debtToEquity ← _fmt q3 4;
  q4 ← _div (currAssets r) (currLiab r);
  v_currentRatio ← _fmt q4 4;
  q5 ← _div (cash r) (currLiab r);
  v_cashRatio ← _fmt q5 4;
  v_rd ← _fmt (rd_expense r) 2;
  q6 ← _div (rd_expense r) (totalRevenue r);
  v_rdIntensity ← _fmt (_pct q6) 2;
  q7 ← _div (capex r) (totalRevenue r);
  v_capexToRevenue ← _fmt (_pct q7) 2;
  Ret (list_to_map [
    ("fiscalDate", VStr ds);
    ("totalRevenue", stored v_totalRevenue);
    ("grossProfit", stored v_grossProfit);
    ("netIncome", stored v_netIncome);
    ("grossMargin_pct", stored v_grossMargin);
    ("netMargin_pct", stored v_netMargin);
    ("operatingCashflow", stored v_opCF);
    ("capitalExpenditures", stored v_capex);
    ("freeCashFlow", stored v_fcf);
    ("cashAndCashEquivalents", stored v_cash);
    ("shortTermDebt", stored v_shortDebt);
    ("longTermDebt", stored v_longDebt);
    ("totalDebt", stored v_totalDebt);
    ("totalLiabilities", stored v_totalLiab);
    ("totalShareholderEquity", stored v_equity);
    ("totalCurrentAssets", stored v_currAssets);
    ("totalCurrentLiabilities", stored v_currLiab);
    ("debtToEquity", stored v_debtToEquity);
    ("currentRatio", stored v_currentRatio);
    ("cashRatio", stored v_cashRatio);
    ("researchAndDevelopment", stored v_rd);
    ("rdIntensity_pct", stored v_rdIntensity);
    ("capexToRevenue_pct", stored v_capexToRevenue)
  ]).

Definition show (x : option float) : string :=
  match x with
  | None => "None"
  | Some f => float_repr f
  end.

(** The one-line summary (an f-string over four formatted values). *)
Definition summary_line (company freq_label ds : string) (r : Raw) : outcome string :=
  s_rev ← _fmt (totalRevenue r) 2;
  s_ni ← _fmt (netIncome r) 2;
  q1 ← _div (grossProfit r) (totalRevenue r);
  s_gm ← _fmt (_pct q1) 2;
  q2 ← _div (netIncome r) (totalRevenue r);
  s_nm ← _fmt (_pct q2) 2;
  Ret (company +:+ " " +:+ freq_label +:+ " " +:+ ds +:+ ": Rev=" +:+ show s_rev
       +:+ ", NI=" +:+ show s_ni +:+ ", GM%=" +:+ show s_gm
       +:+ ", NM%=" +:+ show s_nm).

(** [(m.get(k) is not None) and (m[k] < c)], and the same with [>]; an
    operand that is neither [None] nor a number is a [TypeError]. *)
Definition lt_const (v : pyval) (c : float) : outcome bool :=
  match v with
  | VNone => Ret false
  | VFloat f => Ret (PrimFloat.ltb f c)
  | _ => Raise TypeError
  end.

Definition gt_const (v : pyval) (c : float) : outcome bool :=
  match v with
  | VNone => Ret false
  | VFloat f => Ret (PrimFloat.ltb c f)
  | _ => Raise TypeError
  end.

Definition append_if (b : bool) (name : string) (flags : list string) : list string :=
  if b then flags ++ [name] else flags.

(** The quick flags, computed from the metrics mapping just built. *)
Definition distress_flags (m : gmap string pyval) : outcome (list string) :=
  b1 ← lt_const (py_get m "currentRatio") 1;
  let flags := append_if b1 "current_ratio_lt_1" [] in
  b2 ← lt_const (py_get m "freeCashFlow") 0;
  let flags := append_if b2 "negative_fcf" flags in
  b3 ← gt_const (py_get m "debtToEquity") 2;
  let flags := append_if b3 "high_debt_to_equity" flags in
  Ret flags.

(** One iteration of the row loop. *)
Definition build_row (company symbol freq_label : string) (rs : Resolved) (d : P)
    : outcome Row :=
  r ← raw_values rs d;
  let ds := period_str d in
  m ← base_metrics r ds;
  text ← summary_line company freq_label ds r;
  flags ← distress_flags m;
  Ret {| company := company; symbol := symbol; freq := freq_label;
         fiscalDate := ds;
         metrics := <["distressFlags" := VList flags]> m;
         summary := text; source := "YahooFinance" |}.

(** ** Growth calculator *)

Definition is_number (v : pyval) : bool :=
  match v with
  | VFloat _ => true
  | _ => false
  end.

(** [bool(v)]. *)
Definition py_truthy (v : pyval) : bool :=
  match v with
  | VNone => false
  | VFloat f => Flt.truthy f
  | VStr s => negb (bool_decide (s = ""))
  | VList l => negb (bool_decide (l = []))
  end.

(** [round((cv - pv) / pv * 100, 2)]. *)
Definition growth_pct (cv pv : float) : outcome float :=
  q ← Flt.truediv (PrimFloat.sub cv pv) pv;
  Ret (Flt.round (PrimFloat.mul q 100) 2).

(** The body of [for k in ("totalRevenue", "netIncome")]: the growth key is
    written only when both values are numbers and the previous one is
    truthy. *)
Definition add_growth (suffix : string) (prev_m : gmap string pyval)
    (m : gmap string pyval) (k : string) : outcome (gmap string pyval) :=
  let cv := py_get m k in
  let pv := py_get prev_m k in
  if is_number cv && is_number pv && py_truthy pv then
    match cv, pv with
    | VFloat c, VFloat p =>
        g ← growth_pct c p; Ret (<[k +:+ suffix := VFloat g]> m)
    | _, _ => Raise TypeError
    end
  else Ret m.

Definition growth_keys : list string := ["totalRevenue"; "netIncome"].

(** [by_date = {r["fiscalDate"]: r for r in out}]: the rows are shared
    objects, so the dictionary holds references, here positions in [out];
    a later row replaces an earlier one under the same key. *)
Fixpoint index_by_date (i : nat) (out : list Row) (acc : gmap string nat)
    : gmap string nat :=
  match out with
  | [] => acc
  | r :: rest => index_by_date (S i) rest (<[fiscalDate r := i]> acc)
  end.

(** The key of the row one year earlier:
    [str(int(ds[:4]) - 1) + "-" + ds[5:]]. *)
Definition yoy_key (ds : string) : outcome string :=
  y ← py_int (str_take 4 ds);
  Ret (py_str_int (y - 1) +:+ "-" +:+ str_drop 5 ds).

(** One iteration of [for i, row in enumerate(out)]: the metrics of row [i]
    are updated in place, first quarter over quarter, then year over year
    inside [try: ... except: pass]. *)
Definition growth_step (by_date : gmap string nat) (i : nat) (out : list Row)
    : outcome (list Row) :=
  match out !! i with
  | None => Ret out
  | Some row =>
      m1 ←
        (if bool_decide (i + 1 < length out) then
           match out !! (i + 1) with
           | Some prev =>
               foldM (add_growth "_QoQ_growth_pct" (metrics prev))
                 (metrics row) growth_keys
           | None => Ret (metrics row)
           end
         else Ret (metrics row));
      let out1 := <[i := set_metrics row m1]> out in
      m2 ←
        try_except
          (key ← yoy_key (fiscalDate row);
           match by_date !! key ≫= (fun j => out1 !! j) with
           | Some prev_y =>
               foldM (add_growth "_YoY_growth_pct" (metrics prev_y))
                 m1 growth_keys
           | None => Ret m1
           end)
          (fun _ => true)
          (fun _ => Ret m1);
      Ret (<[i := set_metrics row m2]> out1)
  end.

Fixpoint growth_loop (by_date : gmap string nat) (n i : nat) (out : list Row)
    : outcome (list Row) :=
  match n with
  | O => Ret out
  | S n' => out1 ← growth_step by_date i out; growth_loop by_date n' (S i) out1
  end.

Definition growth_pass (out : list Row) : outcome (list Row) :=
  growth_loop (index_by_date 0 out ∅) (length out) 0 out.

Definition build_rows_from_dfs (company symbol : string)
    (inc_df bal_df cf_df : gmap string (gmap P cell)) (freq_label : string)
    : outcome (list Row) :=
  let rs := resolve inc_df bal_df cf_df in
  let dates := aligned_dates rs in
  out ← mapM (build_row company symbol freq_label rs) dates;
  growth_pass out.

End Builder.

(** ** Orchestrator *)

(** What a run does to the outside world, in order. *)
Inductive event : Type :=
| Print (line : string)
| Sleep
| WriteOutputs (records : list Row).

(** A computation that may log events and may raise; the events logged
    before an exception stay logged. *)
Definition io (A : Type) : Type := list event -> outcome A * list event.

Definition io_ret {A} (a : A) : io A := fun tr => (Ret a, tr).

Definition io_bind {A B} (m : io A) (f : A -> io B) : io B := fun tr =>
  match m tr with
  | (Ret a, tr') => f a tr'
  | (Raise e, tr') => (Raise e, tr')
  end.

Definition emit (e : event) : io unit := fun tr => (Ret tt, tr ++ [e]).

Definition lift {A} (m : outcome A) : io A := fun tr => (m, tr).

(** [try: body except Exception as e: handler(e)]. *)
Definition io_try {A} (body : io A) (handler : exn -> io A) : io A := fun tr =>
  match body tr with
  | (Ret a, tr') => (Ret a, tr')
  | (Raise e, tr') => handler e tr'
  end.

#[global] Instance io_mret : MRet io := @io_ret.
#[global] Instance io_mbind : MBind io := fun A B f m => io_bind m f.

Section Orchestrator.

Context {P : Type} `{Period P}.
Variable Decimal_of_str : string -> option Dec.Decimal.
Variable float_repr : float -> string.

(** The six statement tables of one ticker. *)
Record Statements : Type := {
  financials : gmap string (gmap P cell);
  balance_sheet : gmap string (gmap P cell);
  cashflow : gmap string (gmap P cell);
  quarterly_financials : gmap string (gmap P cell);
  quarterly_balance_sheet : gmap string (gmap P cell);
  quarterly_cashflow : gmap string (gmap P cell)
}.

(** The data source: [yf.Ticker(symbol)] with its six tables, or the
    exception that fetching them raises. *)
Variable Ticker : string -> outcome Statements.

Definition fetch_yahoo_financials (company symbol : string) : io (list Row) :=
  if bool_decide (symbol = "") then
    _ ← emit (Print ("[warn] No symbol for " +:+ company));
    mret []
  else
    t ← lift (Ticker symbol);
    recs_q ← lift (build_rows_from_dfs Decimal_of_str float_repr company symbol
                     (quarterly_financials t) (quarterly_balance_sheet t)
                     (quarterly_cashflow t) "Quarter");
    recs_a ← lift (build_rows_from_dfs Decimal_of_str float_repr company symbol
                     (financials t) (balance_sheet t) (cashflow t) "Annual");
    mret (recs_q ++ recs_a).

(** Both output files are written from the same list of records. *)
Definition write_outputs (records : list Row) : io unit :=
  _ ← emit (WriteOutputs records);
  _ ← emit (Print "Wrote:");
  _ ← emit (Print "- data/yahoo_finance.jsonl");
  emit (Print "- data/yahoo_finance.csv").

(** The body of [for company, symbol in SYMBOL_MAP.items()].  The warning
    names the exception's class; its message text is not modelled. *)
Definition main_step (all_records : list Row) (entry : string * string)
    : io (list Row) :=
  let '(company, symbol) := entry in
  _ ← emit (Print ("[Yahoo] " +:+ company +:+ " → " +:+ symbol));
  all_records' ←
    io_try
      (recs ← fetch_yahoo_financials company symbol;
       _ ← (if bool_decide (recs = [])
            then emit (Print ("[info] No financials returned for " +:+ company
                              +:+ " (" +:+ symbol +:+ ")"))
            else mret tt);
       mret (all_records ++ recs))
      (fun e =>
         _ ← emit (Print ("[warn] " +:+ company +:+ " (" +:+ symbol
                          +:+ ") failed: " +:+ exn_name e));
         mret all_records);
  _ ← emit Sleep;
  mret all_records'.

Fixpoint main_loop (all_records : list Row) (entries : list (string * string))
    : io (list Row) :=
  match entries with
  | [] => mret all_records
  | entry :: rest =>
      all_records' ← main_step all_records entry;
      main_loop all_records' rest
  end.

(** [main], for any company-to-symbol mapping. *)
Definition main_over (symbol_map : list (string * string)) : io unit :=
  all_records ← main_loop [] symbol_map;
  write_outputs all_records.

Definition main : io unit := main_over SYMBOL_MAP.

End Orchestrator.

(** ** Two kinds of period labels *)

(** An order read through an injective key is strict and total when the
    key's lexicographic order is. *)
Section lexico_pullback.
Context {A K : Type} `{Lexico K} `{!StrictOrder (@lexico K _)}
  `{!Trichotomy (@lexico K _)} (key : A -> K) `{!Inj (=) (=) key}.

Lemma lexico_pullback_strict : StrictOrder (fun a b => lexico (key a) (key b)).
Proof.
  split.
  - intros a Ha. exact (irreflexivity lexico (key a) Ha).
  - intros a b c Hab Hbc. exact (transitivity (R := lexico) Hab Hbc).
Qed.

Lemma lexico_pullback_trichotomy : Trichotomy (fun a b => lexico (key a) (key b)).
Proof.
  intros a b.
  destruct (trichotomy lexico (key a) (key b)) as [Hlt | [Heq | Hgt]].
  - by left.
  - right; left. by apply (inj key).
  - by right; right.
Qed.

End lexico_pullback.

(** Calendar dates, as the timestamps of the statement tables: ordered by
    year, month, day, and printed as [YYYY-MM-DD]. *)
Record Timestamp : Type := Date { year : N; month : N; day : N }.

Definition Timestamp_key (d : Timestamp) : N * (N * N) :=
  (year d, (month d, day d)).

Definition Timestamp_of_key (k : N * (N * N)) : Timestamp :=
  Date k.1 k.2.1 k.2.2.

#[global] Instance Timestamp_eq_dec : EqDecision Timestamp.
Proof. solve_decision. Defined.

#[global] Instance Timestamp_countable : Countable Timestamp.
Proof.
  apply (inj_countable' Timestamp_key Timestamp_of_key).
  intros [y m d]. reflexivity.
Defined.

(** [s.rjust(width, "0")]. *)
Definition zfill (width : nat) (s : string) : string :=
  string_of_list_ascii (replicate (width - String.length s) "0"%char) +:+ s.

(** [str(d.date())]. *)
Definition isoformat (d : Timestamp) : string :=
  zfill 4 (pretty (year d)) +:+ "-" +:+ zfill 2 (pretty (month d))
  +:+ "-" +:+ zfill 2 (pretty (day d)).

#[global] Instance Timestamp_key_inj : Inj (=) (=) Timestamp_key.
Proof. intros [y1 m1 d1] [y2 m2 d2] Heq. by inversion Heq. Qed.

#[global] Program Instance Timestamp_period : Period Timestamp := {|
  period_lt a b := lexico (Timestamp_key a) (Timestamp_key b);
  period_str := isoformat
|}.
Next Obligation. intros a b. apply _. Defined.
Next Obligation. apply (lexico_pullback_strict Timestamp_key). Qed.
Next Obligation. apply (lexico_pullback_trichotomy Timestamp_key). Qed.

(** Text labels, compared character by character and printed as they are. *)
Definition codes (s : string) : list N := N_of_ascii <$> list_ascii_of_string s.

#[global] Instance codes_inj : Inj (=) (=) codes.
Proof.
  intros s1 s2 Heq. unfold codes in Heq.
  rewrite <- (string_of_list_ascii_of_string s1),
          <- (string_of_list_ascii_of_string s2).
  f_equal. revert Heq. generalize (list_ascii_of_string s1) as l1.
  generalize (list_ascii_of_string s2) as l2.
  intros l2 l1. revert l2. induction l1 as [| c1 l1 IH]; intros [| c2 l2] Heq;
    simplify_eq/=; try done.
  f_equal; [| by apply IH].
  rewrite <- (ascii_N_embedding c1), <- (ascii_N_embedding c2). congruence.
Qed.

#[global] Program Instance string_period : Period string := {|
  period_lt a b := lexico (codes a) (codes b);
  period_str s := s
|}.
Next Obligation. intros a b. apply _. Defined.
Next Obligation. apply (lexico_pullback_strict codes). Qed.
Next Obligation. apply (lexico_pullback_trichotomy codes). Qed.

(** ** The rows of the CSV table *)

(** One element of [flat_rows]: the columns of the CSV table, in the order
    of the dictionary literal. *)
Module Flat.

Record row : Type := {
  symbol : string;
  frequency : string;
  fiscalDate : string;
  revenue : pyval;
  grossProfit : pyval;
  netIncome : pyval;
  grossMargin_pct : pyval;
  netMargin_pct : pyval;
  revenue_QoQ_growth_pct : pyval;
  revenue_YoY_growth_pct : pyval;
  netIncome_QoQ_growth_pct : pyval;
  netIncome_YoY_growth_pct : pyval;
  operatingCashflow : pyval;
  freeCashFlow : pyval;
  debtToEquity : pyval;
  currentRatio : pyval;
  cashRatio : pyval;
  researchAndDevelopment : pyval;
  rdIntensity_pct : pyval;
  capexToRevenue_pct : pyval;
  source : string
}.

End Flat.

(** The body of the loop that fills [flat_rows]; a metric that is absent
    reads as [None]. *)
Definition flat_row (rec : Row) : Flat.row :=
  let m := metrics rec in
  {| Flat.symbol := symbol rec;
     Flat.frequency := freq rec;
     Flat.fiscalDate := fiscalDate rec;
     Flat.revenue := py_get m "totalRevenue";
     Flat.grossProfit := py_get m "grossProfit";
     Flat.netIncome := py_get m "netIncome";
     Flat.grossMargin_pct := py_get m "grossMargin_pct";
     Flat.netMargin_pct := py_get m "netMargin_pct";
     Flat.revenue_QoQ_growth_pct := py_get m "totalRevenue_QoQ_growth_pct";
     Flat.revenue_YoY_growth_pct := py_get m "totalRevenue_YoY_growth_pct";
     Flat.netIncome_QoQ_growth_pct := py_get m "netIncome_QoQ_growth_pct";
     Flat.netIncome_YoY_growth_pct := py_get m "netIncome_YoY_growth_pct";
     Flat.operatingCashflow := py_get m "operatingCashflow";
     Flat.freeCashFlow := py_get m "freeCashFlow";
     Flat.debtToEquity := py_get m "debtToEquity";
     Flat.currentRatio := py_get m "currentRatio";
     Flat.cashRatio := py_get m "cashRatio";
     Flat.researchAndDevelopment := py_get m "researchAndDevelopment";
     Flat.rdIntensity_pct := py_get m "rdIntensity_pct";
     Flat.capexToRevenue_pct := py_get m "capexToRevenue_pct";
     Flat.source := "YahooFinance" |}.

(** The order of texts: character by character, by code. *)
Definition str_lt (a b : string) : Prop := lexico (codes a) (codes b).

(** The sort keys [["symbol", "frequency", "fiscalDate"]] with
    [ascending=[True, True, False]]: [a] sorts strictly before [b]. *)
Definition sorts_before (a b : Flat.row) : Prop :=
  str_lt (Flat.symbol a) (Flat.symbol b) \/
  (Flat.symbol a = Flat.symbol b /\
   (str_lt (Flat.frequency a) (Flat.frequency b) \/
    (Flat.frequency a = Flat.frequency b /\
     str_lt (Flat.fiscalDate b) (Flat.fiscalDate a)))).

#[global] Instance str_lt_dec : RelDecision str_lt.
Proof. intros a b. unfold str_lt. apply _. Defined.

#[global] Instance sorts_before_dec : RelDecision sorts_before.
Proof. intros a b. unfold sorts_before. apply _. Defined.

(** A stable sort, as [sort_values] is on several keys: a row moves in
    front of the rows that sort strictly after it, never past a row with
    the same keys. *)
Fixpoint insert_row (x : Flat.row) (sorted : list Flat.row) : list Flat.row :=
  match sorted with
  | [] => [x]
  | y :: rest =>
      if decide (sorts_before y x) then y :: insert_row x rest
      else x :: y :: rest
  end.

Definition sort_values (rows : list Flat.row) : list Flat.row :=
  foldr insert_row [] rows.

(** The table written to the CSV file: the flat rows, sorted unless there
    is none. *)
Definition csv_rows (records : list Row) : list Flat.row :=
  let flat_rows := flat_row <$> records in
  match flat_rows with
  | [] => flat_rows
  | _ :: _ => sort_values flat_rows
  end.

(** * Vocabulary of the properties *)

(** ** Ratios, sums and comparisons *)


(** A metric of a row is null when the key holds [None], and a number when
    it holds a float; an absent key is neither. *)
Definition is_null (row : Row) (k : string) : Prop :=
  metrics row !! k = Some VNone.



(** A stored value compared with a constant: false for [None]. *)
Definition below (v : pyval) (c : float) : bool :=
  match v with
  | VFloat f => PrimFloat.ltb f c
  | _ => false
  end.

Definition above (v : pyval) (c : float) : bool :=
  match v with
  | VFloat f => PrimFloat.ltb c f
  | _ => false
  end.

(** The names the growth calculator may add, and the flags key. *)
Definition growth_fields : list string :=
  ["totalRevenue_QoQ_growth_pct"; "netIncome_QoQ_growth_pct";
   "totalRevenue_YoY_growth_pct"; "netIncome_YoY_growth_pct"].

(** The raw input behind one of the two growth keys. *)
Definition raw_input (k : string) (r : Raw) : option Dec.Decimal :=
  if bool_decide (k = "totalRevenue") then totalRevenue r else netIncome r.

(** ** The growth calculator in closed form *)

(** The growth figure the two loops compute from two stored values: present
    when both are numbers and the previous one is not zero. *)
Definition growth_value (cv pv : pyval) : option float :=
  match cv, pv with
  | VFloat c, VFloat p =>
      if Flt.truthy p
      then Some (Flt.round (PrimFloat.mul (PrimFloat.div (PrimFloat.sub c p) p) 100) 2)
      else None
  | _, _ => None
  end.

Definition put_growth (suffix : string) (prev_m m : gmap string pyval)
    (k : string) : gmap string pyval :=
  match growth_value (py_get m k) (py_get prev_m k) with
  | Some g => <[k +:+ suffix := VFloat g]> m
  | None => m
  end.

(** Both keys, in the order of the loop. *)
Definition grow (suffix : string) (prev_m m : gmap string pyval)
    : gmap string pyval :=
  put_growth suffix prev_m (put_growth suffix prev_m m "totalRevenue") "netIncome".

(** The quarter-over-quarter part of one iteration, read off the list [out]. *)
Definition qoq_part (out : list Row) (i : nat) (row : Row) : gmap string pyval :=
  match out !! (i + 1) with
  | Some prev => grow "_QoQ_growth_pct" (metrics prev) (metrics row)
  | None => metrics row
  end.

(** The year-over-year part. *)
Definition yoy_part (by_date : gmap string nat) (out : list Row) (row : Row)
    (m1 : gmap string pyval) : gmap string pyval :=
  match yoy_key (fiscalDate row) with
  | Ret key =>
      match by_date !! key ≫= (fun j => out !! j) with
      | Some prev_y => grow "_YoY_growth_pct" (metrics prev_y) m1
      | None => m1
      end
  | Raise _ => m1
  end.

(** Row [i] after its iteration, in terms of the rows as first built. *)
Definition grown (by_date : gmap string nat) (orig : list Row) (i : nat)
    (row : Row) : Row :=
  set_metrics row (yoy_part by_date orig row (qoq_part orig i row)).

(** The list after the first [i] iterations. *)
Definition stage (by_date : gmap string nat) (orig : list Row) (i : nat)
    : list Row :=
  imap (fun j r => if decide (j < i) then grown by_date orig j r else r) orig.

(** Rows that agree on what the growth loops read from a previous row. *)
Definition base_eq (r r' : Row) : Prop :=
  forall k, k ∈ growth_keys -> py_get (metrics r') k = py_get (metrics r) k.

(** The position of the last row dated [key]. *)
Fixpoint last_dated (key : string) (out : list Row) : option nat :=
  match out with
  | [] => None
  | r :: rest =>
      match last_dated key rest with
      | Some p => Some (S p)
      | None => if bool_decide (fiscalDate r = key) then Some 0 else None
      end
  end.




(** ** Built rows *)

Section BuiltRows.

Context {P : Type} `{Period P}.
Variable Decimal_of_str : string -> option Dec.Decimal.

(** What is known of the row at position [i]. *)
Record built (cname sym freq_label : string) (rs : Resolved) (orig : list Row)
    (i : nat) (row : Row) (d : P) (r : Raw) (m : gmap string pyval)
    (flags : list string) (row0 : Row) : Prop := {
  built_date : aligned_dates rs !! i = Some d;
  built_raw : raw_values Decimal_of_str rs d = Ret r;
  built_metrics : base_metrics r (period_str d) = Ret m;
  built_flags : distress_flags m = Ret flags;
  built_orig : orig !! i = Some row0;
  built_row0 : metrics row0 = <["distressFlags" := VList flags]> m;
  built_fiscalDate : fiscalDate row0 = period_str d;
  built_grown : row = grown (index_by_date 0 orig ∅) orig i row0
}.

End BuiltRows.

(** ** The unit of the last digit kept *)

(** The unit of the 28th significant digit of a value. *)
Definition ulp28 (q : Q) : Q := Dec.pow10 (Dec.adjusted (Qred q) - (Dec.prec - 1)).

(** ** What one company contributes to a run *)

Section Contribution.

Context {P : Type} `{Period P}.
Variable Decimal_of_str : string -> option Dec.Decimal.
Variable float_repr : float -> string.
Variable Ticker : string -> outcome (Statements (P := P)).

(** The rows one company adds to the aggregate: none without a symbol, none
    when fetching or building raises, otherwise its quarterly rows followed
    by its annual rows. *)
Definition contribution (entry : string * string) : list Row :=
  let '(cname, sym) := entry in
  if bool_decide (sym = "") then []
  else
    match Ticker sym with
    | Raise _ => []
    | Ret t =>
        match
          build_rows_from_dfs Decimal_of_str float_repr cname sym
            (quarterly_financials t) (quarterly_balance_sheet t)
            (quarterly_cashflow t) "Quarter",
          build_rows_from_dfs Decimal_of_str float_repr cname sym
            (financials t) (balance_sheet t) (cashflow t) "Annual"
        with
        | Ret recs_q, Ret recs_a => recs_q ++ recs_a
        | _, _ => []
        end
    end.

End Contribution.

(** ** The keys of a row's metrics *)

(** The keys of the [metrics] literal that hold a number or null, in the
    order written. *)
Definition numeric_keys : list string :=
  ["totalRevenue"; "grossProfit"; "netIncome"; "grossMargin_pct"; "netMargin_pct";
   "operatingCashflow"; "capitalExpenditures"; "freeCashFlow";
   "cashAndCashEquivalents"; "shortTermDebt"; "longTermDebt"; "totalDebt";
   "totalLiabilities"; "totalShareholderEquity"; "totalCurrentAssets";
   "totalCurrentLiabilities"; "debtToEquity"; "currentRatio"; "cashRatio";
   "researchAndDevelopment"; "rdIntensity_pct"; "capexToRevenue_pct"].

(** The keys stored as [_fmt(raw, 2)] of one raw value, with that value. *)
Definition plain_fields : list (string * (Raw -> option Dec.Decimal)) :=
  [("totalRevenue", totalRevenue); ("grossProfit", grossProfit);
   ("netIncome", netIncome); ("operatingCashflow", opCF);
   ("capitalExpenditures", capex); ("cashAndCashEquivalents", cash);
   ("shortTermDebt", shortDebt); ("longTermDebt", longDebt);
   ("totalLiabilities", totalLiab); ("totalShareholderEquity", equity);
   ("totalCurrentAssets", currAssets); ("totalCurrentLiabilities", currLiab);
   ("researchAndDevelopment", rd_expense)].

(** The flags in the order the builder tests them. *)
Definition flag_names : list string :=
  ["current_ratio_lt_1"; "negative_fcf"; "high_debt_to_equity"].

Section RawSources.

Context {P : Type} `{Period P}.

(** The series each raw value is read from, in the order of the row loop. *)
Definition raw_sources
    : list ((Resolved -> option (gmap P cell)) * (Raw -> option Dec.Decimal)) :=
  [(rev_s, totalRevenue); (gp_s, grossProfit); (ni_s, netIncome);
   (rd_s, rd_expense); (cash_s, cash); (sdebt_s, shortDebt);
   (ldebt_s, longDebt); (tliab_s, totalLiab); (equity_s, equity);
   (ca_s, currAssets); (cl_s, currLiab); (ocf_s, opCF); (capex_s, capex)].

Variable Decimal_of_str : string -> option Dec.Decimal.

(** A cell that gives the decimal [q]: a number, or a text that is none of
    the sentinels and reads as [q]. *)
Definition cell_holds (c : cell) (q : Dec.Decimal) : Prop :=
  c = Num q \/
  exists t, c = Text t /\ t <> "" /\ t <> "None" /\ Decimal_of_str t = Some q.

End RawSources.

(** ** Values away from the digit limit *)

(** A value that is zero or of magnitude between 1 and [10^22]. *)
Definition moderate (q : Q) : Prop :=
  ((q == 0)%Q \/ (1 <= Qabs q)%Q) /\ (Qabs q <= inject_Z (10 ^ 22))%Q.

(** An optional value of magnitude at most [B]. *)
Definition within (B : Q) (x : option Dec.Decimal) : Prop :=
  forall q, x = Some q -> (Qabs q <= B)%Q.

(** ** The ratio metrics *)

(** The keys stored as [_fmt(_pct(_div(num, den)), 2)], with numerator and
    denominator. *)
Definition pct_ratios
    : list (string * (Raw -> option Dec.Decimal) * (Raw -> option Dec.Decimal)) :=
  [("grossMargin_pct", grossProfit, totalRevenue);
   ("netMargin_pct", netIncome, totalRevenue);
   ("rdIntensity_pct", rd_expense, totalRevenue);
   ("capexToRevenue_pct", capex, totalRevenue)].

(** The keys stored as [_fmt(_div(num, den), 4)]. *)
Definition plain_ratios
    : list (string * (Raw -> option Dec.Decimal) * (Raw -> option Dec.Decimal)) :=
  [("debtToEquity", totalLiab, equity);
   ("currentRatio", currAssets, currLiab);
   ("cashRatio", cash, currLiab)].

(** Rows with the same period text and the same metrics. *)
Definition same_figures (r r' : Row) : Prop :=
  fiscalDate r = fiscalDate r' /\ metrics r = metrics r'.

(** ** Calendar dates *)

(** A date whose text has the shape [YYYY-MM-DD]: a year of four digits,
    month and day of at most two. *)
Definition four_digit_year (d : Timestamp) : Prop :=
  (1000 <= year d <= 9999)%N /\ (month d < 100)%N /\ (day d < 100)%N.


(** ** The order of the CSV table *)

(** The three sort keys of a row. *)
Definition sort_key (a : Flat.row) : string * string * string :=
  (Flat.symbol a, Flat.frequency a, Flat.fiscalDate a).

(** ** What a run prints *)


Section RunLog.

Context {P : Type} `{Period P}.
Variable Decimal_of_str : string -> option Dec.Decimal.
Variable float_repr : float -> string.
Variable Ticker : string -> outcome (Statements (P := P)).



End RunLog.

(** * Worked example: the data *)

(** A reader of plain numerals ([-12.50], [7]), standing in for
    [decimal.Decimal] on text cells in the examples. *)
Fixpoint all_digits (acc : Z) (s : list ascii) : option Z :=
  match s with
  | [] => Some acc
  | c :: s' =>
      match digit_of c with
      | Some d => all_digits (10 * acc + d)%Z s'
      | None => None
      end
  end.

Definition split_at_dot (s : list ascii) : list ascii * option (list ascii) :=
  let fix go (pre : list ascii) (s : list ascii) :=
    match s with
    | [] => (reverse pre, None)
    | c :: s' => if (N_of_ascii c =? 46)%N then (reverse pre, Some s') else go (c :: pre) s'
    end in
  go [] s.

Definition plain_numeral (s : string) : option Dec.Decimal :=
  let cs := list_ascii_of_string s in
  let '(neg, body) :=
    match cs with
    | c :: r => if (N_of_ascii c =? 45)%N then (true, r) else (false, cs)
    | [] => (false, cs)
    end in
  let '(ip, fp) := split_at_dot body in
  let fp := default [] fp in
  match ip, all_digits 0 (ip ++ fp) with
  | _ :: _, Some n =>
      let v := (inject_Z n / Dec.pow10 (Z.of_nat (length fp)))%Q in
      Some (Qred (if neg then - v else v)%Q)
  | _, _ => None
  end.

(** The summary line is not inspected; floats print as a placeholder. *)
Definition no_repr (f : float) : string := "<float>".

Definition Q1_2024 : Timestamp := Date 2024 3 31.
Definition Q4_2023 : Timestamp := Date 2023 12 31.
Definition Q1_2023 : Timestamp := Date 2023 3 31.

Definition ex_income : gmap string (gmap Timestamp cell) :=
  {[ "Total Revenue" :=
       {[ Q1_2024 := Num 110%Q; Q4_2023 := Num 100%Q; Q1_2023 := Text "100.4" ]};
     "Gross Profit" :=
       {[ Q1_2024 := Num 44%Q; Q4_2023 := Missing; Q1_2023 := Text "n/a" ]};
     "NetIncome" := {[ Q1_2024 := Num 11%Q; Q4_2023 := Num (-5)%Q ]} ]}.

Definition ex_balance : gmap string (gmap Timestamp cell) :=
  {[ "CurrentAssets" := {[ Q1_2024 := Num 80%Q ]};
     "CurrentLiabilities" := {[ Q1_2024 := Num 100%Q; Q4_2023 := Num 0%Q ]};
     "Long Term Debt" := {[ Q1_2024 := Num 7%Q ]} ]}.

Definition ex_cashflow : gmap string (gmap Timestamp cell) :=
  {[ "OperatingCashFlow" := {[ Q1_2024 := Num 50%Q ]};
     "CapitalExpenditure" := {[ Q1_2024 := Num 70%Q ]} ]}.

Definition rows_of (m : outcome (list Row)) : list Row :=
  match m with
  | Ret rows => rows
  | Raise _ => []
  end.

Definition empty_row : Row :=
  {| company := ""; symbol := ""; freq := ""; fiscalDate := ""; metrics := ∅;
     summary := ""; source := "" |}.

Definition ex_rows : list Row :=
  rows_of (build_rows_from_dfs plain_numeral no_repr "ACME" "ACM"
             ex_income ex_balance ex_cashflow "Quarter").

Definition ex_row (i : nat) : Row := default empty_row (ex_rows !! i).

(** Revenue that differs only in the third decimal. *)
Definition ex_income_fine : gmap string (gmap Timestamp cell) :=
  {[ "Total Revenue" := {[ Q1_2024 := Num (1004 # 1000)%Q; Q4_2023 := Num 1%Q ]} ]}.


Definition ex_rows_fine : list Row :=
  rows_of (build_rows_from_dfs plain_numeral no_repr "ACME" "ACM"
             ex_income_fine ∅ ∅ "Quarter").


(** The income table with one more row, under a label no alias names. *)
Definition ex_income_extra : gmap string (gmap Timestamp cell) :=
  <["EBITDA" := {[ Q1_2024 := Num 5%Q ]}]> ex_income.

(** A data source that answers every symbol with the example tables, as
    quarterly and as annual statements. *)
Definition ex_ticker (sym : string) : outcome (Statements (P := Timestamp)) :=
  Ret {| financials := ex_income; balance_sheet := ex_balance;
         cashflow := ex_cashflow; quarterly_financials := ex_income;
         quarterly_balance_sheet := ex_balance;
         quarterly_cashflow := ex_cashflow |}.

Definition ex_rows_annual : list Row :=
  rows_of (build_rows_from_dfs plain_numeral no_repr "ACME" "ACM"
             ex_income ex_balance ex_cashflow "Annual").

Definition ex_records : list Row := ex_rows ++ ex_rows_annual.

(** A table with a single figure. *)
Definition ex_income_single : gmap string (gmap Timestamp cell) :=
  {[ "Revenue" := {[ Q1_2024 := Text "1250.5" ]} ]}.

(** * Properties *)

(** ** The exception monad *)

Lemma Ret_bind {A B} (a : A) (f : A -> outcome B) : Ret a ≫= f = f a.
Proof. reflexivity. Qed.

Lemma Raise_bind {A B} (e : exn) (f : A -> outcome B) : Raise e ≫= f = Raise e.
Proof. reflexivity. Qed.

Lemma bind_Ret {A B} (m : outcome A) (f : A -> outcome B) (b : B) :
  m ≫= f = Ret b <-> exists a, m = Ret a /\ f a = Ret b.
Proof.
  destruct m as [a | e]; simpl; split.
  - intros Hf. by exists a.
  - by intros (a' & [= <-] & Hf).
  - done.
  - by intros (a' & [=] & _).
Qed.

Lemma mapM_Forall2 {A B} (f : A -> outcome B) (l : list A) (out : list B) :
  mapM f l = Ret out <-> Forall2 (fun x y => f x = Ret y) l out.
Proof.
  revert out. induction l as [| x l IH]; intros out; simpl.
  - split.
    + intros [= <-]. constructor.
    + intros Hall. by inversion Hall.
  - rewrite bind_Ret. split.
    + intros (y & Hy & Hrest). apply bind_Ret in Hrest as (ys & Hys & [= <-]).
      constructor; [done | by apply IH].
    + intros Hall. inversion Hall as [| ? y ? ys Hy Hys]; subst.
      exists y. split; [done |]. apply bind_Ret. exists ys.
      split; [by apply IH | done].
Qed.

Lemma mapM_returns {A B} (f : A -> outcome B) (l : list A) :
  (forall x, x ∈ l -> returns (f x)) -> returns (mapM f l).
Proof.
  induction l as [| x l IH]; intros Hall; simpl.
  - by eexists.
  - destruct (Hall x) as [y Hy]; [by left |].
    destruct IH as [ys Hys]; [intros z Hz; apply Hall; by right |].
    rewrite Hy, Hys. by eexists.
Qed.

(** ** Decimals *)

Lemma eq_zero_Qeq (x : Dec.Decimal) : Dec.eq_zero x = true <-> (x == 0)%Q.
Proof.
  unfold Dec.eq_zero, Dec.is_zero. rewrite Z.eqb_eq. split.
  - intros Hnum. rewrite <- (Qred_correct x). unfold Qeq. simpl. lia.
  - intros Heq. apply Qred_complete in Heq. rewrite Heq. reflexivity.
Qed.


Lemma quantize_Qeq (p q : Q) (nd : Z) :
  (p == q)%Q -> Dec.quantize p nd = Dec.quantize q nd.
Proof.
  intros Heq. unfold Dec.quantize.
  assert (Hred : Qred (p * Dec.pow10 nd) = Qred (q * Dec.pow10 nd)).
  { apply Qred_complete. by rewrite Heq. }
  by rewrite Hred.
Qed.

(** Decimal division by a non-zero divisor never signals. *)
Lemma truediv_nonzero (a b : Dec.Decimal) :
  Dec.eq_zero b = false -> Dec.truediv a b = Ret (Dec.fix_prec (a / b)).
Proof. intros Hb. unfold Dec.truediv. by rewrite Hb. Qed.

(** ** Decimal coercion and safe division *)

Section PrimitiveFacts.

Variable Decimal_of_str : string -> option Dec.Decimal.

(** The coercion, case by case: it returns in every case. *)
Lemma to_dec_safe_cases (x : cell) :
  _to_dec_safe Decimal_of_str x =
    Ret (match x with
         | Missing => None
         | Num q => Some q
         | Text s =>
             if bool_decide (s = "") || bool_decide (s = "None") then None
             else Decimal_of_str s
         end).
Proof.
  unfold _to_dec_safe, try_except. destruct x as [| q | s]; simpl; [done | done |].
  destruct (bool_decide (s = "") || bool_decide (s = "None")); [done |].
  by destruct (Decimal_of_str s).
Qed.

Lemma to_dec_safe_returns (x : cell) : returns (_to_dec_safe Decimal_of_str x).
Proof. rewrite to_dec_safe_cases. by eexists. Qed.

(** Safe division, case by case. *)
Lemma div_cases (a b : option Dec.Decimal) :
  _div a b =
    Ret (match a, b with
         | Some x, Some y =>
             if Dec.eq_zero y then None else Some (Dec.fix_prec (x / y))
         | _, _ => None
         end).
Proof.
  destruct a as [x |], b as [y |]; simpl; try done.
  destruct (Dec.eq_zero y) eqn:Hy; [done |].
  by rewrite truediv_nonzero.
Qed.



Lemma fmt_None_iff (x : option Dec.Decimal) (nd : Z) (v : option float) :
  _fmt x nd = Ret v -> (v = None <-> x = None).
Proof.
  destruct x as [d |]; simpl.
  - destruct (Dec.quantize d nd); simpl; [| done]. intros [= <-]. done.
  - intros [= <-]. done.
Qed.


End PrimitiveFacts.

(** ** Growth calculator *)

Lemma float_truediv_truthy (a p : float) :
  Flt.truthy p = true -> Flt.truediv a p = Ret (PrimFloat.div a p).
Proof.
  unfold Flt.truthy, Flt.truediv. by destruct (PrimFloat.eqb p 0).
Qed.

Lemma add_growth_eq (suffix : string) (prev_m m : gmap string pyval) (k : string) :
  add_growth suffix prev_m m k = Ret (put_growth suffix prev_m m k).
Proof.
  unfold add_growth, put_growth, growth_value, growth_pct.
  destruct (py_get m k) as [| c | |], (py_get prev_m k) as [| p | |]; simpl; try done.
  destruct (Flt.truthy p) eqn:Hp; simpl; [| done].
  by rewrite float_truediv_truthy.
Qed.

Lemma foldM_add_growth (suffix : string) (prev_m m : gmap string pyval) :
  foldM (add_growth suffix prev_m) m growth_keys = Ret (grow suffix prev_m m).
Proof.
  unfold growth_keys, grow. simpl. rewrite add_growth_eq. simpl.
  rewrite add_growth_eq. reflexivity.
Qed.

Lemma totalRevenue_growth_key : "totalRevenue" ∈ growth_keys.
Proof. unfold growth_keys. apply list_elem_of_here. Qed.

Lemma netIncome_growth_key : "netIncome" ∈ growth_keys.
Proof. unfold growth_keys. apply list_elem_of_further, list_elem_of_here. Qed.

Lemma growth_keys_cases (k : string) :
  k ∈ growth_keys <-> k = "totalRevenue" \/ k = "netIncome".
Proof.
  unfold growth_keys. rewrite !elem_of_cons, elem_of_nil. tauto.
Qed.

(** A growth key differs from the two keys it is computed from. *)
Lemma growth_key_fresh (k k' suffix : string) :
  k ∈ growth_keys -> k' ∈ growth_keys -> suffix <> "" -> k +:+ suffix <> k'.
Proof.
  intros Hk Hk' Hs. destruct suffix as [| c s]; [done |].
  apply growth_keys_cases in Hk as [-> | ->];
    apply growth_keys_cases in Hk' as [-> | ->]; cbv; congruence.
Qed.

Lemma py_get_put_growth (suffix : string) (prev_m m : gmap string pyval)
    (k k' : string) :
  k +:+ suffix <> k' ->
  py_get (put_growth suffix prev_m m k) k' = py_get m k'.
Proof.
  intros Hne. unfold put_growth.
  destruct (growth_value _ _); [| done].
  unfold py_get. by rewrite lookup_insert_ne.
Qed.

Lemma py_get_grow (suffix : string) (prev_m m : gmap string pyval) (k : string) :
  suffix <> "" -> k ∈ growth_keys ->
  py_get (grow suffix prev_m m) k = py_get m k.
Proof.
  intros Hs Hk. unfold grow.
  rewrite !py_get_put_growth; [done | |]; apply growth_key_fresh;
    auto using totalRevenue_growth_key, netIncome_growth_key.
Qed.

(** The growth written depends on the previous row only through its two
    base values. *)
Lemma grow_ext (suffix : string) (pm pm' m : gmap string pyval) :
  (forall k, k ∈ growth_keys -> py_get pm k = py_get pm' k) ->
  grow suffix pm m = grow suffix pm' m.
Proof.
  intros Hagree. unfold grow, put_growth.
  by rewrite (Hagree "totalRevenue" totalRevenue_growth_key),
             (Hagree "netIncome" netIncome_growth_key).
Qed.

(** One iteration never raises, and what it leaves in the list. *)
Lemma growth_step_eq (by_date : gmap string nat) (i : nat) (out : list Row) :
  growth_step by_date i out =
    Ret (match out !! i with
         | None => out
         | Some row =>
             let m1 := qoq_part out i row in
             <[i := set_metrics row
                      (yoy_part by_date (<[i := set_metrics row m1]> out) row m1)]> out
         end).
Proof.
  unfold growth_step. destruct (out !! i) as [row |] eqn:Hrow; [| done].
  assert (Hq : (if bool_decide (i + 1 < length out) then
                  match out !! (i + 1) with
                  | Some prev =>
                      foldM (add_growth "_QoQ_growth_pct" (metrics prev))
                        (metrics row) growth_keys
                  | None => Ret (metrics row)
                  end
                else Ret (metrics row)) = Ret (qoq_part out i row)).
  { unfold qoq_part. case_bool_decide as Hlt.
    - destruct (out !! (i + 1)); [apply foldM_add_growth | done].
    - by rewrite (proj2 (lookup_ge_None out (i + 1))) by lia. }
  rewrite Hq, Ret_bind. cbv zeta. unfold yoy_part, try_except.
  destruct (yoy_key (fiscalDate row)) as [key | e].
  - rewrite Ret_bind. destruct (by_date !! key ≫= _) as [prev_y |].
    + rewrite foldM_add_growth, Ret_bind. by rewrite list_insert_insert_eq.
    + rewrite Ret_bind. by rewrite list_insert_insert_eq.
  - rewrite Raise_bind, Ret_bind. by rewrite list_insert_insert_eq.
Qed.

Lemma base_eq_refl (r : Row) : base_eq r r.
Proof. by intros k _. Qed.

Lemma qoq_part_base (out : list Row) (i : nat) (row : Row) (k : string) :
  k ∈ growth_keys -> py_get (qoq_part out i row) k = py_get (metrics row) k.
Proof.
  intros Hk. unfold qoq_part. destruct (out !! (i + 1)); [| done].
  by apply py_get_grow.
Qed.

Lemma yoy_part_base (by_date : gmap string nat) (out : list Row) (row : Row)
    (m1 : gmap string pyval) (k : string) :
  k ∈ growth_keys -> py_get (yoy_part by_date out row m1) k = py_get m1 k.
Proof.
  intros Hk. unfold yoy_part. destruct (yoy_key _); [| done].
  destruct (_ ≫= _); [| done]. by apply py_get_grow.
Qed.

Lemma grown_base_eq (by_date : gmap string nat) (orig : list Row) (i : nat)
    (row : Row) :
  base_eq row (grown by_date orig i row).
Proof.
  intros k Hk. unfold grown. simpl.
  by rewrite yoy_part_base, qoq_part_base.
Qed.

(** The year-over-year part reads the list only through base values, so any
    list that agrees with [orig] on them gives the same result. *)
Lemma yoy_part_ext (by_date : gmap string nat) (orig cur : list Row) (row : Row)
    (m1 : gmap string pyval) :
  Forall2 base_eq orig cur ->
  yoy_part by_date cur row m1 = yoy_part by_date orig row m1.
Proof.
  intros Hall. unfold yoy_part. destruct (yoy_key _) as [key | e]; [| done].
  destruct (by_date !! key) as [j |]; simpl; [| done].
  destruct (orig !! j) as [r |] eqn:Hr.
  - destruct (Forall2_lookup_l _ _ _ _ _ Hall Hr) as (r' & Hr' & Hbase).
    rewrite Hr'. by apply grow_ext.
  - apply Forall2_length in Hall. apply lookup_ge_None in Hr.
    by rewrite (proj2 (lookup_ge_None cur j)) by lia.
Qed.

Lemma stage_length (by_date : gmap string nat) (orig : list Row) (i : nat) :
  length (stage by_date orig i) = length orig.
Proof. unfold stage. apply length_imap. Qed.

Lemma stage_lookup (by_date : gmap string nat) (orig : list Row) (i j : nat) :
  stage by_date orig i !! j =
    (fun r => if decide (j < i) then grown by_date orig j r else r) <$> orig !! j.
Proof. unfold stage. apply list_lookup_imap. Qed.

Lemma stage_base_eq (by_date : gmap string nat) (orig : list Row) (i : nat) :
  Forall2 base_eq orig (stage by_date orig i).
Proof.
  apply Forall2_same_length_lookup. split.
  - by rewrite stage_length.
  - intros j r r' Hr. rewrite stage_lookup, Hr. simpl. intros [= <-].
    case_decide; [apply grown_base_eq | apply base_eq_refl].
Qed.

Lemma stage_0 (by_date : gmap string nat) (orig : list Row) :
  stage by_date orig 0 = orig.
Proof.
  apply list_eq. intros j. rewrite stage_lookup.
  destruct (orig !! j); simpl; [| done]. try case_decide; first [done | lia].
Qed.

Lemma growth_step_stage (by_date : gmap string nat) (orig : list Row) (i : nat) :
  i < length orig ->
  growth_step by_date i (stage by_date orig i) = Ret (stage by_date orig (S i)).
Proof.
  intros Hi. rewrite growth_step_eq. f_equal.
  destruct (lookup_lt_is_Some_2 orig i Hi) as [row Hrow].
  assert (Hcur : stage by_date orig i !! i = Some row).
  { rewrite stage_lookup, Hrow. simpl. case_decide; [lia | done]. }
  rewrite Hcur. simpl.
  assert (Hq : qoq_part (stage by_date orig i) i row = qoq_part orig i row).
  { unfold qoq_part. rewrite stage_lookup.
    destruct (orig !! (i + 1)); simpl; [| done]. case_decide; [lia | done]. }
  rewrite Hq.
  assert (Hy : yoy_part by_date
                 (<[i := set_metrics row (qoq_part orig i row)]> (stage by_date orig i))
                 row (qoq_part orig i row)
               = yoy_part by_date orig row (qoq_part orig i row)).
  { apply yoy_part_ext. apply Forall2_same_length_lookup. split.
    - by rewrite length_insert, stage_length.
    - intros j r r' Hr. destruct (decide (i = j)) as [<- | Hne].
      + rewrite list_lookup_insert_eq by (by rewrite stage_length).
        intros [= <-]. rewrite Hrow in Hr. injection Hr as <-.
        intros k Hk. simpl. by apply qoq_part_base.
      + rewrite list_lookup_insert_ne by done. intros Hr'.
        eapply Forall2_lookup_lr; [apply (stage_base_eq by_date orig i) | done..]. }
  rewrite Hy. apply list_eq. intros j. destruct (decide (i = j)) as [<- | Hne].
  - rewrite list_lookup_insert_eq by (by rewrite stage_length).
    rewrite stage_lookup, Hrow. simpl. case_decide; [done | lia].
  - rewrite list_lookup_insert_ne by done. rewrite !stage_lookup.
    destruct (orig !! j); simpl; [| done].
    repeat case_decide; try done; lia.
Qed.

Lemma growth_loop_stage (by_date : gmap string nat) (orig : list Row) (n i : nat) :
  i + n <= length orig ->
  growth_loop by_date n i (stage by_date orig i) = Ret (stage by_date orig (i + n)).
Proof.
  revert i. induction n as [| n IH]; intros i Hle; simpl.
  - by rewrite Nat.add_0_r.
  - rewrite growth_step_stage by lia. simpl. rewrite IH by lia.
    f_equal. f_equal. lia.
Qed.

(** The growth pass never raises: it returns every row with its own growth
    fields added, computed from the rows as first built. *)
Lemma growth_pass_eq (orig : list Row) :
  growth_pass orig =
    Ret (imap (grown (index_by_date 0 orig ∅) orig) orig).
Proof.
  unfold growth_pass.
  rewrite <- (stage_0 (index_by_date 0 orig ∅) orig) at 3.
  rewrite (growth_loop_stage _ orig (length orig) 0) by lia. f_equal.
  apply list_eq. intros j. rewrite stage_lookup, list_lookup_imap.
  destruct (orig !! j) eqn:Hj; simpl; [| done].
  apply lookup_lt_Some in Hj. case_decide; [done | lia].
Qed.

(** ** The [by_date] dictionary *)

Lemma index_by_date_lookup (i : nat) (out : list Row) (acc : gmap string nat)
    (key : string) :
  index_by_date i out acc !! key =
    match last_dated key out with
    | Some p => Some (i + p)
    | None => acc !! key
    end.
Proof.
  revert i acc. induction out as [| r rest IH]; intros i acc; simpl; [done |].
  rewrite IH. destruct (last_dated key rest) as [p |].
  - f_equal. lia.
  - case_bool_decide as Hkey.
    + rewrite Hkey, lookup_insert_eq. f_equal. lia.
    + by rewrite lookup_insert_ne.
Qed.

Lemma last_dated_None (key : string) (out : list Row) :
  last_dated key out = None <->
  forall j r, out !! j = Some r -> fiscalDate r <> key.
Proof.
  induction out as [| r rest IH]; simpl.
  - split; [by intros _ j r | done].
  - destruct (last_dated key rest) as [q |].
    + split; [done |]. intros Hall. exfalso.
      assert (Hnone : @None nat = None) by done.
      destruct IH as [_ IH]. discriminate IH.
      intros j r' Hr'. apply (Hall (S j) r' Hr').
    + destruct IH as [IH _]. specialize (IH eq_refl).
      case_bool_decide as Hkey.
      * split; [done |]. intros Hall. by destruct (Hall 0 r).
      * split; [| done]. intros _ [| j] r' Hr'.
        -- simpl in Hr'. by injection Hr' as <-.
        -- by apply (IH j).
Qed.

Lemma last_dated_Some (key : string) (out : list Row) (p : nat) :
  last_dated key out = Some p <->
  exists r, out !! p = Some r /\ fiscalDate r = key /\
    forall j' r', p < j' -> out !! j' = Some r' -> fiscalDate r' <> key.
Proof.
  revert p. induction out as [| r rest IH]; intros p; simpl.
  - split; [done |]. by intros (r & Hr & _).
  - destruct (last_dated key rest) as [q |] eqn:Hq.
    + pose proof (proj1 (IH q) eq_refl) as (rq & Hrq & Hkq & Hlastq).
      split.
      * intros [= <-]. exists rq. split; [done |]. split; [done |].
        intros [| j'] r' Hlt; [lia |]. simpl. apply Hlastq. lia.
      * intros (r0 & Hr0 & Hk & Hlast). destruct p as [| p].
        -- exfalso. by apply (Hlast (S q) rq); [lia | |].
        -- f_equal. simpl in Hr0.
           destruct (lt_eq_lt_dec p q) as [[Hlt | ->] | Hgt]; [| done |].
           ++ exfalso. by apply (Hlast (S q) rq); [lia | |].
           ++ exfalso. by apply (Hlastq p r0).
    + pose proof (proj1 (last_dated_None key rest) Hq) as Hnone.
      case_bool_decide as Hkey.
      * split.
        -- intros [= <-]. exists r. split; [done |]. split; [done |].
           intros [| j'] r' Hlt; [lia |]. simpl. apply Hnone.
        -- intros (r0 & Hr0 & Hk & _). destruct p as [| p]; [done |].
           simpl in Hr0. by destruct (Hnone p r0).
      * split; [done |]. intros (r0 & Hr0 & Hk & _). destruct p as [| p].
        -- simpl in Hr0. congruence.
        -- simpl in Hr0. by destruct (Hnone p r0).
Qed.


Lemma by_date_get_None (out : list Row) (key : string) :
  index_by_date 0 out ∅ !! key ≫= (fun j => out !! j) = None <->
  forall j r, out !! j = Some r -> fiscalDate r <> key.
Proof.
  rewrite <- last_dated_None, index_by_date_lookup.
  destruct (last_dated key out) as [p |] eqn:Hp; simpl; [| done].
  apply last_dated_Some in Hp as (r & Hr & _). rewrite Hr. done.
Qed.

(** ** Metric row builder *)

Lemma Ret_inj {A} (a b : A) : Ret a = Ret b -> a = b.
Proof. by intros [=]. Qed.

(** Splits a chain of binds that returned into its steps. *)
Ltac bind_inv H :=
  repeat match type of H with
         | mbind ?f ?m = Ret _ =>
             let a := fresh "a" in
             let Ha := fresh "Ha" in
             destruct m as [a |] eqn:Ha;
             [rewrite Ret_bind in H | discriminate H]
         end.

Section BuilderFacts.

Context {P : Type} `{Period P}.
Variable Decimal_of_str : string -> option Dec.Decimal.
Variable float_repr : float -> string.

Lemma val_returns (s : option (gmap P cell)) (d : P) :
  returns (val Decimal_of_str s d).
Proof.
  unfold val. destruct s as [s |]; [| by eexists].
  destruct (s !! d) as [[| q | t] |];
    first [apply to_dec_safe_returns | by eexists].
Qed.

(** Reading the thirteen raw values of a period never raises. *)
Lemma raw_values_returns (rs : Resolved) (d : P) :
  returns (raw_values Decimal_of_str rs d).
Proof.
  unfold raw_values.
  repeat match goal with
         | |- returns (val Decimal_of_str ?s d ≫= _) =>
             let v := fresh "v" in
             destruct (val_returns s d) as [v ->]; rewrite Ret_bind
         end.
  by eexists.
Qed.

Ltac base_metrics_inv H :=
  unfold base_metrics in H; bind_inv H; apply Ret_inj in H; subst.

Lemma base_metrics_plain (r : Raw) (ds : string) (m : gmap string pyval) :
  base_metrics r ds = Ret m ->
  (exists v, _fmt (totalRevenue r) 2 = Ret v /\ m !! "totalRevenue" = Some (stored v)) /\
  (exists v, _fmt (netIncome r) 2 = Ret v /\ m !! "netIncome" = Some (stored v)) /\
  (exists v, _fmt (fcf r) 2 = Ret v /\ m !! "freeCashFlow" = Some (stored v)) /\
  (exists v, (if is_not_None (totalDebt r) then _fmt (totalDebt r) 2 else Ret None) = Ret v /\
     m !! "totalDebt" = Some (stored v)).
Proof.
  intros Hm. base_metrics_inv Hm.
  repeat split; eexists; (split; [first [eassumption | reflexivity] | reflexivity]).
Qed.

Lemma base_metrics_ratios (r : Raw) (ds : string) (m : gmap string pyval) :
  base_metrics r ds = Ret m ->
  (exists q v, _div (grossProfit r) (totalRevenue r) = Ret q /\ _fmt (_pct q) 2 = Ret v /\
     m !! "grossMargin_pct" = Some (stored v)) /\
  (exists q v, _div (netIncome r) (totalRevenue r) = Ret q /\ _fmt (_pct q) 2 = Ret v /\
     m !! "netMargin_pct" = Some (stored v)) /\
  (exists q v, _div (totalLiab r) (equity r) = Ret q /\ _fmt q 4 = Ret v /\
     m !! "debtToEquity" = Some (stored v)) /\
  (exists q v, _div (currAssets r) (currLiab r) = Ret q /\ _fmt q 4 = Ret v /\
     m !! "currentRatio" = Some (stored v)) /\
  (exists q v, _div (cash r) (currLiab r) = Ret q /\ _fmt q 4 = Ret v /\
     m !! "cashRatio" = Some (stored v)) /\
  (exists q v, _div (rd_expense r) (totalRevenue r) = Ret q /\ _fmt (_pct q) 2 = Ret v /\
     m !! "rdIntensity_pct" = Some (stored v)) /\
  (exists q v, _div (capex r) (totalRevenue r) = Ret q /\ _fmt (_pct q) 2 = Ret v /\
     m !! "capexToRevenue_pct" = Some (stored v)).
Proof.
  intros Hm. base_metrics_inv Hm.
  repeat split; do 2 eexists;
    (split; [first [eassumption | reflexivity]
            | split; [first [eassumption | reflexivity] | reflexivity]]).
Qed.

Lemma base_metrics_fresh (r : Raw) (ds : string) (m : gmap string pyval) (k : string) :
  base_metrics r ds = Ret m ->
  k ∈ "distressFlags" :: growth_fields -> m !! k = None.
Proof.
  intros Hm Hk. base_metrics_inv Hm.
  unfold growth_fields in Hk. rewrite !elem_of_cons, elem_of_nil in Hk.
  destruct Hk as [-> | [-> | [-> | [-> | [-> | []]]]]]; reflexivity.
Qed.

Lemma lt_const_stored (v : option float) (c : float) :
  lt_const (stored v) c = Ret (below (stored v) c).
Proof. by destruct v. Qed.

Lemma gt_const_stored (v : option float) (c : float) :
  gt_const (stored v) c = Ret (above (stored v) c).
Proof. by destruct v. Qed.

(** On the metrics just built the three comparisons are between numbers, so
    computing the flags never raises. *)
Lemma distress_flags_base (r : Raw) (ds : string) (m : gmap string pyval) :
  base_metrics r ds = Ret m ->
  distress_flags m =
    Ret (append_if (above (py_get m "debtToEquity") 2) "high_debt_to_equity"
           (append_if (below (py_get m "freeCashFlow") 0) "negative_fcf"
              (append_if (below (py_get m "currentRatio") 1) "current_ratio_lt_1" []))).
Proof.
  intros Hm.
  destruct (base_metrics_plain r ds m Hm) as (_ & _ & (v2 & _ & Hfcf) & _).
  destruct (base_metrics_ratios r ds m Hm)
    as (_ & _ & (q3 & v3 & _ & _ & Hde) & (q1 & v1 & _ & _ & Hcr) & _).
  unfold distress_flags, py_get. rewrite Hcr, Hfcf, Hde. simpl.
  by rewrite !lt_const_stored, !Ret_bind, gt_const_stored, Ret_bind.
Qed.

Lemma summary_line_returns (company freq_label ds : string) (r : Raw)
    (m : gmap string pyval) :
  base_metrics r ds = Ret m ->
  returns (summary_line float_repr company freq_label ds r).
Proof.
  intros Hm.
  destruct (base_metrics_plain r ds m Hm) as ((v1 & Hv1 & _) & (v2 & Hv2 & _) & _).
  destruct (base_metrics_ratios r ds m Hm)
    as ((q1 & w1 & Hq1 & Hw1 & _) & (q2 & w2 & Hq2 & Hw2 & _) & _).
  unfold summary_line.
  rewrite Hv1, Ret_bind, Hv2, Ret_bind, Hq1, Ret_bind, Hw1, Ret_bind,
    Hq2, Ret_bind, Hw2, Ret_bind.
  by eexists.
Qed.

(** What one iteration of the row loop returns. *)
Lemma build_row_inv (cname sym freq_label : string) (rs : Resolved) (d : P)
    (row : Row) :
  build_row Decimal_of_str float_repr cname sym freq_label rs d = Ret row ->
  exists r m flags,
    raw_values Decimal_of_str rs d = Ret r /\
    base_metrics r (period_str d) = Ret m /\
    distress_flags m = Ret flags /\
    company row = cname /\ symbol row = sym /\ freq row = freq_label /\
    fiscalDate row = period_str d /\
    metrics row = <["distressFlags" := VList flags]> m.
Proof.
  intros Hrow. unfold build_row in Hrow. bind_inv Hrow.
  apply Ret_inj in Hrow. subst row. simpl.
  do 3 eexists. repeat split; first [eassumption | reflexivity].
Qed.

(** A row is built exactly when its metrics can be formatted. *)
Lemma build_row_returns (company symbol freq_label : string) (rs : Resolved) (d : P)
    (r : Raw) (m : gmap string pyval) :
  raw_values Decimal_of_str rs d = Ret r ->
  base_metrics r (period_str d) = Ret m ->
  returns (build_row Decimal_of_str float_repr company symbol freq_label rs d).
Proof.
  intros Hr Hm. unfold build_row. rewrite Hr, Ret_bind. cbv zeta.
  rewrite Hm, Ret_bind.
  destruct (summary_line_returns company freq_label (period_str d) r m Hm) as [t ->].
  rewrite Ret_bind, (distress_flags_base r _ m Hm), Ret_bind. by eexists.
Qed.

End BuilderFacts.

(** ** Period aligner *)

Section AlignerFacts.

Context {P : Type} `{Period P}.

#[local] Instance period_ge_total : Total (period_ge (P := P)).
Proof.
  intros a b. unfold period_ge.
  destruct (decide (period_lt a b)) as [Hab | Hab]; [right | by left].
  intros Hba. by apply (irreflexivity period_lt a); transitivity b.
Qed.

#[local] Instance period_ge_trans : Transitive (period_ge (P := P)).
Proof.
  intros a b c Hab Hbc Hac. unfold period_ge in *.
  destruct (trichotomy period_lt a b) as [Hlt | [-> | Hgt]]; [done | done |].
  apply Hbc. by transitivity a.
Qed.

(** Labels in the order [period_ge] with no repetition are strictly
    descending. *)
Lemma strictly_descending (l : list P) :
  StronglySorted period_ge l -> NoDup l -> StronglySorted (flip period_lt) l.
Proof.
  induction 1 as [| a l Hsorted IH Hall]; intros Hnodup; constructor.
  - apply IH. by apply NoDup_cons in Hnodup as [_ ?].
  - apply NoDup_cons in Hnodup as [Hnotin _].
    apply Forall_forall. intros b Hb. unfold flip.
    pose proof (proj1 (Forall_forall _ _) Hall b Hb) as Hge.
    destruct (trichotomy period_lt a b) as [Hlt | [-> | Hgt]]; [| | done].
    + by destruct Hge.
    + by destruct Hnotin.
Qed.

Lemma aligned_dates_perm (rs : Resolved) :
  aligned_dates rs ≡ₚ
    elements (list_to_set (mjoin (cols <$> all_series rs)) : gset P).
Proof. unfold aligned_dates. apply merge_sort_Permutation. Qed.

Lemma aligned_dates_NoDup (rs : Resolved) : NoDup (aligned_dates rs).
Proof. rewrite aligned_dates_perm. apply NoDup_elements. Qed.

Lemma aligned_dates_sorted (rs : Resolved) :
  StronglySorted (flip period_lt) (aligned_dates rs).
Proof.
  apply strictly_descending; [| apply aligned_dates_NoDup].
  unfold aligned_dates. apply StronglySorted_merge_sort; apply _.
Qed.




End AlignerFacts.

(** ** Rows as the builder returns them *)

Lemma put_growth_lookup_ne (suffix : string) (prev_m m : gmap string pyval)
    (k k' : string) :
  k +:+ suffix <> k' -> put_growth suffix prev_m m k !! k' = m !! k'.
Proof.
  intros Hne. unfold put_growth. destruct (growth_value _ _); [| done].
  by rewrite lookup_insert_ne.
Qed.

Lemma grow_lookup_ne (suffix : string) (prev_m m : gmap string pyval) (k' : string) :
  "totalRevenue" +:+ suffix <> k' -> "netIncome" +:+ suffix <> k' ->
  grow suffix prev_m m !! k' = m !! k'.
Proof.
  intros Hrev Hni. unfold grow. by rewrite !put_growth_lookup_ne.
Qed.

(** The growth calculator leaves every other key of a row as it was. *)
Lemma grown_lookup_other (by_date : gmap string nat) (orig : list Row) (i : nat)
    (row : Row) (k : string) :
  k ∉ growth_fields ->
  metrics (grown by_date orig i row) !! k = metrics row !! k.
Proof.
  unfold growth_fields. rewrite !not_elem_of_cons.
  intros (Hq1 & Hq2 & Hy1 & Hy2 & _).
  assert (Hqoq : qoq_part orig i row !! k = metrics row !! k).
  { unfold qoq_part. destruct (orig !! (i + 1)); [| done].
    apply grow_lookup_ne; cbv; congruence. }
  unfold grown. simpl. unfold yoy_part.
  destruct (yoy_key _); [| done]. destruct (_ ≫= _); [| done].
  rewrite grow_lookup_ne; [done | |]; cbv; congruence.
Qed.

Lemma grown_fiscalDate (by_date : gmap string nat) (orig : list Row) (i : nat)
    (row : Row) :
  fiscalDate (grown by_date orig i row) = fiscalDate row.
Proof. reflexivity. Qed.

(** Shows that a literal key is none of the growth fields. *)
Ltac not_growth_field :=
  unfold growth_fields; rewrite !not_elem_of_cons;
  repeat split; first [done | apply not_elem_of_nil].

Section RowFacts.

Context {P : Type} `{Period P}.
Variable Decimal_of_str : string -> option Dec.Decimal.
Variable float_repr : float -> string.

(** The rows returned are the rows of the row loop, one per aligned period
    and in that order, each with its growth fields added. *)
Lemma build_rows_inv (cname sym : string) (inc_df bal_df cf_df : gmap string (gmap P cell))
    (freq_label : string) (out : list Row) :
  build_rows_from_dfs Decimal_of_str float_repr cname sym inc_df bal_df cf_df
    freq_label = Ret out ->
  exists orig,
    Forall2
      (fun d row =>
         build_row Decimal_of_str float_repr cname sym freq_label
           (resolve inc_df bal_df cf_df) d = Ret row)
      (aligned_dates (resolve inc_df bal_df cf_df)) orig /\
    out = imap (grown (index_by_date 0 orig ∅) orig) orig.
Proof.
  unfold build_rows_from_dfs. cbv zeta. intros Hout.
  apply bind_Ret in Hout as (orig & Horig & Hgrow).
  exists orig. split; [by apply mapM_Forall2 |].
  rewrite growth_pass_eq in Hgrow. by apply Ret_inj in Hgrow.
Qed.

Lemma built_row (cname sym : string) (inc_df bal_df cf_df : gmap string (gmap P cell))
    (freq_label : string) (out : list Row) (i : nat) (row : Row) :
  build_rows_from_dfs Decimal_of_str float_repr cname sym inc_df bal_df cf_df
    freq_label = Ret out ->
  out !! i = Some row ->
  exists orig d r m flags row0,
    out = imap (grown (index_by_date 0 orig ∅) orig) orig /\
    built Decimal_of_str cname sym freq_label (resolve inc_df bal_df cf_df) orig i
      row d r m flags row0.
Proof.
  intros Hout Hrow. apply build_rows_inv in Hout as (orig & Hall & ->).
  rewrite list_lookup_imap in Hrow.
  destruct (orig !! i) as [row0 |] eqn:Hrow0; [| done].
  simpl in Hrow. injection Hrow as <-.
  destruct (Forall2_lookup_r _ _ _ _ _ Hall Hrow0) as (d & Hd & Hbuild).
  apply build_row_inv in Hbuild
    as (r & m & flags & Hr & Hm & Hflags & _ & _ & _ & Hds & Hmetrics).
  exists orig, d, r, m, flags, row0. split; [done |]. by constructor.
Qed.

(** A key of the metrics literal reads the same in the finished row. *)
Lemma built_lookup (cname sym freq_label : string) (rs : Resolved) (orig : list Row)
    (i : nat) (row : Row) (d : P) (r : Raw) (m : gmap string pyval)
    (flags : list string) (row0 : Row) (k : string) :
  built Decimal_of_str cname sym freq_label rs orig i row d r m flags row0 ->
  k ∉ "distressFlags" :: growth_fields ->
  metrics row !! k = m !! k.
Proof.
  intros Hb Hk. apply not_elem_of_cons in Hk as [Hflag Hk].
  rewrite (built_grown _ _ _ _ _ _ _ _ _ _ _ _ _ Hb), grown_lookup_other by done.
  rewrite (built_row0 _ _ _ _ _ _ _ _ _ _ _ _ _ Hb). by rewrite lookup_insert_ne.
Qed.

End RowFacts.

(** ** Derived metrics of a built row *)

Lemma stored_None (v : option float) : stored v = VNone <-> v = None.
Proof. by destruct v. Qed.

Lemma stored_cases (v : option float) :
  stored v = VNone \/ exists f, stored v = VFloat f.
Proof. destruct v as [f |]; [right; by exists f | by left]. Qed.




Section MetricClaims.

Context {P : Type} `{Period P}.
Variable Decimal_of_str : string -> option Dec.Decimal.
Variable float_repr : float -> string.


End MetricClaims.

Lemma elem_of_append_if (b : bool) (name x : string) (flags : list string) :
  x ∈ append_if b name flags <-> x ∈ flags \/ (b = true /\ x = name).
Proof.
  unfold append_if. destruct b.
  - rewrite elem_of_app, list_elem_of_singleton. tauto.
  - intuition congruence.
Qed.

Lemma below_true (v : pyval) (c : float) :
  below v c = true <-> exists f, v = VFloat f /\ PrimFloat.ltb f c = true.
Proof.
  destruct v as [| f | s | l]; simpl; split; try done;
    try (by intros (f' & [=] & _)).
  - intros Hlt. by exists f.
  - by intros (f' & [= <-] & Hlt).
Qed.

Lemma above_true (v : pyval) (c : float) :
  above v c = true <-> exists f, v = VFloat f /\ PrimFloat.ltb c f = true.
Proof.
  destruct v as [| f | s | l]; simpl; split; try done;
    try (by intros (f' & [=] & _)).
  - intros Hlt. by exists f.
  - by intros (f' & [= <-] & Hlt).
Qed.

Lemma py_get_Some (m : gmap string pyval) (k : string) (v : pyval) :
  m !! k = Some v -> py_get m k = v.
Proof. unfold py_get. by intros ->. Qed.

(** Membership in the list the three [append] statements build. *)
Lemma flags_membership (b1 b2 b3 : bool) (x : string) :
  x ∈ append_if b3 "high_debt_to_equity"
        (append_if b2 "negative_fcf" (append_if b1 "current_ratio_lt_1" [])) <->
  (b1 = true /\ x = "current_ratio_lt_1") \/
  (b2 = true /\ x = "negative_fcf") \/
  (b3 = true /\ x = "high_debt_to_equity").
Proof. rewrite !elem_of_append_if, elem_of_nil. tauto. Qed.

Section SumAndFlagClaims.

Context {P : Type} `{Period P}.
Variable Decimal_of_str : string -> option Dec.Decimal.
Variable float_repr : float -> string.



(** C7. In every row built, the distress flags are computed from the stored,
    already rounded values with strict comparisons: current_ratio_lt_1 is
    listed iff currentRatio is a number below 1, negative_fcf iff
    freeCashFlow is a number below 0, high_debt_to_equity iff debtToEquity is
    a number above 2, and nothing else is ever listed. *)
Theorem distress_flags_spec (cname sym : string)
    (inc_df bal_df cf_df : gmap string (gmap P cell)) (freq_label : string)
    (out : list Row) (i : nat) (row : Row) :
  build_rows_from_dfs Decimal_of_str float_repr cname sym inc_df bal_df cf_df
    freq_label = Ret out ->
  out !! i = Some row ->
  exists d r flags,
    aligned_dates (resolve inc_df bal_df cf_df) !! i = Some d /\
    raw_values Decimal_of_str (resolve inc_df bal_df cf_df) d = Ret r /\
    metrics row !! "distressFlags" = Some (VList flags) /\
    ("current_ratio_lt_1" ∈ flags <->
       exists f, metrics row !! "currentRatio" = Some (VFloat f) /\
                 PrimFloat.ltb f 1 = true) /\
    ("negative_fcf" ∈ flags <->
       exists f, metrics row !! "freeCashFlow" = Some (VFloat f) /\
                 PrimFloat.ltb f 0 = true) /\
    ("high_debt_to_equity" ∈ flags <->
       exists f, metrics row !! "debtToEquity" = Some (VFloat f) /\
                 PrimFloat.ltb 2 f = true) /\
    (forall x, x ∈ flags ->
       x ∈ ["current_ratio_lt_1"; "negative_fcf"; "high_debt_to_equity"]) /\
    (exists q v, _div (currAssets r) (currLiab r) = Ret q /\ _fmt q 4 = Ret v /\
       metrics row !! "currentRatio" = Some (stored v)) /\
    (exists v, _fmt (fcf r) 2 = Ret v /\
       metrics row !! "freeCashFlow" = Some (stored v)) /\
    (exists q v, _div (totalLiab r) (equity r) = Ret q /\ _fmt q 4 = Ret v /\
       metrics row !! "debtToEquity" = Some (stored v)).
Proof.
  intros Hout Hrow.
  destruct (built_row _ _ _ _ _ _ _ _ _ _ _ Hout Hrow)
    as (orig & d & r & m & flags & row0 & _ & Hb).
  exists d, r, flags.
  assert (Hlook : forall k, k ∉ "distressFlags" :: growth_fields ->
            metrics row !! k = m !! k).
  { intros k Hk. eapply built_lookup; [exact Hb | exact Hk]. }
  destruct Hb as [Hd Hr Hm Hflags _ Hrow0 _ Hgrown].
  assert (Hfl : metrics row !! "distressFlags" = Some (VList flags)).
  { rewrite Hgrown, grown_lookup_other by not_growth_field.
    by rewrite Hrow0, lookup_insert_eq. }
  destruct (base_metrics_plain r _ m Hm) as (_ & _ & (v2 & Hv2 & Hfcf) & _).
  destruct (base_metrics_ratios r _ m Hm)
    as (_ & _ & (q3 & v3 & Hq3 & Hv3 & Hde) & (q1 & v1 & Hq1 & Hv1 & Hcr) & _).
  rewrite (distress_flags_base r _ m Hm) in Hflags. apply Ret_inj in Hflags.
  rewrite (py_get_Some _ _ _ Hcr), (py_get_Some _ _ _ Hfcf),
    (py_get_Some _ _ _ Hde) in Hflags.
  rewrite <- Hlook in Hcr, Hfcf, Hde
    by (apply not_elem_of_cons; split; [done | not_growth_field]).
  rewrite Hcr, Hfcf, Hde. subst flags.
  split; [done |]. split; [done |]. split; [done |].
  split; [| split; [| split; [| split]]].
  - rewrite flags_membership. split.
    + intros [[Hb _] | [[_ Heq] | [_ Heq]]]; [| done | done].
      apply below_true in Hb as (f & Hf & Hlt). exists f. by rewrite Hf.
    + intros (f & [= Hf] & Hlt). left. split; [| done].
      apply below_true. exists f. by rewrite Hf.
  - rewrite flags_membership. split.
    + intros [[_ Heq] | [[Hb _] | [_ Heq]]]; [done | | done].
      apply below_true in Hb as (f & Hf & Hlt). exists f. by rewrite Hf.
    + intros (f & [= Hf] & Hlt). right; left. split; [| done].
      apply below_true. exists f. by rewrite Hf.
  - rewrite flags_membership. split.
    + intros [[_ Heq] | [[_ Heq] | [Hb _]]]; [done | done |].
      apply above_true in Hb as (f & Hf & Hlt). exists f. by rewrite Hf.
    + intros (f & [= Hf] & Hlt). right; right. split; [| done].
      apply above_true. exists f. by rewrite Hf.
  - intros x. rewrite flags_membership, !elem_of_cons, !elem_of_nil. tauto.
  - split; [by exists q1, v1 |]. split; [by exists v2 | by exists q3, v3].
Qed.

End SumAndFlagClaims.

(** ** Growth fields of a built row *)

Lemma put_growth_lookup_eq (suffix : string) (prev_m m : gmap string pyval)
    (k : string) :
  put_growth suffix prev_m m k !! (k +:+ suffix) =
    match growth_value (py_get m k) (py_get prev_m k) with
    | Some g => Some (VFloat g)
    | None => m !! (k +:+ suffix)
    end.
Proof.
  unfold put_growth. destruct (growth_value _ _); [| done].
  by rewrite lookup_insert_eq.
Qed.

(** The growth key of [k] after both keys were treated. *)
Lemma grow_lookup_key (suffix : string) (prev_m m : gmap string pyval) (k : string) :
  suffix <> "" -> k ∈ growth_keys ->
  grow suffix prev_m m !! (k +:+ suffix) =
    match growth_value (py_get m k) (py_get prev_m k) with
    | Some g => Some (VFloat g)
    | None => m !! (k +:+ suffix)
    end.
Proof.
  intros Hs Hk. unfold grow. apply growth_keys_cases in Hk as [-> | ->].
  - rewrite put_growth_lookup_ne; [apply put_growth_lookup_eq |].
    cbv [String.append]. congruence.
  - rewrite put_growth_lookup_eq, py_get_put_growth.
    + rewrite put_growth_lookup_ne; [done |]. cbv [String.append]. congruence.
    + apply growth_key_fresh;
        auto using totalRevenue_growth_key, netIncome_growth_key.
Qed.



(** The quarter-over-quarter field of row [i], read off the rows as first
    built: the year-over-year step does not touch it. *)
Lemma grown_qoq_lookup (by_date : gmap string nat) (orig : list Row) (i : nat)
    (row0 : Row) (k : string) :
  k ∈ growth_keys ->
  metrics row0 !! (k +:+ "_QoQ_growth_pct") = None ->
  metrics (grown by_date orig i row0) !! (k +:+ "_QoQ_growth_pct") =
    match orig !! (i + 1) with
    | Some prev =>
        VFloat <$> growth_value (py_get (metrics row0) k) (py_get (metrics prev) k)
    | None => None
    end.
Proof.
  intros Hk Hfresh.
  assert (Hqoq : qoq_part orig i row0 !! (k +:+ "_QoQ_growth_pct") =
            match orig !! (i + 1) with
            | Some prev =>
                VFloat <$> growth_value (py_get (metrics row0) k)
                             (py_get (metrics prev) k)
            | None => None
            end).
  { unfold qoq_part. destruct (orig !! (i + 1)) as [prev |]; [| done].
    rewrite grow_lookup_key by done. rewrite Hfresh.
    by destruct (growth_value _ _). }
  unfold grown. simpl. unfold yoy_part.
  destruct (yoy_key _); [| done]. destruct (_ ≫= _); [| done].
  rewrite grow_lookup_ne; [done | |];
    apply growth_keys_cases in Hk as [-> | ->]; cbv; congruence.
Qed.

(** The year-over-year field of row [i]. *)
Lemma grown_yoy_lookup (by_date : gmap string nat) (orig : list Row) (i : nat)
    (row0 : Row) (k : string) :
  k ∈ growth_keys ->
  metrics row0 !! (k +:+ "_YoY_growth_pct") = None ->
  metrics (grown by_date orig i row0) !! (k +:+ "_YoY_growth_pct") =
    match yoy_key (fiscalDate row0) with
    | Ret key =>
        match by_date !! key ≫= (fun j => orig !! j) with
        | Some prev_y =>
            VFloat <$> growth_value (py_get (metrics row0) k)
                         (py_get (metrics prev_y) k)
        | None => None
        end
    | Raise _ => None
    end.
Proof.
  intros Hk Hfresh.
  assert (Hqoq : qoq_part orig i row0 !! (k +:+ "_YoY_growth_pct") = None).
  { unfold qoq_part. destruct (orig !! (i + 1)) as [prev |]; [| done].
    rewrite grow_lookup_ne; [done | |];
      apply growth_keys_cases in Hk as [-> | ->]; cbv; congruence. }
  unfold grown. simpl. unfold yoy_part.
  destruct (yoy_key _); [| done]. destruct (_ ≫= _) as [prev_y |]; [| done].
  rewrite grow_lookup_key by done. rewrite Hqoq, qoq_part_base by done.
  by destruct (growth_value _ _).
Qed.

Lemma growth_key_is_field (k : string) :
  k ∈ growth_keys ->
  k +:+ "_QoQ_growth_pct" ∈ growth_fields /\
  k +:+ "_YoY_growth_pct" ∈ growth_fields /\
  k ∉ "distressFlags" :: growth_fields.
Proof.
  intros Hk. unfold growth_fields.
  apply growth_keys_cases in Hk as [-> | ->]; cbv [String.append];
    rewrite !not_elem_of_cons, !elem_of_cons; repeat split;
    first [tauto | done | apply not_elem_of_nil].
Qed.

Lemma last_dated_ext (key : string) (l l' : list Row) :
  Forall2 (fun a b => fiscalDate a = fiscalDate b) l l' ->
  last_dated key l = last_dated key l'.
Proof.
  induction 1 as [| a b l l' Hab Hrest IH]; simpl; [done |].
  by rewrite IH, Hab.
Qed.

Lemma digit_of_range (c : ascii) (d : Z) :
  digit_of c = Some d ->
  (48 <= N_of_ascii c <= 57)%N /\ d = (Z.of_N (N_of_ascii c) - 48)%Z.
Proof.
  unfold digit_of.
  destruct (48 <=? N_of_ascii c)%N eqn:Hlo; simpl; [| done].
  destruct (N_of_ascii c <=? 57)%N eqn:Hhi; simpl; [| done].
  intros [= <-]. apply N.leb_le in Hlo, Hhi. done.
Qed.

Lemma digit_not_space (c : ascii) (d : Z) :
  digit_of c = Some d -> is_space c = false.
Proof.
  intros Hd. apply digit_of_range in Hd as [[Hlo Hhi] _]. unfold is_space.
  apply orb_false_intro; apply andb_false_iff.
  - right. apply N.leb_gt. lia.
  - right. apply N.leb_gt. lia.
Qed.

Lemma digit_not_sign (c : ascii) (d : Z) (n : N) :
  digit_of c = Some d -> (n < 48)%N -> (N_of_ascii c =? n)%N = false.
Proof.
  intros Hd Hn. apply digit_of_range in Hd as [[Hlo Hhi] _].
  apply N.eqb_neq. lia.
Qed.

(** [int] reads four decimal digits as their value. *)
Lemma py_int_four_digits (a b c d : ascii) (da db dc dd : Z) :
  digit_of a = Some da -> digit_of b = Some db ->
  digit_of c = Some dc -> digit_of d = Some dd ->
  py_int (String a (String b (String c (String d EmptyString)))) =
    Ret (1000 * da + 100 * db + 10 * dc + dd)%Z.
Proof.
  intros Ha Hb Hc Hd. unfold py_int, strip. simpl list_ascii_of_string.
  cbn [lstrip]. rewrite (digit_not_space a da Ha).
  change (reverse [a; b; c; d]) with [d; c; b; a].
  cbn [lstrip]. rewrite (digit_not_space d dd Hd).
  change (reverse [d; c; b; a]) with [a; b; c; d].
  cbv beta iota.
  rewrite (digit_not_sign a da 45 Ha), (digit_not_sign a da 43 Ha) by lia.
  cbn [read_digits]. rewrite Ha, Hb, Hc, Hd. f_equal. lia.
Qed.

(** For a period text that starts with a four-digit year and a separator,
    the key looked up is the year before, a dash, and the rest unchanged:
    [(YYYY - 1)-MM-DD] for [YYYY-MM-DD]. *)
Lemma yoy_key_four_digit_year (a b c d sep : ascii) (da db dc dd : Z) (rest : string) :
  digit_of a = Some da -> digit_of b = Some db ->
  digit_of c = Some dc -> digit_of d = Some dd ->
  yoy_key (String a (String b (String c (String d (String sep rest))))) =
    Ret (py_str_int (1000 * da + 100 * db + 10 * dc + dd - 1) +:+ "-" +:+ rest).
Proof.
  intros Ha Hb Hc Hd. unfold yoy_key. cbn [str_take str_drop].
  by rewrite (py_int_four_digits a b c d da db dc dd).
Qed.


Section GrowthClaims.

Context {P : Type} `{Period P}.
Variable Decimal_of_str : string -> option Dec.Decimal.
Variable float_repr : float -> string.

(** The rows returned, against the rows of the row loop: same dates, same
    base values, and the growth fields as the two lookups give them. *)
Lemma built_growth (cname sym : string)
    (inc_df bal_df cf_df : gmap string (gmap P cell)) (freq_label : string)
    (out : list Row) (i : nat) (row : Row) (k : string) :
  build_rows_from_dfs Decimal_of_str float_repr cname sym inc_df bal_df cf_df
    freq_label = Ret out ->
  out !! i = Some row ->
  k ∈ growth_keys ->
  metrics row !! (k +:+ "_QoQ_growth_pct") =
    match out !! (i + 1) with
    | Some prev =>
        VFloat <$> growth_value (py_get (metrics row) k) (py_get (metrics prev) k)
    | None => None
    end /\
  metrics row !! (k +:+ "_YoY_growth_pct") =
    match yoy_key (fiscalDate row) with
    | Ret key =>
        match last_dated key out ≫= (fun j => out !! j) with
        | Some prev_y =>
            VFloat <$> growth_value (py_get (metrics row) k)
                         (py_get (metrics prev_y) k)
        | None => None
        end
    | Raise _ => None
    end.
Proof.
  intros Hout Hrow Hk.
  destruct (built_row _ _ _ _ _ _ _ _ _ _ _ Hout Hrow)
    as (orig & d & r & m & flags & row0 & Heq & Hb).
  destruct Hb as [Hd Hr Hm Hflags Horig Hrow0 Hds Hgrown].
  destruct (growth_key_is_field k Hk) as (Hq & Hy & Hbase).
  assert (Hfresh : forall f, f ∈ growth_fields -> metrics row0 !! f = None).
  { intros f Hf. rewrite Hrow0, lookup_insert_ne.
    - apply (base_metrics_fresh r _ m f Hm). by right.
    - intros <-. revert Hf. unfold growth_fields.
      rewrite !elem_of_cons, elem_of_nil. intros [Hf | [Hf | [Hf | [Hf | []]]]]; done. }
  set (by_date := index_by_date 0 orig ∅) in *.
  assert (Hbase_eq : forall j a b, orig !! j = Some a -> out !! j = Some b ->
            py_get (metrics b) k = py_get (metrics a) k /\
            fiscalDate b = fiscalDate a).
  { intros j a b Ha Hb. rewrite Heq, list_lookup_imap, Ha in Hb.
    simpl in Hb. injection Hb as <-. split; [| done]. by apply grown_base_eq. }
  assert (Hlen : forall j, out !! j = None <-> orig !! j = None).
  { intros j. rewrite Heq, list_lookup_imap. by destruct (orig !! j). }
  destruct (Hbase_eq i row0 row Horig Hrow) as [Hrowk Hrowd].
  split.
  - rewrite Hrowk, Hgrown, grown_qoq_lookup by auto.
    destruct (orig !! (i + 1)) as [prev0 |] eqn:Hprev0.
    + destruct (out !! (i + 1)) as [prev |] eqn:Hprev.
      * by destruct (Hbase_eq _ _ _ Hprev0 Hprev) as [-> _].
      * apply Hlen in Hprev. congruence.
    + apply Hlen in Hprev0. by rewrite Hprev0.
  - rewrite Hrowk, Hrowd, Hgrown, grown_yoy_lookup by auto.
    destruct (yoy_key (fiscalDate row0)) as [key | e]; [| done].
    unfold by_date. rewrite index_by_date_lookup, lookup_empty.
    assert (Hsame : last_dated key out = last_dated key orig).
    { apply last_dated_ext. apply Forall2_same_length_lookup. split.
      - rewrite Heq. apply length_imap.
      - intros j b a Hb Ha. by destruct (Hbase_eq j a b Ha Hb). }
    rewrite Hsame. destruct (last_dated key orig) as [p |]; simpl; [| done].
    destruct (orig !! p) as [prev0 |] eqn:Hprev0.
    + destruct (out !! p) as [prev |] eqn:Hprev.
      * by destruct (Hbase_eq _ _ _ Hprev0 Hprev) as [-> _].
      * apply Hlen in Hprev. congruence.
    + apply Hlen in Hprev0. by rewrite Hprev0.
Qed.



End GrowthClaims.

(** ** Rounding to the context precision *)

Section DecimalRounding.

Local Open Scope Z_scope.

(** The nearest integer is within half a unit, in integers:
    [2 * |z * d - n| <= d]. *)
Lemma round_half_even_Z (n : Z) (d : positive) :
  2 * Z.abs (Dec.round_half_even (n # d) * Z.pos d - n) <= Z.pos d.
Proof.
  unfold Dec.round_half_even. simpl.
  pose proof (Z.div_mod n (Z.pos d) ltac:(lia)) as Hdiv.
  pose proof (Z.mod_pos_bound n (Z.pos d) ltac:(lia)) as Hmod.
  destruct (2 * (n mod Z.pos d) <? Z.pos d) eqn:Hlt.
  - apply Z.ltb_lt in Hlt. lia.
  - apply Z.ltb_ge in Hlt.
    destruct (Z.pos d <? 2 * (n mod Z.pos d)) eqn:Hgt.
    + apply Z.ltb_lt in Hgt. lia.
    + apply Z.ltb_ge in Hgt. destruct (Z.even (n / Z.pos d)); lia.
Qed.


Lemma round_half_even_bound (q : Q) :
  (Qabs (inject_Z (Dec.round_half_even q) - q) <= 1 # 2)%Q.
Proof.
  destruct q as [n d]. pose proof (round_half_even_Z n d) as Hz.
  set (z := Dec.round_half_even (n # d)) in *.
  apply Qabs_Qle_condition. unfold Qle, Qminus, Qplus, Qopp, inject_Z. simpl.
  split; lia.
Qed.

Lemma ndigits_aux_spec (fuel : nat) (n : Z) :
  1 <= n -> n < 2 ^ Z.of_nat fuel ->
  1 <= Dec.ndigits_aux fuel n /\
  10 ^ (Dec.ndigits_aux fuel n - 1) <= n < 10 ^ Dec.ndigits_aux fuel n.
Proof.
  revert n. induction fuel as [| fuel IH]; intros n Hpos Hfuel.
  - simpl in Hfuel. lia.
  - cbn [Dec.ndigits_aux]. destruct (n <? 10) eqn:Hsmall.
    + apply Z.ltb_lt in Hsmall. simpl. lia.
    + apply Z.ltb_ge in Hsmall.
      pose proof (Z.div_mod n 10 ltac:(lia)) as Hdiv.
      pose proof (Z.mod_pos_bound n 10 ltac:(lia)) as Hmod.
      assert (Hfuel' : n / 10 < 2 ^ Z.of_nat fuel).
      { rewrite Nat2Z.inj_succ, Z.pow_succ_r in Hfuel by lia. lia. }
      destruct (IH (n / 10) ltac:(lia) Hfuel') as (Hk & Hlo & Hhi).
      set (k := Dec.ndigits_aux fuel (n / 10)) in *.
      replace (1 + k - 1) with (Z.succ (k - 1)) by lia.
      replace (1 + k) with (Z.succ k) by lia.
      rewrite !Z.pow_succ_r by lia. lia.
Qed.

(** [ndigits] counts the decimal digits of a positive integer. *)
Lemma ndigits_spec (n : Z) :
  1 <= n ->
  1 <= Dec.ndigits n /\ 10 ^ (Dec.ndigits n - 1) <= n < 10 ^ Dec.ndigits n.
Proof.
  intros Hpos. unfold Dec.ndigits. apply ndigits_aux_spec; [done |].
  rewrite Nat2Z.inj_succ, Z2Nat.id by apply Z.log2_nonneg.
  apply Z.log2_spec. lia.
Qed.

Local Open Scope Q_scope.

Lemma pow10_pos (k : Z) : 0 < Dec.pow10 k.
Proof. unfold Dec.pow10. by apply Qpower_0_lt. Qed.

Lemma pow10_Z (k : Z) : (0 <= k)%Z -> Dec.pow10 k == inject_Z (10 ^ k).
Proof. intros Hk. unfold Dec.pow10. by rewrite Zpower_Qpower. Qed.

Lemma pow10_minus (a b : Z) : Dec.pow10 (a - b) == Dec.pow10 a / Dec.pow10 b.
Proof. unfold Dec.pow10. by apply Qpower_minus. Qed.

(** The adjusted exponent brackets a non-zero value between two consecutive
    powers of ten. *)
Lemma adjusted_spec (q : Q) :
  ~ q == 0 ->
  Dec.pow10 (Dec.adjusted q) <= Qabs q /\ Qabs q < Dec.pow10 (Dec.adjusted q + 1).
Proof.
  intros Hq. destruct q as [n d]. unfold Dec.adjusted. cbn [Qnum Qden].
  assert (Hn : (1 <= Z.abs n)%Z).
  { destruct (decide (n = 0%Z)) as [-> | Hne]; [by destruct Hq | lia]. }
  destruct (ndigits_spec (Z.abs n) Hn) as (Hdn & Hnlo & Hnhi).
  destruct (ndigits_spec (Z.pos d) ltac:(lia)) as (Hdd & Hdlo & Hdhi).
  set (dn := Dec.ndigits (Z.abs n)) in *. set (dd := Dec.ndigits (Z.pos d)) in *.
  assert (Habs : Qabs (n # d) = (Z.abs n # d)) by done. rewrite Habs.
  assert (Hup : (Z.abs n # d) < Dec.pow10 (dn - dd + 1)).
  { replace (dn - dd + 1)%Z with (dn - (dd - 1))%Z by lia.
    rewrite pow10_minus, !pow10_Z by lia.
    apply Qlt_shift_div_l.
    - change 0 with (inject_Z 0). rewrite <- Zlt_Qlt. lia.
    - unfold Qlt, Qmult, inject_Z. simpl. nia. }
  assert (Hlow : Dec.pow10 (dn - dd - 1) <= (Z.abs n # d)).
  { replace (dn - dd - 1)%Z with (dn - 1 - dd)%Z by lia.
    rewrite pow10_minus, !pow10_Z by lia.
    apply Qle_shift_div_r.
    - change 0 with (inject_Z 0). rewrite <- Zlt_Qlt. lia.
    - unfold Qle, Qmult, inject_Z. simpl. nia. }
  destruct (Qle_bool (Dec.pow10 (dn - dd)) (Z.abs n # d)) eqn:Hcmp.
  - apply Qle_bool_iff in Hcmp. done.
  - split; [apply Hlow |]. replace (dn - dd - 1 + 1)%Z with (dn - dd)%Z by lia.
    apply Qnot_le_lt. intros Hle. apply Qle_bool_iff in Hle. congruence.
Qed.

Lemma fix_prec_nonzero (q : Q) :
  ~ q == 0 ->
  Dec.fix_prec q ==
    inject_Z (Dec.round_half_even (Qred (Qred q / ulp28 q))) * ulp28 q.
Proof.
  intros Hq. unfold Dec.fix_prec, ulp28. cbv zeta.
  destruct (Dec.is_zero (Qred q)) eqn:Hz.
  - destruct Hq. by apply eq_zero_Qeq.
  - apply Qred_correct.
Qed.

(** A result rounded to the context precision is within half a unit of the
    28th significant digit of the exact value. *)
Lemma fix_prec_bound (q : Q) :
  ~ q == 0 -> Qabs (Dec.fix_prec q - q) <= (1 # 2) * ulp28 q.
Proof.
  intros Hq. rewrite (fix_prec_nonzero q Hq).
  set (u := ulp28 q). assert (Hu : 0 < u) by apply pow10_pos.
  set (r := Qred (Qred q / u)). assert (Hr : r == q / u).
  { unfold r. by rewrite !Qred_correct. }
  assert (Hu0 : ~ u == 0).
  { intros Hu0. rewrite Hu0 in Hu. by apply Qlt_irrefl in Hu. }
  assert (Hru : r * u == q) by (rewrite Hr; by field).
  set (z := inject_Z (Dec.round_half_even r)).
  assert (Heq : z * u - q == (z - r) * u) by (rewrite <- Hru; ring).
  rewrite Heq, Qabs_Qmult, (Qabs_pos u) by by apply Qlt_le_weak.
  apply Qmult_le_compat_r; [apply round_half_even_bound | by apply Qlt_le_weak].
Qed.


(** The unit is at most [10^-27] times the value: 28 significant digits. *)
Lemma ulp28_le (q : Q) : ~ q == 0 -> ulp28 q <= Qabs q * Dec.pow10 (-27).
Proof.
  intros Hq. unfold ulp28.
  assert (Hq' : ~ Qred q == 0) by by rewrite Qred_correct.
  destruct (adjusted_spec (Qred q) Hq') as [Hlo _].
  assert (Habs : Qabs (Qred q) == Qabs q) by apply Qabs_wd, Qred_correct.
  rewrite Habs in Hlo.
  change (Dec.prec - 1)%Z with 27%Z.
  replace (Dec.adjusted (Qred q) - 27)%Z with (Dec.adjusted (Qred q) + -27)%Z by lia.
  unfold Dec.pow10 at 1. rewrite Qpower_plus by done.
  apply Qmult_le_compat_r; [done |]. apply Qlt_le_weak, pow10_pos.
Qed.

End DecimalRounding.

Lemma fix_prec_zero (q : Q) : (q == 0)%Q -> Dec.fix_prec q = 0%Q.
Proof.
  intros Hq. unfold Dec.fix_prec. cbv zeta.
  by rewrite (proj2 (eq_zero_Qeq q) Hq : Dec.is_zero (Qred q) = true).
Qed.



(** ** The two primitives, as a whole *)



(** ** Period aligner and row order *)

Section AlignerClaims.

Context {P : Type} `{Period P}.
Variable Decimal_of_str : string -> option Dec.Decimal.
Variable float_repr : float -> string.


End AlignerClaims.

(** ** Orchestrator *)

Section OrchestratorClaims.

Context {P : Type} `{Period P}.
Variable Decimal_of_str : string -> option Dec.Decimal.
Variable float_repr : float -> string.
Variable Ticker : string -> outcome (Statements (P := P)).

Lemma fetch_no_symbol (cname : string) (tr : list event) :
  fetch_yahoo_financials Decimal_of_str float_repr Ticker cname "" tr =
    (Ret [], tr ++ [Print ("[warn] No symbol for " +:+ cname)]).
Proof. reflexivity. Qed.

(** Fetching one company either returns its contribution or raises, and logs
    nothing unless the symbol is empty. *)
Lemma fetch_cases (cname sym : string) (tr : list event) :
  (exists log,
     fetch_yahoo_financials Decimal_of_str float_repr Ticker cname sym tr =
       (Ret (contribution Decimal_of_str float_repr Ticker (cname, sym)),
        tr ++ log)) \/
  (exists e,
     fetch_yahoo_financials Decimal_of_str float_repr Ticker cname sym tr =
       (Raise e, tr) /\
     contribution Decimal_of_str float_repr Ticker (cname, sym) = []).
Proof.
  unfold fetch_yahoo_financials, contribution.
  case_bool_decide as Hsym.
  - left. eexists. reflexivity.
  - unfold mbind, io_mbind, io_bind, lift, mret, io_mret, io_ret.
    destruct (Ticker sym) as [t | e]; [| right; by exists e].
    destruct (build_rows_from_dfs _ _ _ _ (quarterly_financials t) _ _ _)
      as [recs_q | e]; [| right; by exists e].
    destruct (build_rows_from_dfs _ _ _ _ (financials t) _ _ _)
      as [recs_a | e]; [| right; by exists e].
    left. exists []. by rewrite app_nil_r.
Qed.

(** One iteration of the company loop never raises and adds exactly the
    company's contribution. *)
Lemma main_step_returns (all_records : list Row) (entry : string * string)
    (tr : list event) :
  exists log,
    main_step Decimal_of_str float_repr Ticker all_records entry tr =
      (Ret (all_records ++ contribution Decimal_of_str float_repr Ticker entry),
       tr ++ log).
Proof.
  destruct entry as [cname sym]. unfold main_step.
  unfold mbind, io_mbind, io_bind, io_try, emit, mret, io_mret, io_ret.
  set (tr1 := tr ++ [Print ("[Yahoo] " +:+ cname +:+ " → " +:+ sym)]).
  destruct (fetch_cases cname sym tr1) as [[log Hfetch] | (e & Hfetch & Hnil)];
    rewrite Hfetch.
  - case_bool_decide; eexists; unfold tr1; rewrite <- !app_assoc; reflexivity.
  - rewrite Hnil, app_nil_r. eexists. unfold tr1. rewrite <- !app_assoc. reflexivity.
Qed.

Lemma main_loop_returns (entries : list (string * string)) (all_records : list Row)
    (tr : list event) :
  exists log,
    main_loop Decimal_of_str float_repr Ticker all_records entries tr =
      (Ret (all_records ++
              mjoin (contribution Decimal_of_str float_repr Ticker <$> entries)),
       tr ++ log).
Proof.
  revert all_records tr. induction entries as [| entry rest IH]; intros all_records tr.
  - exists []. simpl. by rewrite !app_nil_r.
  - cbn [main_loop]. unfold mbind, io_mbind, io_bind.
    destruct (main_step_returns all_records entry tr) as [log1 ->].
    destruct (IH (all_records ++ contribution Decimal_of_str float_repr Ticker entry)
                (tr ++ log1)) as [log2 Hrest].
    fold (@mbind io _) in *. unfold mbind, io_mbind, io_bind in Hrest.
    exists (log1 ++ log2). rewrite Hrest. cbn [fmap list_fmap mjoin list_join].
    by rewrite <- !app_assoc.
Qed.

(** C9. For every run over a company-to-symbol mapping: a company with an
    empty symbol contributes no row after a warning; an exception raised
    while fetching or processing one company's data is caught in the company
    loop, so the remaining companies are still processed: every iteration
    returns, adding the company's contribution, which is empty when the data
    source or either builder call raises, and the quarterly rows followed by
    the annual rows otherwise; the run itself never raises and always writes
    the aggregate of the contributions. *)
Theorem run_survives_company_failures (symbol_map : list (string * string))
    (tr : list event) :
  (forall cname tr',
     fetch_yahoo_financials Decimal_of_str float_repr Ticker cname "" tr' =
       (Ret [], tr' ++ [Print ("[warn] No symbol for " +:+ cname)])) /\
  (forall all_records entry tr',
     exists log,
       main_step Decimal_of_str float_repr Ticker all_records entry tr' =
         (Ret (all_records ++ contribution Decimal_of_str float_repr Ticker entry),
          tr' ++ log)) /\
  (forall cname sym e,
     sym <> "" -> Ticker sym = Raise e ->
     contribution Decimal_of_str float_repr Ticker (cname, sym) = []) /\
  (forall cname sym t e,
     sym <> "" -> Ticker sym = Ret t ->
     build_rows_from_dfs Decimal_of_str float_repr cname sym
       (quarterly_financials t) (quarterly_balance_sheet t)
       (quarterly_cashflow t) "Quarter" = Raise e \/
     build_rows_from_dfs Decimal_of_str float_repr cname sym
       (financials t) (balance_sheet t) (cashflow t) "Annual" = Raise e ->
     contribution Decimal_of_str float_repr Ticker (cname, sym) = []) /\
  (forall cname sym t recs_q recs_a,
     sym <> "" -> Ticker sym = Ret t ->
     build_rows_from_dfs Decimal_of_str float_repr cname sym
       (quarterly_financials t) (quarterly_balance_sheet t)
       (quarterly_cashflow t) "Quarter" = Ret recs_q ->
     build_rows_from_dfs Decimal_of_str float_repr cname sym
       (financials t) (balance_sheet t) (cashflow t) "Annual" = Ret recs_a ->
     contribution Decimal_of_str float_repr Ticker (cname, sym) = recs_q ++ recs_a) /\
  (exists log,
     main_over Decimal_of_str float_repr Ticker symbol_map tr =
       (Ret tt,
        tr ++ log ++
          [WriteOutputs
             (mjoin (contribution Decimal_of_str float_repr Ticker <$> symbol_map));
           Print "Wrote:"; Print "- data/yahoo_finance.jsonl";
           Print "- data/yahoo_finance.csv"])).
Proof.
  split; [apply fetch_no_symbol |]. split; [apply main_step_returns |].
  split; [| split; [| split]].
  - intros cname sym e Hsym He. unfold contribution.
    rewrite bool_decide_eq_false_2 by done. by rewrite He.
  - intros cname sym t e Hsym Ht Hbuild. unfold contribution.
    rewrite bool_decide_eq_false_2 by done. rewrite Ht.
    destruct Hbuild as [-> | ->]; [done |].
    by destruct (build_rows_from_dfs _ _ _ _ (quarterly_financials t) _ _ _).
  - intros cname sym t recs_q recs_a Hsym Ht Hq Ha. unfold contribution.
    rewrite bool_decide_eq_false_2 by done. by rewrite Ht, Hq, Ha.
  - unfold main_over. unfold mbind, io_mbind, io_bind.
    destruct (main_loop_returns symbol_map [] tr) as [log ->].
    exists log. unfold write_outputs, mbind, io_mbind, io_bind, emit.
    cbn [app]. by rewrite <- !app_assoc.
Qed.

End OrchestratorClaims.

(** ** Worked examples *)

(** The primitives on a few values: a text that does not parse and the
    sentinels give null; division by zero or by null gives null;
    [_fmt] rounds half even, and a negative value that rounds to zero is
    stored as the float [-0.0]. *)
Example ex_to_dec_safe_values :
  _to_dec_safe plain_numeral (Text "100.4") = Ret (Some (502 # 5)%Q) /\
  _to_dec_safe plain_numeral (Text "n/a") = Ret None /\
  _to_dec_safe plain_numeral (Text "None") = Ret None /\
  _to_dec_safe plain_numeral (Text "") = Ret None /\
  _to_dec_safe plain_numeral Missing = Ret None.
Proof. repeat split; vm_compute; reflexivity. Qed.

Example ex_div_values :
  _div (Some 1%Q) (Some 4%Q) = Ret (Some (1 # 4)%Q) /\
  _div (Some 1%Q) (Some 0%Q) = Ret None /\
  _div (Some 1%Q) None = Ret None /\
  _div None (Some 4%Q) = Ret None.
Proof. repeat split; vm_compute; reflexivity. Qed.

Example ex_fmt_values :
  _fmt (Some (1 # 3)%Q) 4 = Ret (Some (Flt.of_Q (3333 # 10000))) /\
  _fmt (Some (1 # 8)%Q) 2 = Ret (Some (Flt.of_Q (12 # 100))) /\
  _fmt (Some (3 # 8)%Q) 2 = Ret (Some (Flt.of_Q (38 # 100))) /\
  _fmt (Some (- 1 # 1000)%Q) 2 = Ret (Some (-0)%float) /\
  _fmt (Some (1 # 4)%Q) 2 = Ret (Some 0.25%float) /\
  _fmt None 2 = Ret None.
Proof. repeat split; vm_compute; reflexivity. Qed.

(** [round] on floats rounds the exact binary value: the float nearest to
    2.675 lies below it and rounds down, 0.125 is a tie and goes to the even
    digit. *)
Example ex_float_round_values :
  Flt.round (Flt.of_Q (2675 # 1000)) 2 = Flt.of_Q (267 # 100) /\
  Flt.round 0.125 2 = Flt.of_Q (12 # 100) /\
  Flt.round 0.375 2 = Flt.of_Q (38 # 100) /\
  growth_pct 110 100 = Ret 10%float /\
  growth_pct 1 3 = Ret (Flt.of_Q (- 6667 # 100)) /\
  growth_pct 1 0 = Raise ZeroDivisionError.
Proof. repeat split; vm_compute; reflexivity. Qed.

(** The key of the year before: only the first four characters are read as a
    number. *)
Example ex_yoy_key_values :
  yoy_key "2024-03-31" = Ret "2023-03-31" /\
  yoy_key "2023-12" = Ret "2022-12" /\
  yoy_key "Q1 2024" = Raise ValueError /\
  yoy_key "" = Raise ValueError.
Proof. repeat split; vm_compute; reflexivity. Qed.

Example ex_rows_built :
  build_rows_from_dfs plain_numeral no_repr "ACME" "ACM"
    ex_income ex_balance ex_cashflow "Quarter" = Ret ex_rows /\
  fiscalDate <$> ex_rows = ["2024-03-31"; "2023-12-31"; "2023-03-31"].
Proof. split; vm_compute; reflexivity. Qed.

(** The scenarios of the specification, on the newest row: margins 40 and 10,
    current ratio 0.8 and free cash flow -20 with their flags, and revenue
    growth of 10 against the previous quarter. *)
Example ex_newest_row :
  metrics (ex_row 0) !! "grossMargin_pct" = Some (VFloat 40) /\
  metrics (ex_row 0) !! "netMargin_pct" = Some (VFloat 10) /\
  metrics (ex_row 0) !! "currentRatio" = Some (VFloat (Flt.of_Q (8 # 10))) /\
  metrics (ex_row 0) !! "freeCashFlow" = Some (VFloat (-20)) /\
  metrics (ex_row 0) !! "distressFlags"
    = Some (VList ["current_ratio_lt_1"; "negative_fcf"]) /\
  metrics (ex_row 0) !! "totalRevenue_QoQ_growth_pct" = Some (VFloat 10) /\
  metrics (ex_row 0) !! "totalDebt" = Some (VFloat 7).
Proof. repeat split; vm_compute; reflexivity. Qed.

(** A missing numerator, an unreadable one and a zero denominator all give
    null, and a growth field that cannot be computed is absent. *)
Example ex_older_rows :
  metrics (ex_row 1) !! "grossMargin_pct" = Some VNone /\
  metrics (ex_row 1) !! "currentRatio" = Some VNone /\
  metrics (ex_row 2) !! "grossMargin_pct" = Some VNone /\
  metrics (ex_row 2) !! "totalRevenue" = Some (VFloat (Flt.of_Q (1004 # 10))) /\
  metrics (ex_row 2) !! "totalRevenue_QoQ_growth_pct" = None /\
  metrics (ex_row 1) !! "totalRevenue_YoY_growth_pct" = None /\
  metrics (ex_row 0) !! "netIncome_YoY_growth_pct" = None.
Proof. repeat split; vm_compute; reflexivity. Qed.

(** A value too large to round to two decimals within the context precision
    makes the builder raise. *)
Example ex_huge_value_raises :
  build_rows_from_dfs plain_numeral no_repr "ACME" "ACM"
    {[ "Revenue" := {[ Q1_2024 := Num (inject_Z (10 ^ 26)) ]} ]} ∅ ∅ "Annual"
  = Raise InvalidOperation.
Proof. vm_compute. reflexivity. Qed.

(** C10. The growth percentages are computed from the values stored in the
    rows, which are the raw decimals rounded to 2 digits and converted to
    floats, not from the raw decimals: every built row stores
    [_fmt(raw, 2)] under totalRevenue and netIncome, both growth fields are
    the growth figure of the stored values of the two rows, and there are
    inputs for which the stored growth differs from
    (rawCurr - rawPrev) / rawPrev * 100 on the unrounded decimals, even once
    that is rounded to 2 digits. *)
Theorem growth_uses_stored_values :
  (forall (P : Type) `(Period P) (Decimal_of_str : string -> option Dec.Decimal)
      (float_repr : float -> string) (cname sym : string)
      (inc_df bal_df cf_df : gmap string (gmap P cell)) (freq_label : string)
      (out : list Row) (i : nat) (row : Row) (k : string),
     build_rows_from_dfs Decimal_of_str float_repr cname sym inc_df bal_df cf_df
       freq_label = Ret out ->
     out !! i = Some row ->
     k ∈ growth_keys ->
     (exists d r v,
        aligned_dates (resolve inc_df bal_df cf_df) !! i = Some d /\
        raw_values Decimal_of_str (resolve inc_df bal_df cf_df) d = Ret r /\
        _fmt (raw_input k r) 2 = Ret v /\
        metrics row !! k = Some (stored v)) /\
     metrics row !! (k +:+ "_QoQ_growth_pct") =
       match out !! (i + 1) with
       | Some prev =>
           VFloat <$> growth_value (py_get (metrics row) k) (py_get (metrics prev) k)
       | None => None
       end /\
     metrics row !! (k +:+ "_YoY_growth_pct") =
       match yoy_key (fiscalDate row) with
       | Ret key =>
           match last_dated key out ≫= (fun j => out !! j) with
           | Some prev_y =>
               VFloat <$> growth_value (py_get (metrics row) k)
                            (py_get (metrics prev_y) k)
           | None => None
           end
       | Raise _ => None
       end) /\
  (exists out row g stored_growth q raw_growth raw_growth_2,
     build_rows_from_dfs plain_numeral no_repr "ACME" "ACM"
       ex_income_fine ∅ ∅ "Quarter" = Ret out /\
     out !! 0 = Some row /\
     metrics row !! "totalRevenue_QoQ_growth_pct" = Some (VFloat g) /\
     Flt.to_Q g = Some stored_growth /\
     Dec.truediv (Dec.sub (1004 # 1000)%Q 1%Q) 1%Q = Ret q /\
     raw_growth = Dec.mul q Dec.hundred /\
     Dec.quantize raw_growth 2 = Ret raw_growth_2 /\
     ~ (stored_growth == raw_growth)%Q /\
     ~ (stored_growth == raw_growth_2)%Q).
Proof.
  split.
  - intros P EqP CountP PerP Decimal_of_str float_repr cname sym inc_df bal_df cf_df
      freq_label out i row k Hout Hrow Hk.
    split; [| by apply (built_growth Decimal_of_str float_repr cname sym
                          inc_df bal_df cf_df freq_label out i row k)].
    destruct (built_row _ _ _ _ _ _ _ _ _ _ _ Hout Hrow)
      as (orig & d & r & m & flags & row0 & _ & Hb).
    assert (Hlook : metrics row !! k = m !! k).
    { eapply built_lookup; [exact Hb |]. by apply growth_key_is_field. }
    destruct Hb as [Hd Hr Hm _ _ _ _ _].
    destruct (base_metrics_plain r _ m Hm) as ((v1 & Hv1 & Hm1) & (v2 & Hv2 & Hm2) & _).
    exists d, r. unfold raw_input.
    apply growth_keys_cases in Hk as [-> | ->].
    + exists v1. rewrite Hlook. by rewrite bool_decide_eq_true_2.
    + exists v2. rewrite Hlook. by rewrite bool_decide_eq_false_2.
  - exists ex_rows_fine, (default empty_row (ex_rows_fine !! 0)), 0%float, 0%Q,
      (1 # 250)%Q, (2 # 5)%Q, (2 # 5)%Q.
    split; [vm_compute; reflexivity |].
    split; [vm_compute; reflexivity |].
    split; [vm_compute; reflexivity |].
    split; [vm_compute; reflexivity |].
    split; [vm_compute; reflexivity |].
    split; [vm_compute; reflexivity |].
    split; [vm_compute; reflexivity |].
    split; by vm_compute.
Qed.

(** The stored growth of the example above is zero although revenue grew by
    0.4 percent. *)
Example ex_fine_growth_lost :
  metrics (default empty_row (ex_rows_fine !! 0))
    !! "totalRevenue_QoQ_growth_pct" = Some (VFloat 0) /\
  Dec.mul (Dec.fix_prec (((1004 # 1000) - 1) / 1)%Q) Dec.hundred = (2 # 5)%Q.
Proof. split; vm_compute; reflexivity. Qed.

(** ** The theorems at the worked example *)

Lemma ex_rows_are_built :
  build_rows_from_dfs plain_numeral no_repr "ACME" "ACM"
    ex_income ex_balance ex_cashflow "Quarter" = Ret ex_rows.
Proof. vm_compute. reflexivity. Qed.

Lemma ex_row_lookup (i : nat) : i < 3 -> ex_rows !! i = Some (ex_row i).
Proof.
  intros Hi. destruct i as [| [| [| i]]]; [vm_compute; reflexivity .. | lia].
Qed.

(** Discharges the hypotheses of a row theorem at row [i] of the example. *)
Ltac at_example_row thm i :=
  let Hbuild := fresh "Hbuild" in
  let Hrow := fresh "Hrow" in
  assert (Hbuild : build_rows_from_dfs plain_numeral no_repr "ACME" "ACM"
                     ex_income ex_balance ex_cashflow "Quarter" = Ret ex_rows)
    by exact ex_rows_are_built;
  assert (Hrow : ex_rows !! i = Some (ex_row i)) by (apply ex_row_lookup; lia);
  split; [exact Hbuild |]; split; [exact Hrow |];
  pose proof (thm Timestamp _ _ _ plain_numeral no_repr "ACME" "ACM"
                ex_income ex_balance ex_cashflow "Quarter" ex_rows i (ex_row i)
                Hbuild Hrow) as H.




Lemma distress_flags_spec_witness :
  build_rows_from_dfs plain_numeral no_repr "ACME" "ACM"
    ex_income ex_balance ex_cashflow "Quarter" = Ret ex_rows /\
  ex_rows !! 0 = Some (ex_row 0) /\
  exists flags,
    metrics (ex_row 0) !! "distressFlags" = Some (VList flags) /\
    ("current_ratio_lt_1" ∈ flags <->
       exists f, metrics (ex_row 0) !! "currentRatio" = Some (VFloat f) /\
                 PrimFloat.ltb f 1 = true) /\
    (forall x, x ∈ flags ->
       x ∈ ["current_ratio_lt_1"; "negative_fcf"; "high_debt_to_equity"]).
Proof.
  at_example_row @distress_flags_spec 0.
  destruct H as (d & r & flags & _ & _ & Hflags & Hcr & _ & _ & Hall & _).
  exists flags. exact (conj Hflags (conj Hcr Hall)).
Defined.



(** The year-over-year field of the example's newest row. *)
Example ex_yoy_growth :
  metrics (ex_row 0) !! "totalRevenue_YoY_growth_pct"
    = Some (VFloat (Flt.of_Q (956 # 100))).
Proof. vm_compute. reflexivity. Qed.


(** * Further properties *)

(** ** Field resolver *)

Section ResolverFacts.

Context {P : Type} `{Period P}.

Lemma get_first_ext (df df' : gmap string (gmap P cell)) (name_list : list string) :
  (forall n, n ∈ name_list -> df !! n = df' !! n) ->
  get_first df name_list = get_first df' name_list.
Proof.
  induction name_list as [| n rest IH]; intros Hagree; simpl; [done |].
  rewrite <- (Hagree n (list_elem_of_here _ _)).
  destruct (df !! n); [done |]. apply IH. intros n' Hn'. apply Hagree.
  by apply list_elem_of_further.
Qed.

(** X1. [get_first] returns the series of the first alias, in the order of
    the list, that labels a row of the table; it returns null exactly when
    no alias of the list labels a row. *)
Theorem get_first_first_alias_wins (df : gmap string (gmap P cell))
    (name_list : list string) :
  (get_first df name_list = None <-> forall n, n ∈ name_list -> df !! n = None) /\
  (forall s,
     get_first df name_list = Some s <->
     exists i n,
       name_list !! i = Some n /\ df !! n = Some s /\
       forall j n', j < i -> name_list !! j = Some n' -> df !! n' = None).
Proof.
  induction name_list as [| n rest [IHnone IHsome]]; simpl.
  { split.
    - split; [intros _ n Hn; by apply elem_of_nil in Hn | done].
    - intros s. split; [done |]. by intros (i & n & Hi & _). }
  destruct (df !! n) as [s' |] eqn:Hn.
  - split.
    + split; [done |]. intros Hall.
      specialize (Hall n (list_elem_of_here _ _)). congruence.
    + intros s. split.
      * intros [= ->]. exists 0, n. repeat split; [done |]. intros j n' Hj. lia.
      * intros (i & n' & Hi & Hs & Hbefore). destruct i as [| i].
        -- simpl in Hi. congruence.
        -- specialize (Hbefore 0 n ltac:(lia) eq_refl). congruence.
  - split.
    + rewrite IHnone. split.
      * intros Hall n' [-> | Hn']%elem_of_cons; auto.
      * intros Hall n' Hn'. apply Hall. by apply list_elem_of_further.
    + intros s. rewrite IHsome. split.
      * intros (i & n' & Hi & Hs & Hbefore). exists (S i), n'.
        repeat split; [done | done |]. intros [| j] n'' Hj Hlook.
        -- simpl in Hlook. congruence.
        -- apply (Hbefore j); [lia | done].
      * intros (i & n' & Hi & Hs & Hbefore). destruct i as [| i].
        -- simpl in Hi. congruence.
        -- exists i, n'. repeat split; [done | done |]. intros j n'' Hj Hlook.
           apply (Hbefore (S j)); [lia | done].
Qed.

End ResolverFacts.

Section ResolverClaims.

Context {P : Type} `{Period P}.
Variable Decimal_of_str : string -> option Dec.Decimal.
Variable float_repr : float -> string.

(** X2. Rows of the statement tables under labels that no alias names never
    change the result: tables that agree on every alias of their own alias
    table give the same rows, or the same exception. *)
Theorem unlisted_rows_are_ignored (cname sym freq_label : string)
    (inc_df inc_df' bal_df bal_df' cf_df cf_df' : gmap string (gmap P cell)) :
  (forall k names n, INC_FIELDS !! k = Some names -> n ∈ names ->
     inc_df !! n = inc_df' !! n) ->
  (forall k names n, BAL_FIELDS !! k = Some names -> n ∈ names ->
     bal_df !! n = bal_df' !! n) ->
  (forall k names n, CF_FIELDS !! k = Some names -> n ∈ names ->
     cf_df !! n = cf_df' !! n) ->
  build_rows_from_dfs Decimal_of_str float_repr cname sym inc_df bal_df cf_df freq_label
  = build_rows_from_dfs Decimal_of_str float_repr cname sym inc_df' bal_df' cf_df'
      freq_label.
Proof.
  intros Hinc Hbal Hcf.
  assert (Hrs : resolve inc_df bal_df cf_df = resolve inc_df' bal_df' cf_df').
  { unfold resolve.
    f_equal;
      match goal with
      | |- get_first _ (_ !!! ?k) = _ =>
          apply get_first_ext; intros n Hn;
          first [ exact (Hinc k _ n eq_refl Hn)
                | exact (Hbal k _ n eq_refl Hn)
                | exact (Hcf k _ n eq_refl Hn) ]
      end. }
  unfold build_rows_from_dfs. cbv zeta. by rewrite Hrs.
Qed.

End ResolverClaims.

(** ** What a built row holds *)

Lemma append_if_sublist (b : bool) (name : string) (l l' : list string) :
  l `sublist_of` l' -> append_if b name l `sublist_of` l' ++ [name].
Proof.
  intros Hl. unfold append_if. destruct b.
  - by apply sublist_app.
  - rewrite <- (app_nil_r l). apply sublist_app; [done | apply sublist_nil_l].
Qed.

Section RowFieldFacts.

Context {P : Type} `{Period P}.
Variable Decimal_of_str : string -> option Dec.Decimal.
Variable float_repr : float -> string.

(** Everything one iteration of the row loop puts in a row. *)
Lemma build_row_fields (cname sym freq_label : string) (rs : Resolved) (d : P)
    (row : Row) :
  build_row Decimal_of_str float_repr cname sym freq_label rs d = Ret row ->
  exists r m flags text,
    raw_values Decimal_of_str rs d = Ret r /\
    base_metrics r (period_str d) = Ret m /\
    summary_line float_repr cname freq_label (period_str d) r = Ret text /\
    distress_flags m = Ret flags /\
    row = {| company := cname; symbol := sym; freq := freq_label;
             fiscalDate := period_str d;
             metrics := <["distressFlags" := VList flags]> m;
             summary := text; source := "YahooFinance" |}.
Proof.
  intros Hrow. unfold build_row in Hrow. bind_inv Hrow.
  apply Ret_inj in Hrow. subst row.
  do 4 eexists. repeat split; first [eassumption | reflexivity].
Qed.

(** The row at position [i] of the builder's result: the row of the row loop
    for the period at position [i], with growth fields added. *)
Lemma built_row_fields (cname sym : string)
    (inc_df bal_df cf_df : gmap string (gmap P cell)) (freq_label : string)
    (out : list Row) (i : nat) (row : Row) :
  build_rows_from_dfs Decimal_of_str float_repr cname sym inc_df bal_df cf_df
    freq_label = Ret out ->
  out !! i = Some row ->
  exists d r m flags text orig,
    aligned_dates (resolve inc_df bal_df cf_df) !! i = Some d /\
    raw_values Decimal_of_str (resolve inc_df bal_df cf_df) d = Ret r /\
    base_metrics r (period_str d) = Ret m /\
    summary_line float_repr cname freq_label (period_str d) r = Ret text /\
    distress_flags m = Ret flags /\
    row = grown (index_by_date 0 orig ∅) orig i
            {| company := cname; symbol := sym; freq := freq_label;
               fiscalDate := period_str d;
               metrics := <["distressFlags" := VList flags]> m;
               summary := text; source := "YahooFinance" |}.
Proof.
  intros Hout Hrow. apply build_rows_inv in Hout as (orig & Hall & ->).
  rewrite list_lookup_imap in Hrow.
  destruct (orig !! i) as [row0 |] eqn:Hrow0; [| done].
  simpl in Hrow. apply (inj Some) in Hrow. subst row.
  destruct (Forall2_lookup_r _ _ _ _ _ Hall Hrow0) as (d & Hd & Hbuild).
  apply build_row_fields in Hbuild as (r & m & flags & text & Hr & Hm & Ht & Hf & ->).
  by exists d, r, m, flags, text, orig.
Qed.

End RowFieldFacts.

(** Replaces the metrics of a row by the literal that built them. *)
Ltac metrics_literal H :=
  unfold base_metrics in H; bind_inv H; apply Ret_inj in H; subst.

Ltac in_list := repeat first [apply list_elem_of_here | apply list_elem_of_further].

Lemma numeric_key_not_added (k : string) :
  k ∈ "fiscalDate" :: numeric_keys -> k ∉ "distressFlags" :: growth_fields.
Proof.
  unfold numeric_keys, growth_fields. intros Hk.
  rewrite !elem_of_cons, elem_of_nil in Hk.
  repeat (destruct Hk as [-> | Hk];
          [rewrite !not_elem_of_cons; repeat split;
           first [done | apply not_elem_of_nil] |]).
  done.
Qed.

Section RowKeyFacts.

Context {P : Type} `{Period P}.

(** The keys of the metrics literal and what they hold. *)
Lemma base_metrics_keys (r : Raw) (ds : string) (m : gmap string pyval) :
  base_metrics r ds = Ret m ->
  m !! "fiscalDate" = Some (VStr ds) /\
  (forall k, k ∈ numeric_keys -> exists v, m !! k = Some (stored v)) /\
  (forall k, is_Some (m !! k) -> k ∈ "fiscalDate" :: numeric_keys).
Proof.
  intros Hm. metrics_literal Hm. split; [reflexivity |]. split.
  - intros k Hk. unfold numeric_keys in Hk.
    rewrite !elem_of_cons, elem_of_nil in Hk.
    repeat (destruct Hk as [-> | Hk]; [eexists; reflexivity |]). done.
  - intros k [v Hk]. apply elem_of_list_to_map_2 in Hk.
    rewrite !elem_of_cons, elem_of_nil in Hk.
    repeat (destruct Hk as [Hk | Hk];
            [apply (f_equal fst) in Hk; simpl in Hk; subst k;
             unfold numeric_keys; in_list |]).
    done.
Qed.

(** Each plain monetary key holds its raw value formatted to 2 digits. *)
Lemma base_metrics_plain_fields (r : Raw) (ds : string) (m : gmap string pyval)
    (k : string) (get : Raw -> option Dec.Decimal) :
  base_metrics r ds = Ret m ->
  (k, get) ∈ plain_fields ->
  exists v, _fmt (get r) 2 = Ret v /\ m !! k = Some (stored v).
Proof.
  intros Hm Hk. metrics_literal Hm. unfold plain_fields in Hk.
  rewrite !elem_of_cons, elem_of_nil in Hk.
  repeat (destruct Hk as [[= -> ->] | Hk];
          [eexists; split; [eassumption | reflexivity] |]).
  done.
Qed.

Lemma plain_field_is_numeric (k : string) (get : Raw -> option Dec.Decimal) :
  (k, get) ∈ plain_fields -> k ∈ numeric_keys.
Proof.
  unfold plain_fields. rewrite !elem_of_cons, elem_of_nil. intros Hk.
  repeat (destruct Hk as [[= -> _] | Hk]; [unfold numeric_keys; in_list |]).
  done.
Qed.

End RowKeyFacts.

Section RowClaims.

Context {P : Type} `{Period P}.
Variable Decimal_of_str : string -> option Dec.Decimal.
Variable float_repr : float -> string.

(** X6. Every row built carries the company, symbol and frequency label it
    was built for, the text of its period, the source "YahooFinance", and a
    metrics mapping with a fixed shape: the period text under fiscalDate, a
    number or null under each of the 22 numeric keys, a list under
    distressFlags, and no key besides these and the four growth fields. *)
Theorem built_row_schema (cname sym : string)
    (inc_df bal_df cf_df : gmap string (gmap P cell)) (freq_label : string)
    (out : list Row) (i : nat) (row : Row) :
  build_rows_from_dfs Decimal_of_str float_repr cname sym inc_df bal_df cf_df
    freq_label = Ret out ->
  out !! i = Some row ->
  exists d,
    aligned_dates (resolve inc_df bal_df cf_df) !! i = Some d /\
    company row = cname /\ symbol row = sym /\ freq row = freq_label /\
    fiscalDate row = period_str d /\ source row = "YahooFinance" /\
    metrics row !! "fiscalDate" = Some (VStr (period_str d)) /\
    (forall k, k ∈ numeric_keys ->
       metrics row !! k = Some VNone \/ exists f, metrics row !! k = Some (VFloat f)) /\
    (exists flags, metrics row !! "distressFlags" = Some (VList flags)) /\
    (forall k, is_Some (metrics row !! k) ->
       k ∈ "fiscalDate" :: numeric_keys ++ "distressFlags" :: growth_fields).
Proof.
  intros Hout Hrow.
  destruct (built_row_fields _ _ _ _ _ _ _ _ _ _ _ Hout Hrow)
    as (d & r & m & flags & text & orig & Hd & Hr & Hm & Ht & Hf & ->).
  exists d. do 6 (split; [done |]).
  destruct (base_metrics_keys r _ m Hm) as (Hdate & Hnum & Hkeys).
  assert (Hbase : forall k, k ∈ "fiscalDate" :: numeric_keys ->
            metrics (grown (index_by_date 0 orig ∅) orig i
                       {| company := cname; symbol := sym; freq := freq_label;
                          fiscalDate := period_str d;
                          metrics := <["distressFlags" := VList flags]> m;
                          summary := text; source := "YahooFinance" |}) !! k
            = m !! k).
  { intros k Hk. apply numeric_key_not_added, not_elem_of_cons in Hk as [Hne Hg].
    rewrite grown_lookup_other by done. simpl. by rewrite lookup_insert_ne. }
  split; [| split; [| split]].
  - rewrite Hbase by apply list_elem_of_here. done.
  - intros k Hk. rewrite Hbase by by apply list_elem_of_further.
    destruct (Hnum k Hk) as [v ->].
    destruct (stored_cases v) as [-> | [f ->]]; [by left | right; by exists f].
  - exists flags. rewrite grown_lookup_other by not_growth_field. simpl.
    by rewrite lookup_insert_eq.
  - intros k Hk. rewrite elem_of_cons, elem_of_app, elem_of_cons.
    destruct (decide (k ∈ growth_fields)) as [Hg | Hg]; [tauto |].
    rewrite grown_lookup_other in Hk by done. simpl in Hk.
    destruct (decide (k = "distressFlags")) as [-> | Hne]; [tauto |].
    rewrite lookup_insert_ne in Hk by done.
    apply Hkeys, elem_of_cons in Hk. tauto.
Qed.

(** X7. The distress flags of a row built are always a list, never null, in
    the fixed order current_ratio_lt_1, negative_fcf, high_debt_to_equity,
    each at most once. *)
Theorem distress_flags_in_fixed_order (cname sym : string)
    (inc_df bal_df cf_df : gmap string (gmap P cell)) (freq_label : string)
    (out : list Row) (i : nat) (row : Row) :
  build_rows_from_dfs Decimal_of_str float_repr cname sym inc_df bal_df cf_df
    freq_label = Ret out ->
  out !! i = Some row ->
  exists flags,
    metrics row !! "distressFlags" = Some (VList flags) /\
    flags `sublist_of` flag_names /\ NoDup flags.
Proof.
  intros Hout Hrow.
  destruct (built_row_fields _ _ _ _ _ _ _ _ _ _ _ Hout Hrow)
    as (d & r & m & flags & text & orig & Hd & Hr & Hm & Ht & Hf & ->).
  exists flags. split.
  { rewrite grown_lookup_other by not_growth_field. simpl.
    by rewrite lookup_insert_eq. }
  rewrite (distress_flags_base r _ m Hm) in Hf. apply Ret_inj in Hf. subst flags.
  assert (Hsub : forall b1 b2 b3,
            append_if b3 "high_debt_to_equity"
              (append_if b2 "negative_fcf" (append_if b1 "current_ratio_lt_1" []))
            `sublist_of` flag_names).
  { intros b1 b2 b3.
    apply (append_if_sublist b3 _ _ ["current_ratio_lt_1"; "negative_fcf"]).
    apply (append_if_sublist b2 _ _ ["current_ratio_lt_1"]).
    apply (append_if_sublist b1 _ [] []). done. }
  split; [apply Hsub |].
  eapply sublist_NoDup; [| apply Hsub].
  unfold flag_names. rewrite !NoDup_cons, !elem_of_cons, !elem_of_nil.
  repeat split; try (intuition discriminate). apply NoDup_nil_2.
Qed.

(** X4. In every row built, each of the thirteen plain monetary keys holds
    its own raw value formatted to 2 digits, and is null exactly when that
    raw value is null. *)
Theorem plain_fields_hold_rounded_raw_values (cname sym : string)
    (inc_df bal_df cf_df : gmap string (gmap P cell)) (freq_label : string)
    (out : list Row) (i : nat) (row : Row) :
  build_rows_from_dfs Decimal_of_str float_repr cname sym inc_df bal_df cf_df
    freq_label = Ret out ->
  out !! i = Some row ->
  exists d r,
    aligned_dates (resolve inc_df bal_df cf_df) !! i = Some d /\
    raw_values Decimal_of_str (resolve inc_df bal_df cf_df) d = Ret r /\
    forall k get, (k, get) ∈ plain_fields ->
      (is_null row k <-> get r = None) /\
      exists v, _fmt (get r) 2 = Ret v /\ metrics row !! k = Some (stored v).
Proof.
  intros Hout Hrow.
  destruct (built_row_fields _ _ _ _ _ _ _ _ _ _ _ Hout Hrow)
    as (d & r & m & flags & text & orig & Hd & Hr & Hm & Ht & Hf & ->).
  exists d, r. split; [done |]. split; [done |]. intros k get Hk.
  destruct (base_metrics_plain_fields r _ m k get Hm Hk) as (v & Hv & Hmv).
  assert (Hlook : metrics (grown (index_by_date 0 orig ∅) orig i
                    {| company := cname; symbol := sym; freq := freq_label;
                       fiscalDate := period_str d;
                       metrics := <["distressFlags" := VList flags]> m;
                       summary := text; source := "YahooFinance" |}) !! k
                  = Some (stored v)).
  { apply plain_field_is_numeric in Hk.
    apply (list_elem_of_further _ "fiscalDate"), numeric_key_not_added,
      not_elem_of_cons in Hk as [Hne Hg].
    rewrite grown_lookup_other by done. simpl. by rewrite lookup_insert_ne. }
  split; [| by exists v].
  unfold is_null. rewrite Hlook. rewrite <- (fmt_None_iff (get r) 2 v Hv).
  rewrite <- stored_None. split; [by intros [= ->] | by intros ->].
Qed.

(** X8. The summary text of a row built shows the company, the frequency
    label, the period text and the very values stored under totalRevenue,
    netIncome, grossMargin_pct and netMargin_pct, null printed as None. *)
Theorem summary_shows_stored_values (cname sym : string)
    (inc_df bal_df cf_df : gmap string (gmap P cell)) (freq_label : string)
    (out : list Row) (i : nat) (row : Row) :
  build_rows_from_dfs Decimal_of_str float_repr cname sym inc_df bal_df cf_df
    freq_label = Ret out ->
  out !! i = Some row ->
  exists v_rev v_ni v_gm v_nm,
    metrics row !! "totalRevenue" = Some (stored v_rev) /\
    metrics row !! "netIncome" = Some (stored v_ni) /\
    metrics row !! "grossMargin_pct" = Some (stored v_gm) /\
    metrics row !! "netMargin_pct" = Some (stored v_nm) /\
    summary row =
      cname +:+ " " +:+ freq_label +:+ " " +:+ fiscalDate row
      +:+ ": Rev=" +:+ show float_repr v_rev +:+ ", NI=" +:+ show float_repr v_ni
      +:+ ", GM%=" +:+ show float_repr v_gm +:+ ", NM%=" +:+ show float_repr v_nm.
Proof.
  intros Hout Hrow.
  destruct (built_row_fields _ _ _ _ _ _ _ _ _ _ _ Hout Hrow)
    as (d & r & m & flags & text & orig & Hd & Hr & Hm & Ht & Hf & ->).
  destruct (base_metrics_plain r _ m Hm) as ((v1 & Hv1 & Hm1) & (v2 & Hv2 & Hm2) & _).
  destruct (base_metrics_ratios r _ m Hm)
    as ((q1 & w1 & Hq1 & Hw1 & Hm3) & (q2 & w2 & Hq2 & Hw2 & Hm4) & _).
  exists v1, v2, w1, w2.
  rewrite !grown_lookup_other by not_growth_field. simpl.
  rewrite !lookup_insert_ne by done.
  do 4 (split; [done |]).
  unfold summary_line in Ht.
  rewrite Hv1, Ret_bind, Hv2, Ret_bind, Hq1, Ret_bind, Hw1, Ret_bind,
    Hq2, Ret_bind, Hw2, Ret_bind in Ht.
  by apply Ret_inj in Ht.
Qed.

End RowClaims.

Section CellClaims.

Context {P : Type} `{Period P}.
Variable Decimal_of_str : string -> option Dec.Decimal.

Lemma val_Some_iff (s : option (gmap P cell)) (d : P) :
  exists x,
    val Decimal_of_str s d = Ret x /\
    forall q, x = Some q <->
      exists ser c, s = Some ser /\ ser !! d = Some c /\ cell_holds Decimal_of_str c q.
Proof.
  unfold val, cell_holds. destruct s as [ser |].
  2: { exists None. split; [done |]. intros q. split; [done |].
       by intros (ser & c & [=] & _). }
  destruct (ser !! d) as [c |] eqn:Hc.
  2: { exists None. split; [done |]. intros q. split; [done |].
       intros (ser' & c & [= <-] & Hc' & _). congruence. }
  destruct c as [| q0 | t].
  - exists None. split; [done |]. intros q. split; [done |].
    intros (ser' & c & [= <-] & Hc' & [Hn | (t & Ht & _)]); congruence.
  - exists (Some q0). split; [done |]. intros q. split.
    + intros [= <-]. exists ser, (Num q0). auto.
    + intros (ser' & c & [= <-] & Hc' & [Hn | (t & Ht & _)]); congruence.
  - unfold _to_dec_safe, in_sentinels, Decimal_of, try_except.
    destruct (bool_decide (t = "")) eqn:He; simpl.
    { apply bool_decide_eq_true in He. exists None. split; [done |].
      intros q. split; [done |].
      intros (ser' & c & [= <-] & Hc' & [Hn | (t' & Ht & Hne & _)]); congruence. }
    destruct (bool_decide (t = "None")) eqn:Hn; simpl.
    { apply bool_decide_eq_true in Hn. exists None. split; [done |].
      intros q. split; [done |].
      intros (ser' & c & [= <-] & Hc' & [Hq | (t' & Ht & _ & Hne & _)]); congruence. }
    apply bool_decide_eq_false in He, Hn.
    destruct (Decimal_of_str t) as [q0 |] eqn:Hq; simpl.
    + exists (Some q0). split; [done |]. intros q. split.
      * intros [= <-]. exists ser, (Text t). split; [done |]. split; [done |].
        right. by exists t.
      * intros (ser' & c & [= <-] & Hc' & [Hnum | (t' & Ht & _ & _ & Hq')]);
          congruence.
    + exists None. split; [done |]. intros q. split; [done |].
      intros (ser' & c & [= <-] & Hc' & [Hnum | (t' & Ht & _ & _ & Hq')]);
        congruence.
Qed.

(** X3. Reading the thirteen raw values of a period never raises, and a raw
    value is the decimal [q] exactly when its series was resolved, has a
    cell at the period, and that cell is the number [q] or a text that is
    neither empty nor "None" and reads as [q]; an unresolved series, a
    missing period, a NaN, a sentinel and an unreadable text all give
    null. *)
Theorem raw_values_read_usable_cells (rs : Resolved) (d : P) :
  exists r,
    raw_values Decimal_of_str rs d = Ret r /\
    forall ser get, (ser, get) ∈ raw_sources ->
      forall q, get r = Some q <->
        exists s c, ser rs = Some s /\ s !! d = Some c /\
                    cell_holds Decimal_of_str c q.
Proof.
  unfold raw_values.
  repeat match goal with
         | |- context [val Decimal_of_str ?s d ≫= _] =>
             let x := fresh "x" in
             let Hx := fresh "Hx" in
             destruct (val_Some_iff s d) as (x & -> & Hx); rewrite Ret_bind
         end.
  eexists. split; [reflexivity |].
  intros ser get Hin. unfold raw_sources in Hin.
  rewrite !elem_of_cons, elem_of_nil in Hin.
  repeat (destruct Hin as [[= -> ->] | Hin]; [simpl; assumption |]).
  done.
Qed.

End CellClaims.

(** ** The digit limit of [_fmt] *)

Section DigitLimit.

Local Open Scope Z_scope.

(** A value half way between two integers goes to the even one. *)
Lemma round_half_even_tie (n : Z) (d : positive) :
  2 * Z.abs (Dec.round_half_even (n # d) * Z.pos d - n) = Z.pos d ->
  Z.even (Dec.round_half_even (n # d)) = true.
Proof.
  unfold Dec.round_half_even. simpl.
  pose proof (Z.div_mod n (Z.pos d) ltac:(lia)) as Hdiv.
  pose proof (Z.mod_pos_bound n (Z.pos d) ltac:(lia)) as Hmod.
  destruct (2 * (n mod Z.pos d) <? Z.pos d) eqn:Hlt.
  - apply Z.ltb_lt in Hlt. lia.
  - apply Z.ltb_ge in Hlt.
    destruct (Z.pos d <? 2 * (n mod Z.pos d)) eqn:Hgt.
    + apply Z.ltb_lt in Hgt. lia.
    + intros _. destruct (Z.even (n / Z.pos d)) eqn:Hev; [done |].
      rewrite Z.even_add, Hev. reflexivity.
Qed.

(** The rounded value stays below an even bound exactly when the value
    stays below the bound less one half. *)
Lemma round_half_even_below (n : Z) (d : positive) (N : Z) :
  Z.even N = true -> 0 < N ->
  Z.abs (Dec.round_half_even (n # d)) < N <-> 2 * Z.abs n < (2 * N - 1) * Z.pos d.
Proof.
  intros HN Hpos.
  pose proof (round_half_even_Z n d) as Hnear.
  pose proof (round_half_even_tie n d) as Htie.
  set (z := Dec.round_half_even (n # d)) in *.
  split.
  - intros Hz.
    destruct (Z_lt_le_dec (2 * Z.abs n) ((2 * N - 1) * Z.pos d)) as [| Hge]; [done |].
    exfalso.
    assert (Habs : Z.abs z = N - 1) by nia.
    assert (Hev : Z.even z = true) by (apply Htie; nia).
    assert (Hodd : Z.even (N - 1) = false).
    { rewrite Z.even_sub, HN. reflexivity. }
    destruct (Z.abs_spec z) as [[_ Hz'] | [_ Hz']].
    + rewrite Hz' in Habs. rewrite Habs in Hev. congruence.
    + assert (Hz'' : z = - (N - 1)) by lia.
      rewrite Hz'', Z.even_opp in Hev. congruence.
  - intros Hn. nia.
Qed.

End DigitLimit.

Lemma quantize_fits_iff (x : Dec.Decimal) (nd : Z) :
  returns (Dec.quantize x nd) <->
  (Qabs x * Dec.pow10 nd < inject_Z (10 ^ Dec.prec) - (1 # 2))%Q.
Proof.
  unfold Dec.quantize.
  set (y := Qred (x * Dec.pow10 nd)).
  assert (Hy : (y == x * Dec.pow10 nd)%Q) by apply Qred_correct.
  assert (Habs : (Qabs x * Dec.pow10 nd == Qabs y)%Q).
  { rewrite Hy, Qabs_Qmult.
    rewrite (Qabs_pos (Dec.pow10 nd)); [reflexivity |].
    apply Qlt_le_weak, pow10_pos. }
  rewrite Habs. clear Habs Hy. destruct y as [n d].
  pose proof (round_half_even_below n d (10 ^ Dec.prec) eq_refl eq_refl) as Hlim.
  set (z := Dec.round_half_even (n # d)) in *.
  assert (Hq : (Qabs (n # d) < inject_Z (10 ^ Dec.prec) - (1 # 2))%Q
               <-> (2 * Z.abs n < (2 * 10 ^ Dec.prec - 1) * Z.pos d)%Z).
  { unfold Qlt, Qminus, Qplus, Qopp, inject_Z, Qabs. cbn [Qnum Qden].
    change (10 ^ Dec.prec)%Z with 10000000000000000000000000000%Z. lia. }
  rewrite Hq, <- Hlim.
  destruct (10 ^ Dec.prec <=? Z.abs z)%Z eqn:Hle.
  - apply Z.leb_le in Hle. split; [by intros [r Hr] | lia].
  - apply Z.leb_gt in Hle. split; [done | intros _; by eexists].
Qed.

Lemma quantize_raises (x : Dec.Decimal) (nd : Z) (e : exn) :
  Dec.quantize x nd = Raise e -> e = InvalidOperation.
Proof. unfold Dec.quantize. case_match; [| done]. by intros [= <-]. Qed.

Lemma fmt_raises (x : option Dec.Decimal) (nd : Z) (e : exn) :
  _fmt x nd = Raise e -> e = InvalidOperation.
Proof.
  destruct x as [d |]; simpl; [| done].
  destruct (Dec.quantize d nd) as [r | e'] eqn:Hq; simpl; [done |].
  intros [= <-]. by apply quantize_raises in Hq.
Qed.

(** X9. [_fmt] returns for a decimal [d] exactly when [|d| * 10^nd] is below
    [10^28 - 1/2], that is when the rounded value has at most 28 digits
    (below about 1e26 at 2 digits); otherwise it raises, and its only
    exception is InvalidOperation.  Null is passed through. *)
Theorem fmt_digit_limit (d : Dec.Decimal) (nd : Z) :
  (returns (_fmt (Some d) nd) <->
   (Qabs d * Dec.pow10 nd < inject_Z (10 ^ 28) - (1 # 2))%Q) /\
  (forall e, _fmt (Some d) nd = Raise e -> e = InvalidOperation) /\
  _fmt None nd = Ret None.
Proof.
  split; [| split; [intros e; apply fmt_raises | done]].
  rewrite <- (quantize_fits_iff d nd). simpl.
  destruct (Dec.quantize d nd) as [r | e]; simpl.
  - split; intros _; by eexists.
  - split; by intros [r Hr].
Qed.

(** ** What the builder can raise *)






Section BuilderExceptions.

Context {P : Type} `{Period P}.
Variable Decimal_of_str : string -> option Dec.Decimal.
Variable float_repr : float -> string.



End BuilderExceptions.

(** ** Values away from the digit limit *)

Section Magnitudes.

Local Open Scope Q_scope.

(** Rounding to the context precision at most doubles a magnitude. *)
Lemma fix_prec_le_double (q : Q) : Qabs (Dec.fix_prec q) <= 2 * Qabs q.
Proof.
  pose proof (Qabs_nonneg q) as Hq0.
  destruct (Qeq_dec q 0) as [Hq | Hq].
  { rewrite (fix_prec_zero q Hq). change (Qabs 0) with 0. lra. }
  pose proof (fix_prec_bound q Hq) as Hnear.
  pose proof (ulp28_le q Hq) as Hu.
  assert (Hp : Dec.pow10 (-27) <= 1) by (by vm_compute).
  set (f := Dec.fix_prec q) in *. clearbody f. unfold Dec.Decimal in f.
  assert (Htri : Qabs f <= Qabs q + Qabs (f - q)).
  { assert (Heq : f == q + (f - q)) by ring.
    rewrite Heq at 1. apply Qabs_triangle. }
  nra.
Qed.

Lemma within_weaken (B B' : Q) (x : option Dec.Decimal) :
  B <= B' -> within B x -> within B' x.
Proof. intros HB Hx q Hq. specialize (Hx q Hq). lra. Qed.

Lemma sub_within (o c : Dec.Decimal) (B : Q) :
  Qabs o <= B -> Qabs c <= B -> Qabs (Dec.sub o c) <= 4 * B.
Proof.
  intros Ho Hc. unfold Dec.sub.
  pose proof (fix_prec_le_double (o - c)) as Hf.
  assert (Htri : Qabs (o - c) <= Qabs o + Qabs c).
  { unfold Dec.Decimal in o, c. assert (Heq : o - c == o + - c) by ring.
    rewrite Heq. rewrite <- (Qabs_opp c). apply Qabs_triangle. }
  lra.
Qed.

Lemma add_within (a b : Dec.Decimal) (B : Q) :
  Qabs a <= B -> Qabs b <= B -> Qabs (Dec.add a b) <= 4 * B.
Proof.
  intros Ha Hb. unfold Dec.add.
  pose proof (fix_prec_le_double (a + b)) as Hf.
  pose proof (Qabs_triangle a b) as Htri. lra.
Qed.

Lemma or_zero_within (x : option Dec.Decimal) (B : Q) :
  0 <= B -> within B x -> Qabs (or_zero x) <= B.
Proof.
  intros HB Hx. destruct x as [q |]; simpl; [| done].
  destruct (Dec.truthy q); [by apply Hx | done].
Qed.

Lemma pct_within (x : option Dec.Decimal) (B : Q) :
  within B x -> within (200 * B) (_pct x).
Proof.
  intros Hx q Hq. destruct x as [d |]; simpl in Hq; [| done].
  injection Hq as <-. specialize (Hx d eq_refl). unfold Dec.mul.
  pose proof (fix_prec_le_double (d * Dec.hundred)) as Hf.
  rewrite Qabs_Qmult in Hf. change (Qabs Dec.hundred) with 100 in Hf. lra.
Qed.

(** A quotient by a divisor of magnitude at least 1 is no larger than the
    dividend, up to the rounding of the context. *)
Lemma div_within (a b : option Dec.Decimal) (B : Q) :
  within B a ->
  (forall y, b = Some y -> y == 0 \/ 1 <= Qabs y) ->
  exists q, _div a b = Ret q /\ within (2 * B) q.
Proof.
  intros Ha Hb. rewrite div_cases. eexists. split; [reflexivity |].
  intros q Hq. destruct a as [x |], b as [y |]; try done.
  destruct (Dec.eq_zero y) eqn:Hy; [done |]. injection Hq as <-.
  specialize (Ha x eq_refl).
  destruct (Hb y eq_refl) as [Hy0 | Hy1].
  { apply eq_zero_Qeq in Hy0. congruence. }
  pose proof (fix_prec_le_double (x / y)) as Hf.
  assert (Hquot : Qabs (x / y) <= Qabs x).
  { unfold Qdiv. rewrite Qabs_Qmult, Qabs_Qinv.
    pose proof (Qabs_nonneg x) as Hx0.
    apply Qle_shift_div_r; [lra | nra]. }
  lra.
Qed.

Lemma fmt_returns_within (x : option Dec.Decimal) (nd : Z) (B : Q) :
  within B x ->
  B * Dec.pow10 nd < inject_Z (10 ^ Dec.prec) - (1 # 2) ->
  returns (_fmt x nd).
Proof.
  intros Hx HB. destruct x as [d |]; simpl; [| by eexists].
  specialize (Hx d eq_refl).
  assert (Hfit : returns (Dec.quantize d nd)).
  { apply quantize_fits_iff.
    pose proof (pow10_pos nd) as Hp.
    assert (Hle : Qabs d * Dec.pow10 nd <= B * Dec.pow10 nd) by nra.
    lra. }
  destruct Hfit as [r ->]. by eexists.
Qed.

Section ModerateValues.

Context {P : Type} `{Period P}.
Variable Decimal_of_str : string -> option Dec.Decimal.
Variable float_repr : float -> string.

Lemma base_metrics_returns_moderate (r : Raw) (ds : string) :
  (forall ser get, (ser, get) ∈ raw_sources (P := P) ->
     forall q, get r = Some q -> moderate q) ->
  returns (base_metrics r ds).
Proof.
  intros Hmod.
  set (B := inject_Z (10 ^ 22)).
  assert (HB : 0 <= B) by (by vm_compute).
  assert (Hraw : forall ser get, (ser, get) ∈ raw_sources (P := P) ->
            within B (get r) /\
            (forall y, get r = Some y -> y == 0 \/ 1 <= Qabs y)).
  { intros ser get Hin. split.
    - intros q Hq. by destruct (Hmod ser get Hin q Hq).
    - intros y Hy. by destruct (Hmod ser get Hin y Hy). }
  assert (Hfcf : within (4 * B) (fcf r)).
  { intros q Hq. unfold fcf in Hq.
    destruct (opCF r) as [o |] eqn:Ho, (capex r) as [c |] eqn:Hc; try done.
    injection Hq as <-.
    apply sub_within.
    - apply (proj1 (Hraw ocf_s opCF ltac:(unfold raw_sources; in_list))). done.
    - apply (proj1 (Hraw capex_s capex ltac:(unfold raw_sources; in_list))). done. }
  assert (Hdebt : within (4 * B) (totalDebt r)).
  { intros q Hq. unfold totalDebt in Hq. case_match; [| done].
    injection Hq as <-.
    apply add_within; apply or_zero_within; try done.
    - apply (proj1 (Hraw sdebt_s shortDebt ltac:(unfold raw_sources; in_list))).
    - apply (proj1 (Hraw ldebt_s longDebt ltac:(unfold raw_sources; in_list))). }
  assert (Hin : forall get, (exists ser, (ser, get) ∈ raw_sources (P := P)) ->
            within B (get r)).
  { intros get [ser Hget]. apply (Hraw ser get Hget). }
  assert (Hden : forall get, (exists ser, (ser, get) ∈ raw_sources (P := P)) ->
            forall y, get r = Some y -> y == 0 \/ 1 <= Qabs y).
  { intros get [ser Hget]. apply (Hraw ser get Hget). }
  assert (Hsrc : forall get, (exists ser, (ser, get) ∈ raw_sources (P := P)) <->
            get ∈ (raw_sources (P := P)).*2).
  { intros get. rewrite list_elem_of_fmap. split.
    - intros [ser Hget]. by exists (ser, get).
    - intros ([ser get'] & -> & Hget). by exists ser. }
  setoid_rewrite Hsrc in Hin. setoid_rewrite Hsrc in Hden. clear Hsrc Hraw Hmod.
  unfold raw_sources in Hin, Hden. cbn [fmap list_fmap snd] in Hin, Hden.
  unfold base_metrics.
  repeat match goal with
         | |- returns (_div ?a ?b ≫= _) =>
             let q := fresh "q" in
             let Hq := fresh "Hq" in
             destruct (div_within a b B) as (q & -> & Hq);
             [apply Hin; in_list | apply Hden; in_list | rewrite Ret_bind]
         | |- returns ((if is_not_None ?t then _ else _) ≫= _) =>
             let v := fresh "v" in
             assert (returns (if is_not_None t then _fmt t 2 else Ret None)) as [v ->];
             [destruct (is_not_None t);
              [apply (fmt_returns_within t 2 (4 * B) Hdebt); by vm_compute
              | by eexists]
             | rewrite Ret_bind]
         | |- returns (_fmt ?x 2 ≫= _) =>
             let v := fresh "v" in
             destruct (fmt_returns_within x 2 (800 * B)) as [v ->];
             [first
                [ solve [apply (within_weaken B); [by vm_compute | apply Hin; in_list]]
                | solve [apply (within_weaken (4 * B)); [by vm_compute | exact Hfcf]]
                | solve [apply (within_weaken (200 * (2 * B)));
                         [by vm_compute | apply pct_within; assumption]] ]
             | by vm_compute
             | rewrite Ret_bind]
         | |- returns (_fmt ?x 4 ≫= _) =>
             let v := fresh "v" in
             destruct (fmt_returns_within x 4 (2 * B)) as [v ->];
             [assumption | by vm_compute | rewrite Ret_bind]
         end.
  by eexists.
Qed.

Lemma raw_values_moderate (rs : Resolved) (d : P) :
  (forall ser get s c q, (ser, get) ∈ raw_sources ->
     ser rs = Some s -> s !! d = Some c -> cell_holds Decimal_of_str c q ->
     moderate q) ->
  exists r,
    raw_values Decimal_of_str rs d = Ret r /\
    forall ser get, (ser, get) ∈ raw_sources (P := P) ->
      forall q, get r = Some q -> moderate q.
Proof.
  intros Hcells. unfold raw_values.
  repeat match goal with
         | |- context [val Decimal_of_str ?s d ≫= _] =>
             let x := fresh "x" in
             let Hx := fresh "Hx" in
             destruct (val_Some_iff Decimal_of_str s d) as (x & -> & Hx);
             rewrite Ret_bind
         end.
  eexists. split; [reflexivity |].
  intros ser get Hin q Hq.
  assert (Hcell : exists s c, ser rs = Some s /\ s !! d = Some c /\
                    cell_holds Decimal_of_str c q).
  { revert Hq. unfold raw_sources in Hin.
    rewrite !elem_of_cons, elem_of_nil in Hin.
    repeat (destruct Hin as [[= -> ->] | Hin];
            [simpl; intros Hq;
             match goal with Hx : forall q, _ = Some q <-> _ |- _ =>
               apply Hx in Hq; exact Hq end |]).
    done. }
  destruct Hcell as (s & c & Hs & Hc & Hholds).
  exact (Hcells ser get s c q Hin Hs Hc Hholds).
Qed.

(** X11. When every usable cell of the resolved series is zero or of
    magnitude between 1 and 10^22, the builder returns, with one row per
    aligned period. *)
Theorem builder_returns_on_moderate_values (cname sym freq_label : string)
    (inc_df bal_df cf_df : gmap string (gmap P cell)) :
  let rs := resolve inc_df bal_df cf_df in
  (forall ser get s d c q, (ser, get) ∈ raw_sources ->
     ser rs = Some s -> s !! d = Some c -> cell_holds Decimal_of_str c q ->
     moderate q) ->
  exists out,
    build_rows_from_dfs Decimal_of_str float_repr cname sym inc_df bal_df cf_df
      freq_label = Ret out /\
    length out = length (aligned_dates rs).
Proof.
  intros rs Hcells. unfold build_rows_from_dfs. cbv zeta. fold rs.
  destruct (mapM_returns
              (build_row Decimal_of_str float_repr cname sym freq_label rs)
              (aligned_dates rs)) as [orig Horig].
  { intros d _.
    destruct (raw_values_moderate rs d) as (r & Hr & Hmod).
    { intros ser get s c q. apply Hcells. }
    destruct (base_metrics_returns_moderate r (period_str d) Hmod) as [m Hm].
    by apply (build_row_returns Decimal_of_str float_repr _ _ _ rs d r m). }
  rewrite Horig, Ret_bind, growth_pass_eq. eexists. split; [reflexivity |].
  rewrite length_imap. apply mapM_Forall2, Forall2_length in Horig. done.
Qed.

End ModerateValues.

End Magnitudes.

(** ** How close the stored ratios are *)

Section Closeness.

Local Open Scope Q_scope.

(** Rounding at [nd] decimals moves a value by at most half a unit of the
    last decimal kept. *)
Lemma quantize_near (x : Dec.Decimal) (nd : Z) (r : Dec.Decimal) :
  Dec.quantize x nd = Ret r ->
  Qabs (r - x) <= (1 # 2) * Dec.pow10 (- nd).
Proof.
  unfold Dec.quantize. case_match; [done |]. intros [= <-].
  set (y := Qred (x * Dec.pow10 nd)).
  pose proof (round_half_even_bound y) as Hk.
  set (k := inject_Z (Dec.round_half_even y)) in *.
  assert (Hy : y == x * Dec.pow10 nd) by apply Qred_correct.
  pose proof (pow10_pos nd) as Hp.
  assert (Hinv : Dec.pow10 (- nd) == / Dec.pow10 nd).
  { unfold Dec.pow10. apply Qpower_opp. }
  assert (Hp0 : ~ Dec.pow10 nd == 0) by lra.
  unfold Dec.Decimal in x.
  assert (Heq : Qred (k / Dec.pow10 nd) - x == (k - y) * / Dec.pow10 nd).
  { rewrite Qred_correct, Hy. field. exact Hp0. }
  rewrite Heq, Qabs_Qmult, Hinv.
  rewrite (Qabs_pos (/ Dec.pow10 nd)); [| apply Qlt_le_weak, Qinv_lt_0_compat, Hp].
  apply Qmult_le_compat_r; [exact Hk |].
  apply Qlt_le_weak, Qinv_lt_0_compat, Hp.
Qed.

(** The context precision moves a value by a relative [10^-27 / 2] at most. *)
Lemma fix_prec_near (q : Q) :
  Qabs (Dec.fix_prec q - q) <= (1 # 2) * Dec.pow10 (-27) * Qabs q.
Proof.
  destruct (Qeq_dec q 0) as [Hq | Hq].
  - rewrite (fix_prec_zero q Hq).
    assert (Hz : Qabs (0 - q) == 0).
    { assert (H0 : 0 - q == 0) by (rewrite Hq; ring). by rewrite H0. }
    rewrite Hz. pose proof (Qabs_nonneg q). pose proof (pow10_pos (-27)). nra.
  - pose proof (fix_prec_bound q Hq). pose proof (ulp28_le q Hq). lra.
Qed.

Lemma Qabs_bounds (u v : Q) : Qabs u <= v <-> - v <= u /\ u <= v.
Proof. apply Qabs_Qle_condition. Qed.

Lemma pow10_minus_27 : Dec.pow10 (-27) == 1 # 1000000000000000000000000000.
Proof. by vm_compute. Qed.

(** A percentage: the quotient and the product are rounded to the context
    precision, the result to 2 decimals. *)
Lemma pct_near (a b q : Q) :
  Dec.quantize (Dec.mul (Dec.fix_prec (a / b)) Dec.hundred) 2 = Ret q ->
  Qabs (q - 100 * (a / b)) <= (1 # 200) + 101 * Dec.pow10 (-27) * Qabs (a / b).
Proof.
  intros Hq. apply quantize_near in Hq.
  change (Dec.pow10 (Z.opp 2)) with (1 # 100) in Hq.
  set (c := a / b) in *.
  pose proof (fix_prec_near c) as H1.
  unfold Dec.mul in Hq.
  pose proof (fix_prec_near (Dec.fix_prec c * Dec.hundred)) as H2.
  set (x1 := Dec.fix_prec c) in *. clearbody x1.
  set (x2 := Dec.fix_prec (x1 * Dec.hundred)) in *. clearbody x2.
  unfold Dec.Decimal in x1, x2, q.
  rewrite Qabs_Qmult in H2. change (Qabs Dec.hundred) with 100 in H2.
  change Dec.hundred with 100 in H2.
  assert (HX : Qabs x1 <= Qabs c + Qabs (x1 - c)).
  { assert (Heq : x1 == c + (x1 - c)) by ring. rewrite Heq at 1.
    apply Qabs_triangle. }
  pose proof (Qabs_nonneg c) as HC.
  rewrite pow10_minus_27 in *.
  set (C := Qabs c) in *. clearbody C.
  set (X1 := Qabs x1) in *. clearbody X1.
  apply Qabs_bounds in Hq, H2. apply Qabs_bounds.
  assert (HD1 : - Qabs (x1 - c) <= x1 - c /\ x1 - c <= Qabs (x1 - c)).
  { apply Qabs_bounds. apply Qle_refl. }
  set (D1 := Qabs (x1 - c)) in *. clearbody D1. lra.
Qed.

(** A plain ratio: the quotient is rounded to the context precision, the
    result to 4 decimals. *)
Lemma ratio_near (a b q : Q) :
  Dec.quantize (Dec.fix_prec (a / b)) 4 = Ret q ->
  Qabs (q - a / b) <= (1 # 20000) + (1 # 2) * Dec.pow10 (-27) * Qabs (a / b).
Proof.
  intros Hq. apply quantize_near in Hq.
  change (Dec.pow10 (Z.opp 4)) with (1 # 10000) in Hq.
  set (c := a / b) in *.
  pose proof (fix_prec_near c) as H1.
  set (x1 := Dec.fix_prec c) in *. clearbody x1. unfold Dec.Decimal in x1, q.
  pose proof (Qabs_nonneg c) as HC.
  rewrite pow10_minus_27 in *.
  set (C := Qabs c) in *. clearbody C.
  apply Qabs_bounds in Hq, H1. apply Qabs_bounds. lra.
Qed.

Lemma fmt_Some_inv (x : Dec.Decimal) (nd : Z) (v : option float) :
  _fmt (Some x) nd = Ret v ->
  exists r, Dec.quantize x nd = Ret r /\
            v = Some (Flt.of_rounded (Dec.is_neg x) r).
Proof.
  simpl. destruct (Dec.quantize x nd) as [r |]; [| done].
  rewrite Ret_bind. intros [= <-]. by exists r.
Qed.

Lemma div_Some_nonzero (a b : Dec.Decimal) :
  ~ b == 0 -> _div (Some a) (Some b) = Ret (Some (Dec.fix_prec (a / b))).
Proof.
  intros Hb. rewrite div_cases.
  destruct (Dec.eq_zero b) eqn:Hz; [| done]. by apply eq_zero_Qeq in Hz.
Qed.

Section RatioClaims.

Context {P : Type} `{Period P}.
Variable Decimal_of_str : string -> option Dec.Decimal.
Variable float_repr : float -> string.

Lemma base_metrics_pct_ratios (r : Raw) (ds : string) (m : gmap string pyval)
    (k : string) (num den : Raw -> option Dec.Decimal) :
  base_metrics r ds = Ret m ->
  (k, num, den) ∈ pct_ratios ->
  exists q v, _div (num r) (den r) = Ret q /\ _fmt (_pct q) 2 = Ret v /\
              m !! k = Some (stored v).
Proof.
  intros Hm Hk.
  destruct (base_metrics_ratios r ds m Hm) as (H1 & H2 & _ & _ & _ & H6 & H7).
  unfold pct_ratios in Hk. rewrite !elem_of_cons, elem_of_nil in Hk.
  destruct Hk as [[= -> -> ->] | [[= -> -> ->] | [[= -> -> ->] | [[= -> -> ->] | []]]]];
    assumption.
Qed.

Lemma base_metrics_plain_ratios (r : Raw) (ds : string) (m : gmap string pyval)
    (k : string) (num den : Raw -> option Dec.Decimal) :
  base_metrics r ds = Ret m ->
  (k, num, den) ∈ plain_ratios ->
  exists q v, _div (num r) (den r) = Ret q /\ _fmt q 4 = Ret v /\
              m !! k = Some (stored v).
Proof.
  intros Hm Hk.
  destruct (base_metrics_ratios r ds m Hm) as (_ & _ & H3 & H4 & H5 & _).
  unfold plain_ratios in Hk. rewrite !elem_of_cons, elem_of_nil in Hk.
  destruct Hk as [[= -> -> ->] | [[= -> -> ->] | [[= -> -> ->] | []]]]; assumption.
Qed.

(** X5. In every row built, a ratio whose operands are present and whose
    denominator is not zero is stored as the float of a decimal close to the
    exact quotient: within 0.005 of 100 * a / b for the four percentages and
    within 0.00005 of a / b for the three plain ratios, up to a relative
    1.01e-25, respectively 5e-28, left by the 28 digits of the context. *)
Theorem stored_ratios_are_close (cname sym : string)
    (inc_df bal_df cf_df : gmap string (gmap P cell)) (freq_label : string)
    (out : list Row) (i : nat) (row : Row) :
  build_rows_from_dfs Decimal_of_str float_repr cname sym inc_df bal_df cf_df
    freq_label = Ret out ->
  out !! i = Some row ->
  exists d r,
    aligned_dates (resolve inc_df bal_df cf_df) !! i = Some d /\
    raw_values Decimal_of_str (resolve inc_df bal_df cf_df) d = Ret r /\
    (forall k num den a b,
       (k, num, den) ∈ pct_ratios -> num r = Some a -> den r = Some b -> ~ b == 0 ->
       exists q neg,
         metrics row !! k = Some (VFloat (Flt.of_rounded neg q)) /\
         Qabs (q - 100 * (a / b))
           <= (1 # 200) + 101 * Dec.pow10 (-27) * Qabs (a / b)) /\
    (forall k num den a b,
       (k, num, den) ∈ plain_ratios -> num r = Some a -> den r = Some b -> ~ b == 0 ->
       exists q neg,
         metrics row !! k = Some (VFloat (Flt.of_rounded neg q)) /\
         Qabs (q - a / b)
           <= (1 # 20000) + (1 # 2) * Dec.pow10 (-27) * Qabs (a / b)).
Proof.
  intros Hout Hrow.
  destruct (built_row_fields _ _ _ _ _ _ _ _ _ _ _ Hout Hrow)
    as (d & r & m & flags & text & orig & Hd & Hr & Hm & Ht & Hf & ->).
  exists d, r. split; [done |]. split; [done |].
  assert (Hlook : forall k, k ∈ numeric_keys ->
            metrics (grown (index_by_date 0 orig ∅) orig i
                       {| company := cname; symbol := sym; freq := freq_label;
                          fiscalDate := period_str d;
                          metrics := <["distressFlags" := VList flags]> m;
                          summary := text; source := "YahooFinance" |}) !! k
            = m !! k).
  { intros k Hk.
    apply (list_elem_of_further _ "fiscalDate"), numeric_key_not_added,
      not_elem_of_cons in Hk as [Hne Hg].
    rewrite grown_lookup_other by done. simpl. by rewrite lookup_insert_ne. }
  split.
  - intros k num den a b Hk Ha Hb Hb0.
    destruct (base_metrics_pct_ratios r _ m k num den Hm Hk) as (q & v & Hq & Hv & Hmk).
    rewrite Ha, Hb, div_Some_nonzero in Hq by done. apply Ret_inj in Hq. subst q.
    apply fmt_Some_inv in Hv as (q & Hq & ->).
    exists q, (Dec.is_neg (Dec.mul (Dec.fix_prec (a / b)) Dec.hundred)).
    split; [| by apply pct_near].
    rewrite Hlook, Hmk; [done |].
    unfold pct_ratios in Hk. rewrite !elem_of_cons, elem_of_nil in Hk.
    destruct Hk as [[= -> _ _] | [[= -> _ _] | [[= -> _ _] | [[= -> _ _] | []]]]];
      unfold numeric_keys; in_list.
  - intros k num den a b Hk Ha Hb Hb0.
    destruct (base_metrics_plain_ratios r _ m k num den Hm Hk)
      as (q & v & Hq & Hv & Hmk).
    rewrite Ha, Hb, div_Some_nonzero in Hq by done. apply Ret_inj in Hq. subst q.
    apply fmt_Some_inv in Hv as (q & Hq & ->).
    exists q, (Dec.is_neg (Dec.fix_prec (a / b))).
    split; [| by apply ratio_near].
    rewrite Hlook, Hmk; [done |].
    unfold plain_ratios in Hk. rewrite !elem_of_cons, elem_of_nil in Hk.
    destruct Hk as [[= -> _ _] | [[= -> _ _] | [[= -> _ _] | []]]];
      unfold numeric_keys; in_list.
Qed.

End RatioClaims.

End Closeness.

(** ** Growth pass *)

Lemma put_growth_lookup_cases (suffix : string) (prev_m m : gmap string pyval)
    (k k' : string) :
  put_growth suffix prev_m m k !! k' = m !! k' \/
  exists g, put_growth suffix prev_m m k !! k' = Some (VFloat g).
Proof.
  unfold put_growth. destruct (growth_value _ _) as [g |]; [| by left].
  destruct (decide (k +:+ suffix = k')) as [<- | Hne].
  - right. exists g. by rewrite lookup_insert_eq.
  - left. by rewrite lookup_insert_ne.
Qed.

Lemma grow_lookup_cases (suffix : string) (prev_m m : gmap string pyval)
    (k' : string) :
  grow suffix prev_m m !! k' = m !! k' \/
  exists g, grow suffix prev_m m !! k' = Some (VFloat g).
Proof.
  unfold grow.
  destruct (put_growth_lookup_cases suffix prev_m
              (put_growth suffix prev_m m "totalRevenue") "netIncome" k')
    as [-> | Hg]; [| by right].
  apply put_growth_lookup_cases.
Qed.

Lemma grown_lookup_cases (by_date : gmap string nat) (orig : list Row) (i : nat)
    (row : Row) (k : string) :
  metrics (grown by_date orig i row) !! k = metrics row !! k \/
  exists g, metrics (grown by_date orig i row) !! k = Some (VFloat g).
Proof.
  assert (Hqoq : qoq_part orig i row !! k = metrics row !! k \/
                 exists g, qoq_part orig i row !! k = Some (VFloat g)).
  { unfold qoq_part. destruct (orig !! (i + 1)); [| by left].
    apply grow_lookup_cases. }
  unfold grown. simpl. unfold yoy_part.
  destruct (yoy_key _); [| done]. destruct (_ ≫= _); [| done].
  destruct (grow_lookup_cases "_YoY_growth_pct" (metrics r) (qoq_part orig i row) k)
    as [-> | Hg]; [done | by right].
Qed.

(** X12. The growth pass over any list of rows never raises, keeps the
    number and order of the rows and every field of a row but its metrics,
    leaves every metric other than the four growth fields as it is, and
    whatever it writes is a number. *)
Theorem growth_pass_only_adds_growth_fields (out : list Row) :
  exists out',
    growth_pass out = Ret out' /\
    length out' = length out /\
    forall i row', out' !! i = Some row' ->
      exists row,
        out !! i = Some row /\
        company row' = company row /\ symbol row' = symbol row /\
        freq row' = freq row /\ fiscalDate row' = fiscalDate row /\
        summary row' = summary row /\ source row' = source row /\
        (forall k, k ∉ growth_fields -> metrics row' !! k = metrics row !! k) /\
        (forall k, metrics row' !! k = metrics row !! k \/
                   exists g, metrics row' !! k = Some (VFloat g)).
Proof.
  eexists. split; [apply growth_pass_eq |]. split; [by rewrite length_imap |].
  intros i row' Hrow'. rewrite list_lookup_imap in Hrow'.
  destruct (out !! i) as [row |] eqn:Hrow; [| done].
  simpl in Hrow'. injection Hrow' as <-. exists row.
  repeat split; try reflexivity.
  - intros k Hk. by apply grown_lookup_other.
  - intros k. apply grown_lookup_cases.
Qed.

(** ** Figures and labels *)

Lemma index_by_date_same (i : nat) (out out' : list Row) (acc : gmap string nat) :
  Forall2 same_figures out out' ->
  index_by_date i out acc = index_by_date i out' acc.
Proof.
  intros Hall. revert i acc.
  induction Hall as [| r r' out out' [Hd _] _ IH]; intros i acc; simpl; [done |].
  rewrite Hd. apply IH.
Qed.

Lemma grown_same (by_date : gmap string nat) (orig orig' : list Row) (i : nat)
    (row row' : Row) :
  Forall2 same_figures orig orig' -> same_figures row row' ->
  same_figures (grown by_date orig i row) (grown by_date orig' i row').
Proof.
  intros Hall [Hd Hm]. split; [done |]. unfold grown. simpl.
  assert (Hlook : forall j, metrics <$> orig !! j = metrics <$> orig' !! j).
  { intros j. destruct (orig !! j) as [r |] eqn:Hr.
    - destruct (Forall2_lookup_l _ _ _ _ _ Hall Hr) as (r' & -> & _ & Hmr).
      simpl. by rewrite Hmr.
    - apply Forall2_length in Hall. apply lookup_ge_None in Hr.
      rewrite (proj2 (lookup_ge_None orig' j)) by lia. done. }
  assert (Hq : qoq_part orig i row = qoq_part orig' i row').
  { unfold qoq_part. specialize (Hlook (i + 1)).
    destruct (orig !! (i + 1)), (orig' !! (i + 1)); simplify_eq/=; congruence. }
  unfold yoy_part. rewrite Hq, Hd.
  destruct (yoy_key (fiscalDate row')) as [key | e]; [| done].
  destruct (by_date !! key) as [j |]; simpl; [| done].
  specialize (Hlook j).
  destruct (orig !! j), (orig' !! j); simplify_eq/=; congruence.
Qed.

Lemma mapM_related {A B} (R : relation B) (f f' : A -> outcome B) (l : list A) :
  (forall x, match f x, f' x with
             | Ret y, Ret y' => R y y'
             | Raise e, Raise e' => e = e'
             | _, _ => False
             end) ->
  match mapM f l, mapM f' l with
  | Ret ys, Ret ys' => Forall2 R ys ys'
  | Raise e, Raise e' => e = e'
  | _, _ => False
  end.
Proof.
  intros Hrel. induction l as [| x l IH]; simpl; [constructor |].
  specialize (Hrel x).
  destruct (f x) as [y | e], (f' x) as [y' | e']; simpl; try done.
  destruct (mapM f l) as [ys | e], (mapM f' l) as [ys' | e']; simpl; try done.
  by constructor.
Qed.

Section LabelClaims.

Context {P : Type} `{Period P}.
Variable Decimal_of_str : string -> option Dec.Decimal.
Variable float_repr : float -> string.

Lemma build_row_same_figures (cname sym freq_label cname' sym' freq_label' : string)
    (rs : Resolved) (d : P) :
  match build_row Decimal_of_str float_repr cname sym freq_label rs d,
        build_row Decimal_of_str float_repr cname' sym' freq_label' rs d with
  | Ret row, Ret row' => same_figures row row'
  | Raise e, Raise e' => e = e'
  | _, _ => False
  end.
Proof.
  unfold build_row. destruct (raw_values_returns Decimal_of_str rs d) as [r ->].
  rewrite !Ret_bind. cbv zeta.
  destruct (base_metrics r (period_str d)) as [m | e] eqn:Hm.
  - rewrite !Ret_bind.
    destruct (summary_line_returns float_repr cname freq_label _ r m Hm) as [t ->].
    destruct (summary_line_returns float_repr cname' freq_label' _ r m Hm) as [t' ->].
    rewrite !Ret_bind, (distress_flags_base r _ m Hm), !Ret_bind. by split.
  - by rewrite !Raise_bind.
Qed.

(** X13. The figures do not depend on the labels: built from the same tables
    with other company, symbol and frequency labels, the rows have the same
    period texts and the same metrics, growth fields included, or the
    builder raises the same exception.  In particular the field named QoQ
    is computed the same way for an annual table. *)
Theorem figures_do_not_depend_on_labels
    (cname sym freq_label cname' sym' freq_label' : string)
    (inc_df bal_df cf_df : gmap string (gmap P cell)) :
  match
    build_rows_from_dfs Decimal_of_str float_repr cname sym inc_df bal_df cf_df
      freq_label,
    build_rows_from_dfs Decimal_of_str float_repr cname' sym' inc_df bal_df cf_df
      freq_label'
  with
  | Ret out, Ret out' =>
      Forall2 (fun r r' => fiscalDate r = fiscalDate r' /\ metrics r = metrics r')
        out out'
  | Raise e, Raise e' => e = e'
  | _, _ => False
  end.
Proof.
  unfold build_rows_from_dfs. cbv zeta.
  set (rs := resolve inc_df bal_df cf_df).
  pose proof (mapM_related same_figures
                (build_row Decimal_of_str float_repr cname sym freq_label rs)
                (build_row Decimal_of_str float_repr cname' sym' freq_label' rs)
                (aligned_dates rs)
                (build_row_same_figures _ _ _ _ _ _ rs)) as Hrows.
  destruct (mapM _ (aligned_dates rs)) as [orig | e],
           (mapM _ (aligned_dates rs)) as [orig' | e']; try done.
  rewrite !Ret_bind, !growth_pass_eq.
  rewrite (index_by_date_same 0 orig orig' ∅ Hrows).
  apply Forall2_same_length_lookup. split.
  { rewrite !length_imap. by eapply Forall2_length. }
  intros i row row' Hrow Hrow'. rewrite list_lookup_imap in Hrow, Hrow'.
  destruct (orig !! i) as [r |] eqn:Hr; [| done].
  destruct (orig' !! i) as [r' |] eqn:Hr'; [| done].
  simpl in Hrow, Hrow'. injection Hrow as <-. injection Hrow' as <-.
  apply grown_same; [done |]. by eapply Forall2_lookup_lr.
Qed.

(** X15. When fetching a company with a symbol returns, it has printed
    nothing, and the records are the quarterly rows followed by the annual
    rows of the six tables of the symbol, every row labelled with the
    company, the symbol and its frequency. *)
Theorem fetched_records_are_labelled
    (Ticker : string -> outcome (Statements (P := P))) (cname sym : string)
    (tr tr' : list event) (records : list Row) :
  sym <> "" ->
  fetch_yahoo_financials Decimal_of_str float_repr Ticker cname sym tr
    = (Ret records, tr') ->
  tr' = tr /\
  exists t recs_q recs_a,
    Ticker sym = Ret t /\
    records = recs_q ++ recs_a /\
    build_rows_from_dfs Decimal_of_str float_repr cname sym
      (quarterly_financials t) (quarterly_balance_sheet t)
      (quarterly_cashflow t) "Quarter" = Ret recs_q /\
    build_rows_from_dfs Decimal_of_str float_repr cname sym
      (financials t) (balance_sheet t) (cashflow t) "Annual" = Ret recs_a /\
    Forall (fun r => company r = cname /\ symbol r = sym /\ freq r = "Quarter") recs_q /\
    Forall (fun r => company r = cname /\ symbol r = sym /\ freq r = "Annual") recs_a.
Proof.
  intros Hsym. unfold fetch_yahoo_financials.
  rewrite bool_decide_eq_false_2 by done.
  unfold mbind, io_mbind, io_bind, lift, mret, io_mret, io_ret.
  destruct (Ticker sym) as [t | e]; [| done]. cbv beta iota.
  destruct (build_rows_from_dfs _ _ _ _ (quarterly_financials t) _ _ _)
    as [recs_q | e] eqn:Hq; [| done]. cbv beta iota.
  destruct (build_rows_from_dfs _ _ _ _ (financials t) _ _ _)
    as [recs_a | e] eqn:Ha; [| done].
  intros [= <- <-]. split; [done |]. exists t, recs_q, recs_a.
  do 4 (split; [done |]).
  split; apply Forall_lookup; intros i row Hrow.
  - destruct (built_row_fields _ _ _ _ _ _ _ _ _ _ _ Hq Hrow)
      as (d & r & m & flags & text & orig & _ & _ & _ & _ & _ & ->). done.
  - destruct (built_row_fields _ _ _ _ _ _ _ _ _ _ _ Ha Hrow)
      as (d & r & m & flags & text & orig & _ & _ & _ & _ & _ & ->). done.
Qed.

End LabelClaims.

(** ** The year-over-year key of a calendar date *)

Lemma digit_of_pretty_char (k : N) :
  (k < 10)%N -> digit_of (pretty_N_char k) = Some (Z.of_N k).
Proof.
  intros Hk.
  assert (Hcases : (k = 0 \/ k = 1 \/ k = 2 \/ k = 3 \/ k = 4 \/ k = 5 \/ k = 6
                    \/ k = 7 \/ k = 8 \/ k = 9)%N) by lia.
  repeat (destruct Hcases as [-> | Hcases]; [reflexivity |]). by subst k.
Qed.

(** The four digits of a year from 1000 to 9999. *)
Lemma pretty_four_digits (y : N) :
  (1000 <= y <= 9999)%N ->
  pretty y =
    String (pretty_N_char (y / 1000))
      (String (pretty_N_char ((y / 100) mod 10))
         (String (pretty_N_char ((y / 10) mod 10))
            (String (pretty_N_char (y mod 10)) "")))%N.
Proof.
  intros Hy. unfold pretty, pretty_N. rewrite decide_False by lia.
  assert (E2 : (y / 10 / 10 = y / 100)%N) by (by rewrite N.Div0.div_div).
  assert (E3 : (y / 10 / 10 / 10 = y / 1000)%N) by (by rewrite E2, N.Div0.div_div).
  assert (E4 : (y / 10 / 10 / 10 / 10 = y / 10000)%N)
    by (by rewrite E3, N.Div0.div_div).
  rewrite pretty_N_go_step by lia.
  rewrite pretty_N_go_step by (apply N.div_str_pos; lia).
  rewrite pretty_N_go_step by (rewrite E2; apply N.div_str_pos; lia).
  rewrite pretty_N_go_step by (rewrite E3; apply N.div_str_pos; lia).
  rewrite E4, E3, E2.
  rewrite (N.div_small y 10000) by lia. rewrite pretty_N_go_0.
  rewrite (N.mod_small (y / 1000) 10); [done |].
  apply N.Div0.div_lt_upper_bound. lia.
Qed.

Lemma zfill_four_digits (y : N) :
  (1000 <= y <= 9999)%N -> zfill 4 (pretty y) = pretty y.
Proof. intros Hy. rewrite (pretty_four_digits y Hy). reflexivity. Qed.

Lemma append_String (c : ascii) (s t : string) :
  String c s +:+ t = String c (s +:+ t).
Proof. reflexivity. Qed.

Lemma append_empty (t : string) : "" +:+ t = t.
Proof. reflexivity. Qed.

(** The key of a text that starts with a year of four digits: the year
    before, as [str] prints it, and the rest unchanged. *)
Lemma yoy_key_year_text (y : N) (rest : string) :
  (1000 <= y <= 9999)%N ->
  yoy_key (pretty y +:+ "-" +:+ rest) =
    Ret (py_str_int (Z.of_N y - 1) +:+ "-" +:+ rest).
Proof.
  intros Hy. rewrite (pretty_four_digits y) by lia.
  rewrite !append_String, append_empty.
  assert (Hmod : forall k : N, (k mod 10 < 10)%N).
  { intros k. apply N.mod_lt. lia. }
  assert (Hhi : (y / 1000 < 10)%N).
  { apply N.Div0.div_lt_upper_bound. lia. }
  rewrite (yoy_key_four_digit_year _ _ _ _ _ _ _ _ _ _
             (digit_of_pretty_char _ Hhi) (digit_of_pretty_char _ (Hmod _))
             (digit_of_pretty_char _ (Hmod _)) (digit_of_pretty_char _ (Hmod _))).
  do 3 f_equal.
  pose proof (N.div_mod y 10 ltac:(lia)) as E0.
  pose proof (N.div_mod (y / 10) 10 ltac:(lia)) as E1.
  pose proof (N.div_mod (y / 100) 10 ltac:(lia)) as E2.
  rewrite N.Div0.div_div in E1, E2.
  change (10 * 10)%N with 100%N in E1. change (100 * 10)%N with 1000%N in E2.
  lia.
Qed.

Lemma py_str_int_pos (n : N) : (0 < n)%N -> py_str_int (Z.of_N n) = pretty n.
Proof.
  intros Hn. unfold py_str_int, pretty at 1, pretty_Z.
  destruct (Z.of_N n) as [| p | p] eqn:Hp; [lia | | lia].
  unfold pretty at 1, pretty_positive. f_equal. lia.
Qed.

(** X14. For a calendar date of a year from 1001 to 9999, the key looked up
    for year-over-year growth is the text of the same month and day one
    year earlier. *)
Theorem yoy_key_of_iso_date (y m d : N) :
  (1001 <= y <= 9999)%N ->
  yoy_key (isoformat (Date y m d)) = Ret (isoformat (Date (y - 1) m d)).
Proof.
  intros Hy. unfold isoformat. cbn [year month day].
  rewrite !zfill_four_digits by lia.
  rewrite yoy_key_year_text by lia.
  replace (Z.of_N y - 1)%Z with (Z.of_N (y - 1)) by lia.
  by rewrite py_str_int_pos by lia.
Qed.

(** ** Year-over-year growth between calendar dates *)

(** Month and day print as two digits. *)
Lemma zfill_two_digits (m : N) :
  (m < 100)%N ->
  zfill 2 (pretty m) =
    String (pretty_N_char (m / 10)) (String (pretty_N_char (m mod 10)) "").
Proof.
  intros Hm. unfold pretty, pretty_N.
  destruct (decide (m = 0%N)) as [-> | Hne]; [reflexivity |].
  rewrite pretty_N_go_step by lia.
  destruct (decide (m < 10)%N) as [Hlt | Hge].
  - rewrite (N.div_small m 10) by lia. rewrite pretty_N_go_0. reflexivity.
  - rewrite pretty_N_go_step by (apply N.div_str_pos; lia).
    rewrite N.Div0.div_div. change (10 * 10)%N with 100%N.
    rewrite (N.div_small m 100) by lia. rewrite pretty_N_go_0.
    rewrite (N.mod_small (m / 10) 10); [reflexivity |].
    apply N.Div0.div_lt_upper_bound. lia.
Qed.

(** The ten characters of the text of a date. *)
Lemma isoformat_chars (d : Timestamp) :
  four_digit_year d ->
  isoformat d =
    String (pretty_N_char (year d / 1000))
      (String (pretty_N_char ((year d / 100) mod 10))
         (String (pretty_N_char ((year d / 10) mod 10))
            (String (pretty_N_char (year d mod 10))
               (String "-"
                  (String (pretty_N_char (month d / 10))
                     (String (pretty_N_char (month d mod 10))
                        (String "-"
                           (String (pretty_N_char (day d / 10))
                              (String (pretty_N_char (day d mod 10)) ""))))))))).
Proof.
  intros (Hy & Hm & Hd). unfold isoformat.
  rewrite zfill_four_digits, (pretty_four_digits (year d)) by done.
  rewrite !zfill_two_digits by done. reflexivity.
Qed.





Section CalendarGrowth.

Variable Decimal_of_str : string -> option Dec.Decimal.
Variable float_repr : float -> string.




End CalendarGrowth.

(** ** What a run logs *)

Section RunLogClaims.

Context {P : Type} `{Period P}.
Variable Decimal_of_str : string -> option Dec.Decimal.
Variable float_repr : float -> string.
Variable Ticker : string -> outcome (Statements (P := P)).








End RunLogClaims.

(** ** The CSV table *)

#[local] Instance str_lt_strict : StrictOrder str_lt.
Proof. apply (lexico_pullback_strict codes). Qed.

#[local] Instance str_lt_trichotomy : Trichotomy str_lt.
Proof. apply (lexico_pullback_trichotomy codes). Qed.

Lemma str_lt_asym (a b : string) : str_lt a b -> str_lt b a -> False.
Proof. intros Hab Hba. apply (irreflexivity str_lt a). by transitivity b. Qed.

Lemma sorts_before_irrefl (a b : Flat.row) :
  sorts_before a b -> sort_key a <> sort_key b.
Proof.
  unfold sorts_before, sort_key. intros Hab [= Hs Hf Hd].
  rewrite Hs, Hf, Hd in Hab.
  destruct Hab as [Hlt | [_ [Hlt | [_ Hlt]]]];
    by apply (irreflexivity str_lt) in Hlt.
Qed.

Lemma sorts_before_trans (a b c : Flat.row) :
  sorts_before a b -> sorts_before b c -> sorts_before a c.
Proof.
  unfold sorts_before.
  intros [Hs1 | [Hs1 [Hf1 | [Hf1 Hd1]]]] [Hs2 | [Hs2 [Hf2 | [Hf2 Hd2]]]].
  - left. by transitivity (Flat.symbol b).
  - left. by rewrite <- Hs2.
  - left. by rewrite <- Hs2.
  - left. by rewrite Hs1.
  - right. split; [congruence |]. left. by transitivity (Flat.frequency b).
  - right. split; [congruence |]. left. by rewrite <- Hf2.
  - left. by rewrite Hs1.
  - right. split; [congruence |]. left. by rewrite Hf1.
  - right. split; [congruence |]. right. split; [congruence |].
    by transitivity (Flat.fiscalDate b).
Qed.

Lemma sorts_before_total (a b : Flat.row) :
  sorts_before a b \/ sort_key a = sort_key b \/ sorts_before b a.
Proof.
  unfold sorts_before, sort_key.
  destruct (trichotomy str_lt (Flat.symbol a) (Flat.symbol b)) as [? | [Hs | ?]];
    [tauto | | tauto].
  pose proof (eq_sym Hs) as Hs'.
  destruct (trichotomy str_lt (Flat.frequency a) (Flat.frequency b))
    as [? | [Hf | ?]]; [tauto | | tauto].
  pose proof (eq_sym Hf) as Hf'.
  destruct (trichotomy str_lt (Flat.fiscalDate a) (Flat.fiscalDate b))
    as [? | [Hd | ?]]; [tauto | | tauto].
  right; left. congruence.
Qed.

(** Not sorting after is transitive. *)
Lemma not_after_trans (a b c : Flat.row) :
  ~ sorts_before b a -> ~ sorts_before c b -> ~ sorts_before c a.
Proof.
  intros Hab Hbc Hca.
  destruct (sorts_before_total a b) as [Hlt | [Heq | Hgt]]; [| | done].
  - apply Hbc. by apply (sorts_before_trans c a b).
  - apply Hbc. unfold sorts_before, sort_key in *. injection Heq as Hs Hf Hd.
    by rewrite <- Hs, <- Hf, <- Hd.
Qed.

Lemma insert_row_perm (x : Flat.row) (l : list Flat.row) : insert_row x l ≡ₚ x :: l.
Proof.
  induction l as [| y l IH]; simpl; [done |].
  case_decide; [| done]. rewrite IH. apply Permutation_swap.
Qed.

Lemma sort_values_perm (l : list Flat.row) : sort_values l ≡ₚ l.
Proof.
  induction l as [| x l IH]; simpl; [done |].
  by rewrite insert_row_perm, IH.
Qed.

Lemma insert_row_sorted (x : Flat.row) (l : list Flat.row) :
  StronglySorted (fun a b => ~ sorts_before b a) l ->
  StronglySorted (fun a b => ~ sorts_before b a) (insert_row x l).
Proof.
  induction l as [| y l IH]; intros Hl; simpl.
  - repeat constructor.
  - apply StronglySorted_inv in Hl as [Hl Hy]. case_decide as Hyx.
    + constructor; [by apply IH |].
      rewrite insert_row_perm. constructor; [| done].
      intros Hxy. apply (sorts_before_irrefl x x); [| done].
      by apply (sorts_before_trans x y x).
    + constructor; [by constructor |]. constructor; [done |].
      eapply Forall_impl; [exact Hy |]. intros z Hz.
      by apply (not_after_trans x y z).
Qed.

Lemma sort_values_sorted (l : list Flat.row) :
  StronglySorted (fun a b => ~ sorts_before b a) (sort_values l).
Proof.
  induction l as [| x l IH]; simpl; [constructor | by apply insert_row_sorted].
Qed.

Lemma insert_row_filter (k : string * string * string) (x : Flat.row)
    (l : list Flat.row) :
  filter (fun a => sort_key a = k) (insert_row x l) =
  filter (fun a => sort_key a = k) (x :: l).
Proof.
  induction l as [| y l IH]; simpl; [done |].
  case_decide as Hyx; [| done].
  rewrite !filter_cons in *. apply sorts_before_irrefl in Hyx.
  destruct (decide (sort_key y = k)), (decide (sort_key x = k));
    rewrite IH; congruence.
Qed.

Lemma sort_values_filter (k : string * string * string) (l : list Flat.row) :
  filter (fun a => sort_key a = k) (sort_values l) =
  filter (fun a => sort_key a = k) l.
Proof.
  induction l as [| x l IH]; simpl; [done |].
  rewrite insert_row_filter, !filter_cons, IH. done.
Qed.

Lemma StronglySorted_lookup {A} (R : relation A) (l : list A) (i j : nat) (a b : A) :
  StronglySorted R l -> i < j -> l !! i = Some a -> l !! j = Some b -> R a b.
Proof.
  intros Hl. revert i j. induction Hl as [| x l Hl IH Hx]; intros i j Hij Ha Hb.
  - done.
  - destruct j as [| j]; [lia |]. simpl in Hb. destruct i as [| i].
    + simpl in Ha. injection Ha as ->.
      rewrite Forall_forall in Hx. apply Hx. by eapply list_elem_of_lookup_2.
    + simpl in Ha. apply (IH i j); [lia | done | done].
Qed.

(** X17. The rows of the CSV table are the flat rows of the records in
    another order: none is lost or repeated, no row sorts strictly after a
    later one (symbol ascending, then frequency ascending, then period text
    descending), and rows with the same three keys keep the order of the
    records. *)
Theorem csv_rows_sorted_stably (records : list Row) :
  csv_rows records ≡ₚ flat_row <$> records /\
  (forall i j a b, i < j ->
     csv_rows records !! i = Some a -> csv_rows records !! j = Some b ->
     ~ sorts_before b a) /\
  (forall k,
     filter (fun a => sort_key a = k) (csv_rows records) =
     filter (fun a => sort_key a = k) (flat_row <$> records)).
Proof.
  assert (Heq : csv_rows records = sort_values (flat_row <$> records)).
  { unfold csv_rows. by destruct (flat_row <$> records). }
  rewrite Heq. split; [apply sort_values_perm |]. split.
  - intros i j a b Hij Ha Hb.
    pose proof (sort_values_sorted (flat_row <$> records)) as Hs.
    exact (StronglySorted_lookup _ _ i j a b Hs Hij Ha Hb).
  - intros k. apply sort_values_filter.
Qed.

(** ** The CSV rows of one company *)

Lemma code_of_pretty_char (x : N) :
  (x < 10)%N -> N_of_ascii (pretty_N_char x) = (48 + x)%N.
Proof.
  intros Hx.
  assert (Hcases : (x = 0 \/ x = 1 \/ x = 2 \/ x = 3 \/ x = 4 \/ x = 5 \/ x = 6
                    \/ x = 7 \/ x = 8 \/ x = 9)%N) by lia.
  repeat (destruct Hcases as [-> | Hcases]; [reflexivity |]). by subst x.
Qed.

Lemma lexico_cons_N (x y : N) (l k : list N) :
  lexico (x :: l) (y :: k) <-> (x < y)%N \/ (x = y /\ lexico l k).
Proof. reflexivity. Qed.

(** The character codes of the text of a date. *)
Lemma isoformat_codes (d : Timestamp) :
  four_digit_year d ->
  codes (isoformat d) =
    [48 + year d / 1000; 48 + (year d / 100) mod 10; 48 + (year d / 10) mod 10;
     48 + year d mod 10; 45; 48 + month d / 10; 48 + month d mod 10; 45;
     48 + day d / 10; 48 + day d mod 10]%N.
Proof.
  intros Hd. rewrite (isoformat_chars d Hd). destruct Hd as (Hy & Hm & Hd).
  assert (Hmod : forall k : N, (k mod 10 < 10)%N) by (intros k; apply N.mod_lt; lia).
  unfold codes. cbn [list_ascii_of_string fmap list_fmap].
  rewrite !code_of_pretty_char;
    first [done | apply Hmod | apply N.Div0.div_lt_upper_bound; lia].
Qed.

(** The texts of dates of four-digit years are ordered as the dates are. *)
Lemma isoformat_mono (a b : Timestamp) :
  four_digit_year a -> four_digit_year b ->
  period_lt a b -> str_lt (isoformat a) (isoformat b).
Proof.
  intros Ha Hb Hlt. unfold str_lt.
  rewrite (isoformat_codes a Ha), (isoformat_codes b Hb).
  destruct a as [ya ma da], b as [yb mb db].
  destruct Ha as (Hya & Hma & Hda), Hb as (Hyb & Hmb & Hdb).
  cbn [year month day] in *.
  assert (Hkey : (ya < yb \/ (ya = yb /\ (ma < mb \/ (ma = mb /\ da < db))))%N).
  { exact Hlt. }
  clear Hlt. rewrite !lexico_cons_N.
  assert (Hdigits : forall y : N,
            (y = 1000 * (y / 1000) + 100 * ((y / 100) mod 10)
                 + 10 * ((y / 10) mod 10) + y mod 10)%N).
  { intros y.
    pose proof (N.div_mod y 10 ltac:(lia)) as E0.
    pose proof (N.div_mod (y / 10) 10 ltac:(lia)) as E1.
    pose proof (N.div_mod (y / 100) 10 ltac:(lia)) as E2.
    rewrite N.Div0.div_div in E1, E2.
    change (10 * 10)%N with 100%N in E1. change (100 * 10)%N with 1000%N in E2.
    lia. }
  assert (Hmod : forall k : N, (k mod 10 < 10)%N) by (intros k; apply N.mod_lt; lia).
  pose proof (Hdigits ya) as Eya. pose proof (Hdigits yb) as Eyb.
  pose proof (N.div_mod ma 10 ltac:(lia)) as Ema.
  pose proof (N.div_mod mb 10 ltac:(lia)) as Emb.
  pose proof (N.div_mod da 10 ltac:(lia)) as Eda.
  pose proof (N.div_mod db 10 ltac:(lia)) as Edb.
  pose proof (Hmod (ya / 100)%N). pose proof (Hmod (ya / 10)%N). pose proof (Hmod ya).
  pose proof (Hmod (yb / 100)%N). pose proof (Hmod (yb / 10)%N). pose proof (Hmod yb).
  pose proof (Hmod ma). pose proof (Hmod mb). pose proof (Hmod da). pose proof (Hmod db).
  clear Hdigits Hmod.
  generalize dependent (ya / 1000)%N. generalize dependent ((ya / 100) mod 10)%N.
  generalize dependent ((ya / 10) mod 10)%N. generalize dependent (ya mod 10)%N.
  generalize dependent (yb / 1000)%N. generalize dependent ((yb / 100) mod 10)%N.
  generalize dependent ((yb / 10) mod 10)%N. generalize dependent (yb mod 10)%N.
  generalize dependent (ma / 10)%N. generalize dependent (ma mod 10)%N.
  generalize dependent (mb / 10)%N. generalize dependent (mb mod 10)%N.
  generalize dependent (da / 10)%N. generalize dependent (da mod 10)%N.
  generalize dependent (db / 10)%N. generalize dependent (db mod 10)%N.
  intros. lia.
Qed.

Lemma StronglySorted_from_lookup {A} (R : relation A) (l : list A) :
  (forall i j a b, i < j -> l !! i = Some a -> l !! j = Some b -> R a b) ->
  StronglySorted R l.
Proof.
  induction l as [| x l IH]; intros Hl; constructor.
  - apply IH. intros i j a b Hij Ha Hb. apply (Hl (S i) (S j)); [lia | done | done].
  - apply Forall_forall. intros y Hy.
    apply list_elem_of_lookup_1 in Hy as [j Hj].
    apply (Hl 0 (S j)); [lia | done | done].
Qed.

(** Sorting leaves a sorted table as it is. *)
Lemma insert_row_first (x : Flat.row) (l : list Flat.row) :
  Forall (fun y => ~ sorts_before y x) l -> insert_row x l = x :: l.
Proof.
  intros Hl. destruct l as [| y l]; [done |]. simpl.
  apply Forall_cons in Hl as [Hy _]. by rewrite decide_False.
Qed.

Lemma sort_values_sorted_id (l : list Flat.row) :
  StronglySorted (fun a b => ~ sorts_before b a) l -> sort_values l = l.
Proof.
  induction 1 as [| x l Hl IH Hx]; simpl; [done |].
  rewrite IH. by apply insert_row_first.
Qed.

Lemma insert_row_past (x : Flat.row) (l2 l : list Flat.row) :
  Forall (fun y => sorts_before y x) l2 ->
  insert_row x (l2 ++ l) = l2 ++ insert_row x l.
Proof.
  induction 1 as [| y l2 Hy Hl2 IH]; simpl; [done |].
  by rewrite decide_True, IH.
Qed.

(** Sorted rows followed by sorted rows that all sort before them change
    places. *)
Lemma sort_values_app_swap (l1 l2 : list Flat.row) :
  StronglySorted (fun a b => ~ sorts_before b a) l1 ->
  StronglySorted (fun a b => ~ sorts_before b a) l2 ->
  Forall (fun x => Forall (fun y => sorts_before y x) l2) l1 ->
  sort_values (l1 ++ l2) = l2 ++ l1.
Proof.
  intros Hl1 Hl2 Hall. induction Hl1 as [| x l1 Hl1 IH Hx]; simpl.
  - rewrite app_nil_r. by apply sort_values_sorted_id.
  - apply Forall_cons in Hall as [Hpast Hall].
    fold (sort_values (l1 ++ l2)). rewrite (IH Hall).
    rewrite insert_row_past by done. by rewrite insert_row_first.
Qed.

Section CompanyTable.

Variable Decimal_of_str : string -> option Dec.Decimal.
Variable float_repr : float -> string.

(** The flat rows of one statement are in sorted order already: one symbol,
    one frequency, dates descending. *)
Lemma built_rows_sorted (cname sym : string)
    (inc_df bal_df cf_df : gmap string (gmap Timestamp cell)) (freq_label : string)
    (out : list Row) :
  build_rows_from_dfs Decimal_of_str float_repr cname sym inc_df bal_df cf_df
    freq_label = Ret out ->
  Forall four_digit_year (aligned_dates (resolve inc_df bal_df cf_df)) ->
  StronglySorted (fun a b => ~ sorts_before b a) (flat_row <$> out) /\
  Forall (fun a => Flat.symbol a = sym /\ Flat.frequency a = freq_label)
    (flat_row <$> out).
Proof.
  intros Hout Hfour. rewrite Forall_forall in Hfour.
  assert (Hrow : forall i a, (flat_row <$> out) !! i = Some a ->
            exists d, aligned_dates (resolve inc_df bal_df cf_df) !! i = Some d /\
                      Flat.symbol a = sym /\ Flat.frequency a = freq_label /\
                      Flat.fiscalDate a = isoformat d).
  { intros i a Ha. rewrite list_lookup_fmap in Ha.
    destruct (out !! i) as [row |] eqn:Hi; [| done].
    simpl in Ha. apply (inj Some) in Ha. subst a.
    destruct (built_row_fields _ _ _ _ _ _ _ _ _ _ _ Hout Hi)
      as (d & r & m & flags & text & orig & Hd & _ & _ & _ & _ & ->).
    by exists d. }
  split.
  - apply StronglySorted_from_lookup. intros i j a b Hij Ha Hb.
    apply Hrow in Ha as (da & Hda & Hsa & Hfa & Hta).
    apply Hrow in Hb as (db & Hdb & Hsb & Hfb & Htb).
    pose proof (StronglySorted_lookup _ _ i j da db
                  (aligned_dates_sorted _) Hij Hda Hdb) as Hlt.
    unfold flip in Hlt.
    apply list_elem_of_lookup_2 in Hda, Hdb.
    pose proof (isoformat_mono db da (Hfour _ Hdb) (Hfour _ Hda) Hlt) as Hmono.
    unfold sorts_before. rewrite Hsa, Hsb, Hfa, Hfb, Hta, Htb.
    intros [Hs | [_ [Hf | [_ Ht]]]].
    + by apply (str_lt_asym sym sym).
    + by apply (str_lt_asym freq_label freq_label).
    + by apply (str_lt_asym (isoformat da) (isoformat db)).
  - apply Forall_forall. intros a Ha.
    apply list_elem_of_lookup_1 in Ha as [i Ha].
    apply Hrow in Ha as (d & _ & Hs & Hf & _). done.
Qed.

(** X19. For one company whose periods are calendar dates of four-digit
    years, the CSV table lists the annual rows first and the quarterly rows
    after them, each group in the order the builder returned it, newest
    period first; the records hold the quarterly rows first. *)
Theorem csv_lists_annual_rows_first (cname sym : string)
    (inc_q bal_q cf_q inc_a bal_a cf_a : gmap string (gmap Timestamp cell))
    (recs_q recs_a : list Row) :
  build_rows_from_dfs Decimal_of_str float_repr cname sym inc_q bal_q cf_q
    "Quarter" = Ret recs_q ->
  build_rows_from_dfs Decimal_of_str float_repr cname sym inc_a bal_a cf_a
    "Annual" = Ret recs_a ->
  Forall four_digit_year (aligned_dates (resolve inc_q bal_q cf_q)) ->
  Forall four_digit_year (aligned_dates (resolve inc_a bal_a cf_a)) ->
  csv_rows (recs_q ++ recs_a) = flat_row <$> (recs_a ++ recs_q).
Proof.
  intros Hq Ha Hfq Hfa.
  destruct (built_rows_sorted _ _ _ _ _ _ _ Hq Hfq) as [Hsq Hlq].
  destruct (built_rows_sorted _ _ _ _ _ _ _ Ha Hfa) as [Hsa Hla].
  assert (Heq : csv_rows (recs_q ++ recs_a)
                = sort_values (flat_row <$> (recs_q ++ recs_a))).
  { unfold csv_rows. by destruct (flat_row <$> recs_q ++ recs_a). }
  rewrite Heq, !fmap_app. apply sort_values_app_swap; [done | done |].
  eapply Forall_impl; [exact Hlq |]. intros x [Hxs Hxf].
  eapply Forall_impl; [exact Hla |]. intros y [Hys Hyf].
  unfold sorts_before. right. split; [congruence |]. left.
  rewrite Hxf, Hyf. unfold str_lt.
  change (codes "Annual") with [65; 110; 110; 117; 97; 108]%N.
  change (codes "Quarter") with [81; 117; 97; 114; 116; 101; 114]%N.
  apply lexico_cons_N. left. lia.
Qed.

End CompanyTable.

(** ** The further properties at the worked example *)

Lemma ex_extra_row_unlisted (k : string) (names : list string) (n : string) :
  INC_FIELDS !! k = Some names -> n ∈ names -> n <> "EBITDA".
Proof.
  intros Hk Hn. apply elem_of_list_to_map_2 in Hk.
  rewrite !elem_of_cons, elem_of_nil in Hk.
  repeat (destruct Hk as [[= -> ->] | Hk];
          [rewrite !elem_of_cons, elem_of_nil in Hn;
           repeat (destruct Hn as [-> | Hn]; [done |]); done |]).
  done.
Qed.

Lemma unlisted_rows_are_ignored_witness :
  build_rows_from_dfs plain_numeral no_repr "ACME" "ACM"
    ex_income ex_balance ex_cashflow "Quarter"
  = build_rows_from_dfs plain_numeral no_repr "ACME" "ACM"
      ex_income_extra ex_balance ex_cashflow "Quarter".
Proof.
  apply (unlisted_rows_are_ignored plain_numeral no_repr).
  - intros k names n Hk Hn. unfold ex_income_extra.
    rewrite lookup_insert_ne; [done |].
    intros Heq. by apply (ex_extra_row_unlisted k names n Hk Hn).
  - done.
  - done.
Defined.

Lemma built_row_schema_witness :
  build_rows_from_dfs plain_numeral no_repr "ACME" "ACM"
    ex_income ex_balance ex_cashflow "Quarter" = Ret ex_rows /\
  ex_rows !! 0 = Some (ex_row 0) /\
  exists d,
    aligned_dates (resolve ex_income ex_balance ex_cashflow) !! 0 = Some d /\
    company (ex_row 0) = "ACME" /\ symbol (ex_row 0) = "ACM" /\
    freq (ex_row 0) = "Quarter" /\ fiscalDate (ex_row 0) = period_str d /\
    source (ex_row 0) = "YahooFinance".
Proof.
  at_example_row @built_row_schema 0.
  destruct H as (d & Hd & Hc & Hs & Hf & Hdate & Hsrc & _).
  exists d. exact (conj Hd (conj Hc (conj Hs (conj Hf (conj Hdate Hsrc))))).
Defined.

Lemma distress_flags_in_fixed_order_witness :
  build_rows_from_dfs plain_numeral no_repr "ACME" "ACM"
    ex_income ex_balance ex_cashflow "Quarter" = Ret ex_rows /\
  ex_rows !! 0 = Some (ex_row 0) /\
  exists flags,
    metrics (ex_row 0) !! "distressFlags" = Some (VList flags) /\
    flags `sublist_of` flag_names /\ NoDup flags.
Proof.
  at_example_row @distress_flags_in_fixed_order 0. exact H.
Defined.

Lemma plain_fields_hold_rounded_raw_values_witness :
  build_rows_from_dfs plain_numeral no_repr "ACME" "ACM"
    ex_income ex_balance ex_cashflow "Quarter" = Ret ex_rows /\
  ex_rows !! 1 = Some (ex_row 1) /\
  exists d r,
    aligned_dates (resolve ex_income ex_balance ex_cashflow) !! 1 = Some d /\
    raw_values plain_numeral (resolve ex_income ex_balance ex_cashflow) d = Ret r /\
    (is_null (ex_row 1) "grossProfit" <-> grossProfit r = None).
Proof.
  at_example_row @plain_fields_hold_rounded_raw_values 1.
  destruct H as (d & r & Hd & Hr & Hall).
  exists d, r.
  exact (conj Hd (conj Hr (proj1 (Hall "grossProfit" grossProfit
           ltac:(unfold plain_fields; in_list))))).
Defined.

Lemma summary_shows_stored_values_witness :
  build_rows_from_dfs plain_numeral no_repr "ACME" "ACM"
    ex_income ex_balance ex_cashflow "Quarter" = Ret ex_rows /\
  ex_rows !! 0 = Some (ex_row 0) /\
  exists v_rev v_ni v_gm v_nm,
    metrics (ex_row 0) !! "totalRevenue" = Some (stored v_rev) /\
    metrics (ex_row 0) !! "netIncome" = Some (stored v_ni) /\
    metrics (ex_row 0) !! "grossMargin_pct" = Some (stored v_gm) /\
    metrics (ex_row 0) !! "netMargin_pct" = Some (stored v_nm) /\
    summary (ex_row 0) =
      "ACME" +:+ " " +:+ "Quarter" +:+ " " +:+ fiscalDate (ex_row 0)
      +:+ ": Rev=" +:+ show no_repr v_rev +:+ ", NI=" +:+ show no_repr v_ni
      +:+ ", GM%=" +:+ show no_repr v_gm +:+ ", NM%=" +:+ show no_repr v_nm.
Proof.
  at_example_row @summary_shows_stored_values 0. exact H.
Defined.

Lemma stored_ratios_are_close_witness :
  build_rows_from_dfs plain_numeral no_repr "ACME" "ACM"
    ex_income ex_balance ex_cashflow "Quarter" = Ret ex_rows /\
  ex_rows !! 0 = Some (ex_row 0) /\
  exists d r,
    aligned_dates (resolve ex_income ex_balance ex_cashflow) !! 0 = Some d /\
    raw_values plain_numeral (resolve ex_income ex_balance ex_cashflow) d = Ret r /\
    forall a b,
      currAssets r = Some a -> currLiab r = Some b -> ~ (b == 0)%Q ->
      exists q neg,
        metrics (ex_row 0) !! "currentRatio" = Some (VFloat (Flt.of_rounded neg q)) /\
        (Qabs (q - a / b)
           <= (1 # 20000) + (1 # 2) * Dec.pow10 (-27) * Qabs (a / b))%Q.
Proof.
  at_example_row @stored_ratios_are_close 0.
  destruct H as (d & r & Hd & Hr & _ & Hplain).
  exists d, r.
  exact (conj Hd (conj Hr (fun a b =>
           Hplain "currentRatio" currAssets currLiab a b
             ltac:(unfold plain_ratios; in_list)))).
Defined.

Lemma yoy_key_of_iso_date_witness :
  yoy_key (isoformat (Date 2024 3 31)) = Ret (isoformat (Date (2024 - 1) 3 31)).
Proof. apply (yoy_key_of_iso_date 2024 3 31). lia. Defined.

(** The only usable cell of the single-figure table is moderate. *)
Lemma ex_cells_moderate (ser : Resolved -> option (gmap Timestamp cell))
    (get : Raw -> option Dec.Decimal) (s : gmap Timestamp cell) (d : Timestamp)
    (c : cell) (q : Dec.Decimal) :
  (ser, get) ∈ raw_sources ->
  ser (resolve ex_income_single ∅ ∅) = Some s ->
  s !! d = Some c -> cell_holds plain_numeral c q -> moderate q.
Proof.
  intros Hin Hs Hc Hq. unfold raw_sources in Hin.
  rewrite !elem_of_cons, elem_of_nil in Hin.
  apply elem_of_map_to_list in Hc.
  repeat (destruct Hin as [[= -> ->] | Hin];
          [vm_compute in Hs;
           first [discriminate Hs | apply (inj Some) in Hs; subst s] |]);
    [.. | done].
  all: match type of Hc with
       | _ ∈ ?L => let l := eval vm_compute in L in change L with l in Hc
       end.
  all: rewrite ?elem_of_cons, ?elem_of_nil in Hc.
  all: repeat (destruct Hc as [[= -> ->] | Hc]); try done.
  all: destruct Hq as [[= <-] | (t & [= <-] & _ & _ & Hq)].
  all: try (vm_compute in Hq; first [discriminate Hq | injection Hq as <-]).
  all: split; [first [right; by vm_compute | left; by vm_compute] | by vm_compute].
Qed.

Lemma builder_returns_on_moderate_values_witness :
  exists out,
    build_rows_from_dfs plain_numeral no_repr "ACME" "ACM"
      ex_income_single ∅ ∅ "Annual" = Ret out /\
    length out = length (aligned_dates (resolve ex_income_single ∅ ∅)).
Proof.
  apply (builder_returns_on_moderate_values plain_numeral no_repr).
  intros ser get s d c q. apply ex_cells_moderate.
Defined.

Lemma ex_fetch :
  fetch_yahoo_financials plain_numeral no_repr ex_ticker "ACME" "ACM" []
  = (Ret ex_records, []).
Proof. vm_compute. reflexivity. Qed.

Lemma fetched_records_are_labelled_witness :
  exists t recs_q recs_a,
    ex_ticker "ACM" = Ret t /\
    ex_records = recs_q ++ recs_a /\
    Forall (fun r => company r = "ACME" /\ symbol r = "ACM" /\ freq r = "Quarter")
      recs_q /\
    Forall (fun r => company r = "ACME" /\ symbol r = "ACM" /\ freq r = "Annual")
      recs_a.
Proof.
  destruct (fetched_records_are_labelled plain_numeral no_repr ex_ticker
              "ACME" "ACM" [] [] ex_records ltac:(done) ex_fetch)
    as (_ & t & recs_q & recs_a & Ht & Hrecs & _ & _ & Hq & Ha).
  exists t, recs_q, recs_a. exact (conj Ht (conj Hrecs (conj Hq Ha))).
Defined.

Lemma ex_aligned_dates :
  aligned_dates (resolve ex_income ex_balance ex_cashflow) =
    [Q1_2024; Q4_2023; Q1_2023].
Proof. vm_compute. reflexivity. Qed.

Lemma ex_dates_four_digit :
  Forall four_digit_year (aligned_dates (resolve ex_income ex_balance ex_cashflow)).
Proof. rewrite ex_aligned_dates. repeat constructor; cbn; lia. Qed.


Lemma ex_rows_annual_built :
  build_rows_from_dfs plain_numeral no_repr "ACME" "ACM"
    ex_income ex_balance ex_cashflow "Annual" = Ret ex_rows_annual.
Proof. vm_compute. reflexivity. Qed.

Lemma csv_lists_annual_rows_first_witness :
  build_rows_from_dfs plain_numeral no_repr "ACME" "ACM"
    ex_income ex_balance ex_cashflow "Quarter" = Ret ex_rows /\
  build_rows_from_dfs plain_numeral no_repr "ACME" "ACM"
    ex_income ex_balance ex_cashflow "Annual" = Ret ex_rows_annual /\
  Forall four_digit_year (aligned_dates (resolve ex_income ex_balance ex_cashflow)) /\
  csv_rows (ex_rows ++ ex_rows_annual) = flat_row <$> (ex_rows_annual ++ ex_rows).
Proof.
  split; [exact ex_rows_are_built |]. split; [exact ex_rows_annual_built |].
  split; [exact ex_dates_four_digit |].
  exact (csv_lists_annual_rows_first plain_numeral no_repr "ACME" "ACM"
           ex_income ex_balance ex_cashflow ex_income ex_balance ex_cashflow
           ex_rows ex_rows_annual ex_rows_are_built ex_rows_annual_built
           ex_dates_four_digit ex_dates_four_digit).
Defined.
